(** * AssetChain pipeline: amount decoding, enrichment, resumable ledger
      and the daily VWAP series

    A shallow embedding of [src/index.ts] (both pipeline variants it
    holds: the full-ledger variant, called A below, and the per-transfer
    variant, called B) and of [src/calculate_vwap.ts], with the requests
    of [src/api.ts] and the extraction script of [src/unnamed/part_000].

    Conventions of the model.
    - A JavaScript string is a [string]: a sequence of 8-bit code units.
    - A JavaScript number is a binary64 [float]; its arithmetic and
      comparisons are the primitive ones.  A BigInt is a [Z].
    - An exception is the [Throw] case of [Exc], carrying the message
      that the retry loop inspects. *)

From Stdlib Require Import ZArith QArith Floats Ascii String List Bool Lia Sorted.
From stdpp Require Import gmap strings list.

Local Open Scope Z_scope.

(** ** Results that may throw *)

Inductive Exc (A : Type) : Type :=
| Return (a : A)
| Throw (message : string).
Arguments Return {A} a.
Arguments Throw {A} message.

Definition bindExc {A B : Type} (m : Exc A) (k : A -> Exc B) : Exc B :=
  match m with
  | Return a => k a
  | Throw msg => Throw msg
  end.

Notation "'try!' x ':=' m 'in' k" := (bindExc m (fun x => k))
  (at level 10, x name, m at level 100, k at level 200).

Fixpoint zeros (k : nat) : string :=
  match k with
  | O => EmptyString
  | S k' => String "0" (zeros k')
  end.

(** ** Built-ins of the language *)

Module JS.

(** [StrWhiteSpaceChar], within the 8-bit range. *)
Definition isWhiteSpace (c : ascii) : bool :=
  match c with
  | "009" | "010" | "011" | "012" | "013" | " " | "160" => true
  | _ => false
  end%char.

Fixpoint trimStart (s : string) : string :=
  match s with
  | String c r => if isWhiteSpace c then trimStart r else s
  | EmptyString => EmptyString
  end.

(** Removal of the longest suffix whose characters satisfy [p]. *)
Fixpoint dropTrailing (p : ascii -> bool) (s : string) : string :=
  match s with
  | String c r =>
      match dropTrailing p r with
      | EmptyString => if p c then EmptyString else String c EmptyString
      | r' => String c r'
      end
  | EmptyString => EmptyString
  end.

Definition trimEnd (s : string) : string := dropTrailing isWhiteSpace s.

Definition trim (s : string) : string := trimEnd (trimStart s).

(** Truthiness of a string: only the empty string is falsy. *)
Definition truthy (s : string) : bool :=
  match s with EmptyString => false | _ => true end.

(** [o || dflt] for an optional string property. *)
Definition orElse (o : option string) (dflt : string) : string :=
  match o with
  | Some s => if truthy s then s else dflt
  | None => dflt
  end.

(** [o && p(o)] used as a condition on an optional string property. *)
Definition andThen (o : option string) (p : string -> bool) : bool :=
  match o with
  | Some s => truthy s && p s
  | None => false
  end.

Definition toLowerChar (c : ascii) : ascii :=
  let n := N_of_ascii c in
  if ((65 <=? n) && (n <=? 90))%N then ascii_of_N (n + 32) else c.

Fixpoint toLowerCase (s : string) : string :=
  match s with
  | String c r => String (toLowerChar c) (toLowerCase r)
  | EmptyString => EmptyString
  end.

Definition startsWith (s p : string) : bool := String.prefix p s.

Fixpoint includes (s sub : string) : bool :=
  String.prefix sub s ||
  match s with
  | String _ r => includes r sub
  | EmptyString => false
  end.

(** [s.split(c)] for a one-character separator: never the empty list. *)
Fixpoint split (sep : ascii) (s : string) : list string :=
  match s with
  | EmptyString => [EmptyString]
  | String c r =>
      if Ascii.eqb c sep then EmptyString :: split sep r
      else match split sep r with
           | f :: fs => String c f :: fs
           | [] => [String c EmptyString]
           end
  end.

(** [xs.join(sep)]. *)
Definition join (sep : string) (xs : list string) : string :=
  String.concat sep xs.

(** [s.slice(start, end)] on integer arguments. *)
Definition sliceIndex (len i : Z) : Z :=
  if i <? 0 then Z.max (len + i) 0 else Z.min i len.

Definition slice (s : string) (start end_ : Z) : string :=
  let len := Z.of_nat (String.length s) in
  let from := sliceIndex len start in
  let to := sliceIndex len end_ in
  String.substring (Z.to_nat from) (Z.to_nat (Z.max (to - from) 0)) s.

(** The value of a hexadecimal digit, from its code unit. *)
Definition hexValue (c : ascii) : option Z :=
  let n := Z.of_N (N_of_ascii c) in
  if (48 <=? n) && (n <=? 57) then Some (n - 48)
  else if (97 <=? n) && (n <=? 102) then Some (n - 87)
  else if (65 <=? n) && (n <=? 70) then Some (n - 55)
  else None.

Definition digitIn (radix : Z) (c : ascii) : option Z :=
  match hexValue c with
  | Some v => if v <? radix then Some v else None
  | None => None
  end.

Definition isDigit (c : ascii) : bool :=
  match digitIn 10 c with Some _ => true | None => false end.

Fixpoint digitsValue (radix acc : Z) (s : string) : option Z :=
  match s with
  | EmptyString => Some acc
  | String c r =>
      match digitIn radix c with
      | Some v => digitsValue radix (radix * acc + v) r
      | None => None
      end
  end.

(** One or more digits of the radix. *)
Definition numeral (radix : Z) (s : string) : option Z :=
  match s with
  | EmptyString => None
  | _ => digitsValue radix 0 s
  end.

(** [BigInt(s)] on a string: [StringToBigInt].  [None] is the
    SyntaxError. *)
Definition StringToBigInt (s : string) : option Z :=
  match trim s with
  | EmptyString => Some 0
  | String "+" r => numeral 10 r
  | String "-" r => Z.opp <$> numeral 10 r
  | String "0" (String c r) as t =>
      match c with
      | "x" | "X" => numeral 16 r
      | "o" | "O" => numeral 8 r
      | "b" | "B" => numeral 2 r
      | _ => numeral 10 t
      end%char
  | t => numeral 10 t
  end.

Definition BigInt (s : string) : Exc Z :=
  match StringToBigInt s with
  | Some n => Return n
  | None => Throw ("Cannot convert " +:+ s +:+ " to a BigInt")
  end.

Definition digitChar (d : Z) : ascii := ascii_of_N (Z.to_N (48 + d)).

Fixpoint decimalDigits (fuel : nat) (n : Z) (acc : string) : string :=
  match fuel with
  | O => acc
  | S f =>
      let acc' := String (digitChar (n mod 10)) acc in
      if n <? 10 then acc' else decimalDigits f (n / 10) acc'
  end.

(** [n.toString()] of a BigInt. *)
Definition BigInt_toString (n : Z) : string :=
  let digits m := decimalDigits (S (Z.to_nat (Z.log2 m))) m EmptyString in
  if n <? 0 then String "-" (digits (- n)) else digits n.

(** The longest prefix of decimal digits, and what follows it. *)
Fixpoint spanDigits (s : string) : string * string :=
  match s with
  | String c r =>
      if isDigit c then let '(d, rest) := spanDigits r in (String c d, rest)
      else (EmptyString, s)
  | EmptyString => (EmptyString, EmptyString)
  end.

Definition stripSign (s : string) : bool * string :=
  match s with
  | String "-" r => (true, r)
  | String "+" r => (false, r)
  | _ => (false, s)
  end.

(** [parseInt(s)] without a radix.  [None] is NaN; the integer is kept
    exact. *)
Definition parseInt (s : string) : option Z :=
  let '(neg, s1) := stripSign (trimStart s) in
  let '(radix, s2) :=
    match s1 with
    | String "0" (String "x" r) | String "0" (String "X" r) => (16, r)
    | _ => (10, s1)
    end in
  let fix go (acc : option Z) (t : string) : option Z :=
    match t with
    | String c r =>
        match digitIn radix c with
        | Some v => go (Some (radix * default 0 acc + v)) r
        | None => acc
        end
    | EmptyString => acc
    end in
  (fun n => if neg then - n else n) <$> go None s2.

(** The binary64 nearest to [m * 10^e], ties to even. *)
Definition floatOfDecimal (neg : bool) (m e : Z) : float :=
  match m with
  | Zpos p =>
      let '(num, den) :=
        if 0 <=? e then (Z.to_pos (Zpos p * 10 ^ e), 1%positive)
        else (p, Z.to_pos (10 ^ (- e))) in
      SF2Prim (SFdiv prec emax (S754_finite neg num 0)
                                (S754_finite false den 0))
  | _ => if neg then PrimFloat.neg_zero else PrimFloat.zero
  end.

(** [parseFloat(s)]: the longest prefix that is a [StrDecimalLiteral]. *)
Definition parseFloat (s : string) : float :=
  let '(neg, s1) := stripSign (trimStart s) in
  if String.prefix "Infinity" s1 then
    (if neg then PrimFloat.neg_infinity else PrimFloat.infinity)
  else
    let '(ip, r1) := spanDigits s1 in
    let '(fp, r2) :=
      match r1 with
      | String "." r => spanDigits r
      | _ => (EmptyString, r1)
      end in
    match ip +:+ fp with
    | EmptyString => PrimFloat.nan
    | ds =>
        let ex :=
          match r2 with
          | String "e" r | String "E" r =>
              let '(eneg, r') := stripSign r in
              match numeral 10 (fst (spanDigits r')) with
              | Some v => if eneg then - v else v
              | None => 0
              end
          | _ => 0
          end in
        floatOfDecimal neg (default 0 (digitsValue 10 0 ds))
                       (ex - Z.of_nat (String.length fp))
    end.

(** [Number::toString]: the shortest decimal digits [s] (there are [k]
    of them) with [s * 10^(n-k)] rounding to the number, then the layout
    chosen from [n].  [num / den] is the magnitude of the number. *)
Definition pow10Le (n num den : Z) : bool :=
  if 0 <=? n then 10 ^ n * den <=? num else den <=? num * 10 ^ (- n).

Fixpoint adjustUp (fuel : nat) (n num den : Z) : Z :=
  match fuel with
  | O => n
  | S f => if pow10Le n num den then adjustUp f (n + 1) num den else n
  end.

Fixpoint adjustDown (fuel : nat) (n num den : Z) : Z :=
  match fuel with
  | O => n
  | S f => if pow10Le (n - 1) num den then n
           else adjustDown f (n - 1) num den
  end.

(** The [n] with [10^(n-1) <= num/den < 10^n]. *)
Definition decimalExponent (num den : Z) : Z :=
  let guess := (Z.log2 num - Z.log2 den) * 30103 / 100000 in
  adjustDown 4 (adjustUp 4 guess num den) num den.

(** The candidate with [k] digits, if one rounds to [x]. *)
Definition shortestAt (x : float) (num den n0 k : Z) : option (Z * Z) :=
  let p := n0 - k in
  let lo := if 0 <=? p then num / (den * 10 ^ p)
            else (num * 10 ^ (- p)) / den in
  let hi := lo + 1 in
  let ok (s : Z) := PrimFloat.eqb (floatOfDecimal false s p) x in
  let norm (s : Z) := if s =? 10 ^ k then (10 ^ (k - 1), n0 + 1) else (s, n0) in
  let loOk := (10 ^ (k - 1) <=? lo) && ok lo in
  let hiOk := ok hi in
  (* twice the distance of [x] to the middle of [lo] and [hi], scaled *)
  let upper :=
    if 0 <=? p then num * 2 <? (2 * lo + 1) * den * 10 ^ p
    else num * 10 ^ (- p) * 2 <? (2 * lo + 1) * den in
  let exactMiddle :=
    if 0 <=? p then num * 2 =? (2 * lo + 1) * den * 10 ^ p
    else num * 10 ^ (- p) * 2 =? (2 * lo + 1) * den in
  match loOk, hiOk with
  | true, true =>
      if upper then Some (norm lo)
      else if exactMiddle then Some (norm (if Z.even lo then lo else hi))
      else Some (norm hi)
  | true, false => Some (norm lo)
  | false, true => Some (norm hi)
  | false, false => None
  end.

Fixpoint shortest (fuel : nat) (x : float) (num den n0 k : Z) : Z * Z * Z :=
  match fuel with
  | O => (0, k, n0)
  | S f =>
      match shortestAt x num den n0 k with
      | Some (s, n) => (s, k, n)
      | None => shortest f x num den n0 (k + 1)
      end
  end.

Definition layout (s k n : Z) : string :=
  let ds := BigInt_toString s in
  let expo (e : Z) :=
    String "e" (String (if e <? 0 then "-"%char else "+"%char)
                       (BigInt_toString (Z.abs e))) in
  if (k <=? n) && (n <=? 21) then ds +:+ zeros (Z.to_nat (n - k))
  else if (0 <? n) && (n <=? 21) then
    String.substring 0 (Z.to_nat n) ds +:+ "." +:+
    String.substring (Z.to_nat n) (Z.to_nat (k - n)) ds
  else if (-6 <? n) && (n <=? 0) then "0." +:+ zeros (Z.to_nat (- n)) +:+ ds
  else if k =? 1 then ds +:+ expo (n - 1)
  else String.substring 0 1 ds +:+ "." +:+
       String.substring 1 (Z.to_nat (k - 1)) ds +:+ expo (n - 1).

Definition NumberToString (x : float) : string :=
  match Prim2SF x with
  | S754_nan => "NaN"
  | S754_zero _ => "0"
  | S754_infinity sgn => if sgn then "-Infinity" else "Infinity"
  | S754_finite sgn m e =>
      let '(num, den) :=
        if 0 <=? e then (Zpos m * 2 ^ e, 1) else (Zpos m, 2 ^ (- e)) in
      let '(s, k, n) :=
        shortest 17 (PrimFloat.abs x) num den (decimalExponent num den) 1 in
      (if sgn then "-" else EmptyString) +:+ layout s k n
  end.

(** [x || 0] on a number that may be [null]: zero, NaN and [null] are
    falsy. *)
Definition numOrZero (x : option float) : float :=
  match x with
  | Some v => if PrimFloat.is_nan v || PrimFloat.eqb v PrimFloat.zero then PrimFloat.zero else v
  | None => PrimFloat.zero
  end.

End JS.

(** ** Reference notions used in the statements *)


(** ** Data received from the explorer *)

Record Party := {
  hash : string;
  name : option string;
  is_contract : bool
}.

Record Token := {
  address : string;
  symbol : string;
  decimals : option string;
  exchange_rate : option string
}.

Record Total := {
  value : option string;
  total_decimals : option string
}.

(** [TokenTransferV2]: one token movement inside a transaction. *)
Record Transfer := {
  from : Party;
  to : Party;
  token : Token;
  total : option Total
}.

(** The [token_transfers] property of a transaction detail: an array, an
    object with an [items] array, or neither. *)
Inductive TokenTransfers :=
| TransfersArray (items : list Transfer)
| TransfersItems (items : list Transfer)
| TransfersAbsent.

(** [AssetChainTxV2], with the properties the pipeline reads. *)
Record TxDetails := {
  timestamp : string;
  block_number : float;
  status : string;
  method : option string;
  tx_from : Party;
  tx_to : option Party;
  gas_used : option string;
  gas_price : option string;
  fee_value : option string;
  token_transfers : TokenTransfers
}.

(** A property value written to the ledger. *)
Inductive JSValue :=
| VNull
| VStr (s : string)
| VNum (x : float).

Definition optStr (o : option string) : JSValue :=
  match o with Some s => VStr s | None => VNull end.

Definition optNum (o : option float) : JSValue :=
  match o with Some x => VNum x | None => VNull end.

(** ** Helpers shared by the two variants *)

Set Warnings "-inexact-float".
Definition CNGN_USD_FALLBACK : float := 0.000657%float.
Set Warnings "inexact-float".

Definition CNGN_ADDRESS : string :=
  JS.toLowerCase "0x7923C0f6FA3d1BA6EAFCAedAaD93e737Fd22FC4F".

Fixpoint replaceFirst (c by_ : ascii) (s : string) : string :=
  match s with
  | String x r => if Ascii.eqb x c then String by_ r
                  else String x (replaceFirst c by_ r)
  | EmptyString => EmptyString
  end.

Definition formatBlockTime (isoDate : string) : string :=
  if JS.truthy isoDate
  then String.substring 0 16 (replaceFirst "T" " " isoDate)
  else EmptyString.

Definition isCngn (item : Transfer) : bool :=
  String.eqb (JS.toLowerCase (address (token item)))
             (JS.toLowerCase CNGN_ADDRESS).

Definition sameAddress (a b : string) : bool :=
  String.eqb (JS.toLowerCase a) (JS.toLowerCase b).

(** [item.total && item.total.value]: the raw amount when it is truthy. *)
Definition rawAmount (item : Transfer) : option string :=
  match total item with
  | Some t =>
      match value t with
      | Some v => if JS.truthy v then Some v else None
      | None => None
      end
  | None => None
  end.

Fixpoint mapExc {A B : Type} (f : A -> Exc B) (xs : list A) : Exc (list B) :=
  match xs with
  | [] => Return []
  | x :: r => try! y := f x in try! ys := mapExc f r in Return (y :: ys)
  end.

Fixpoint foldExc {A S : Type} (f : S -> A -> Exc S) (xs : list A) (s : S)
  : Exc S :=
  match xs with
  | [] => Return s
  | x :: r => try! s' := f s x in foldExc f r s'
  end.

(** Comparison of a string length with a number that may be NaN. *)
Definition lengthLe (s : string) (n : option Z) : bool :=
  match n with
  | Some d => Z.of_nat (String.length s) <=? d
  | None => false
  end.

Definition lengthGt (s : string) (n : option Z) : bool :=
  match n with
  | Some d => d <? Z.of_nat (String.length s)
  | None => false
  end.

(** [ToIntegerOrInfinity(s.length - n)]: NaN becomes 0. *)
Definition lengthMinus (s : string) (n : option Z) : Z :=
  match n with
  | Some d => Z.of_nat (String.length s) - d
  | None => 0
  end.

Definition sliceFrom (s : string) (start : Z) : string :=
  JS.slice s start (Z.of_nat (String.length s)).


(** ** Variant B: one ledger row per cNGN transfer (second program of
    [src/index.ts]) *)

Module VariantB.

(** [while (s.length <= decimals) s = '0' + s]. *)
Fixpoint padLoop (fuel : nat) (decimals : option Z) (s : string) : string :=
  match fuel with
  | O => s
  | S f =>
      if lengthLe s decimals then padLoop f decimals (String "0" s) else s
  end.

Definition padFuel (decimals : option Z) (s : string) : nat :=
  match decimals with
  | Some d => Z.to_nat (d + 1 - Z.of_nat (String.length s))
  | None => O
  end.

(** [fractionalPart.replace(/0+$/, '')]. *)
Definition stripTrailingZeros (s : string) : string :=
  JS.dropTrailing (fun c => Ascii.eqb c "0") s.

(** The decimal literal handed to [parseFloat] (index.ts 487-494). *)
Definition decodeLiteral (raw : string) (decimals : option Z) : Exc string :=
  try! rawVal := JS.BigInt raw in
  let s0 := JS.BigInt_toString rawVal in
  let s := padLoop (padFuel decimals s0) decimals s0 in
  let cut := lengthMinus s decimals in
  let integerPart := JS.slice s 0 cut in
  let fractionalPart := stripTrailingZeros (sliceFrom s cut) in
  Return (if (0 <? String.length fractionalPart)%nat
          then integerPart +:+ "." +:+ fractionalPart
          else integerPart).

(** The amount decoder: raw integer string and decimals property. *)
Definition decode (raw decimals : string) : Exc float :=
  try! lit := decodeLiteral raw (JS.parseInt decimals) in
  Return (JS.parseFloat lit).

(** [FormattedTransaction], the ledger row of this variant. *)
Record Row := {
  transaction_hash : string;
  cngn_amount : option float;
  usd_value : option float;
  trader_address : string;
  block_time : string;
  pool_address : string;
  pool_name : option string;
  token_in_address : option string;
  token_out_address : option string;
  chain : string;
  dex : string;
  row_gas_used : string;
  row_gas_price : string;
  pool_liquidity_usd : option float;
  cngn_reserves : option float;
  other_token_reserves : option float;
  liquidity_source : string;
  slot : float
}.

Definition CSV_HEADERS : list string :=
  ["transaction_hash"; "cngn_amount"; "usd_value"; "trader_address";
   "block_time"; "pool_address"; "pool_name"; "token_in_address";
   "token_out_address"; "chain"; "dex"; "gas_used"; "gas_price";
   "pool_liquidity_usd"; "cngn_reserves"; "other_token_reserves";
   "liquidity_source"; "slot"].

(** The properties of a row, in the order of [CSV_HEADERS]. *)
Definition rowValues (r : Row) : list JSValue :=
  [VStr (transaction_hash r); optNum (cngn_amount r); optNum (usd_value r);
   VStr (trader_address r); VStr (block_time r); VStr (pool_address r);
   optStr (pool_name r); optStr (token_in_address r);
   optStr (token_out_address r); VStr (chain r); VStr (dex r);
   VStr (row_gas_used r); VStr (row_gas_price r);
   optNum (pool_liquidity_usd r); optNum (cngn_reserves r);
   optNum (other_token_reserves r); VStr (liquidity_source r);
   VNum (slot r)].

(** What [fetchTokenTransfersV2] answered.  The function is not among the
    sources; its answer is an input of the model. *)
Record TransfersResponse := { response_items : option (list Transfer) }.

Definition poolLike (label : option string) : bool :=
  JS.andThen label
    (fun n => JS.includes n "Pool" || JS.includes n "Uniswap").

(** Step 3: pool address, pool name and trader, relative to one cNGN
    transfer. *)
Definition identify (cngnItem : Transfer)
  : option string * option string * string :=
  if poolLike (name (to cngnItem)) then
    (Some (hash (to cngnItem)), name (to cngnItem), hash (from cngnItem))
  else if poolLike (name (from cngnItem)) then
    (Some (hash (from cngnItem)), name (from cngnItem), hash (to cngnItem))
  else
    (Some (hash (to cngnItem)), None, hash (from cngnItem)).

(** Step 4: the [forEach] over all transfers. *)
Definition flowStep (traderAddress : string)
    (acc : option string * option string * string) (item : Transfer)
  : option string * option string * string :=
  let '(tokenIn, tokenOut, otherTokenSymbol) := acc in
  let tokenIn :=
    if sameAddress (hash (from item)) traderAddress
    then Some (address (token item)) else tokenIn in
  let tokenOut :=
    if sameAddress (hash (to item)) traderAddress
    then Some (address (token item)) else tokenOut in
  let otherTokenSymbol :=
    if isCngn item then otherTokenSymbol else symbol (token item) in
  (tokenIn, tokenOut, otherTokenSymbol).

(** Step 6, first half: the cNGN amount, [null] without a raw amount. *)
Definition cngnValue (cngnItem : Transfer) : Exc (option float) :=
  match rawAmount cngnItem with
  | Some v =>
      try! x := decode v (JS.orElse (decimals (token cngnItem)) "6") in
      Return (Some x)
  | None => Return None
  end.

(** The rate of the fallback: the exchange rate attached to the token,
    else the constant. *)
Definition fallbackRate (cngnItem : Transfer) : float :=
  match exchange_rate (token cngnItem) with
  | Some r => if JS.truthy r then JS.parseFloat r else CNGN_USD_FALLBACK
  | None => CNGN_USD_FALLBACK
  end.

(** Step 6, second half: the USD value (index.ts 497-517). *)
Definition usdValue (items : list Transfer) (cngnItem : Transfer)
    (cngnVal : option float) : Exc float :=
  let usdtItem :=
    List.find (fun i => String.eqb (symbol (token i)) "USDT") items in
  try! usdVal :=
    match usdtItem with
    | Some u =>
        match total u with
        | Some t =>
            match value t with
            | Some v =>
                if JS.truthy v then
                  let dec :=
                    JS.orElse (total_decimals t)
                              (JS.orElse (decimals (token u)) "6") in
                  try! x := decode v dec in Return (Some x)
                else Return None
            | None => Return None
            end
        | None => Return None
        end
    | None => Return None
    end in
  match usdVal with
  | Some x => Return x
  | None => Return (JS.numOrZero cngnVal * fallbackRate cngnItem)%float
  end.

(** The row pushed for one cNGN transfer. *)
Definition rowFor (hash_ : string) (details : TxDetails)
    (items : list Transfer) (cngnItem : Transfer) : Exc Row :=
  let '(poolAddress, poolNameVal, traderAddress) := identify cngnItem in
  let '(tokenIn, tokenOut, otherTokenSymbol) :=
    fold_left (flowStep traderAddress) items (None, None, EmptyString) in
  let displayPoolName :=
    if JS.truthy otherTokenSymbol
    then Some ("cNGN / " +:+ otherTokenSymbol) else poolNameVal in
  try! cngnVal := cngnValue cngnItem in
  try! usdVal := usdValue items cngnItem cngnVal in
  Return {|
    transaction_hash := hash_;
    cngn_amount := cngnVal;
    usd_value := Some usdVal;
    trader_address := traderAddress;
    block_time := formatBlockTime (timestamp details);
    pool_address := JS.orElse poolAddress EmptyString;
    pool_name := displayPoolName;
    token_in_address := tokenIn;
    token_out_address := tokenOut;
    chain := "assetchain";
    dex := "Uniswap";
    row_gas_used := JS.orElse (gas_used details) "0";
    row_gas_price := JS.orElse (gas_price details) "0";
    pool_liquidity_usd := None;
    cngn_reserves := None;
    other_token_reserves := None;
    liquidity_source := "dex_swap";
    slot := block_number details
  |}.

(** [processSingleTransaction], after the two fetches. *)
Definition processSingleTransaction (hash_ : string)
    (details : option TxDetails)
    (transfersResponse : option TransfersResponse) : Exc (list Row) :=
  match details, transfersResponse with
  | Some d, Some {| response_items := Some items |} =>
      let cngnItems := List.filter isCngn items in
      mapExc (rowFor hash_ d items) cngnItems
  | _, _ => Return []
  end.

End VariantB.

(** ** Variant A: one aggregated ledger row per transaction (first program
    of [src/index.ts]) *)

Module VariantA.

(** [str.padStart(n, '0')]. *)
Definition padStart (s : string) (n : option Z) : string :=
  zeros (Z.to_nat (default 0 n - Z.of_nat (String.length s))) +:+ s.

(** The decimal literal handed to [parseFloat] (index.ts 119-126). *)
Definition decodeLiteral (raw : string) (decimals : option Z) : Exc string :=
  try! rawVal := JS.BigInt raw in
  let str := JS.BigInt_toString rawVal in
  Return (if lengthGt str decimals
          then JS.slice str 0 (lengthMinus str decimals) +:+ "." +:+
               sliceFrom str (lengthMinus str decimals)
          else "0." +:+ padStart str decimals).

Definition decode (raw decimals : string) : Exc float :=
  try! lit := decodeLiteral raw (JS.parseInt decimals) in
  Return (JS.parseFloat lit).

(** The ledger row of this variant. *)
Record Row := {
  transaction_hash : string;
  row_block_number : float;
  row_timestamp : string;
  row_status : string;
  trader_address : string;
  interacted_contract_address : string;
  interacted_contract_name : string;
  transaction_method : string;
  token_in_address : string;
  token_in_symbol : string;
  token_in_amount : float;
  token_out_address : string;
  token_out_symbol : string;
  token_out_amount : float;
  cngn_amount : float;
  usd_value : float;
  pool_address : string;
  pool_name : string;
  transaction_fee_native : string;
  row_gas_used : option string;
  row_gas_price : option string
}.

Definition CSV_HEADERS : list string :=
  ["transaction_hash"; "block_number"; "timestamp"; "status";
   "trader_address"; "interacted_contract_address";
   "interacted_contract_name"; "transaction_method"; "token_in_address";
   "token_in_symbol"; "token_in_amount"; "token_out_address";
   "token_out_symbol"; "token_out_amount"; "cngn_amount"; "usd_value";
   "pool_address"; "pool_name"; "transaction_fee_native"; "gas_used";
   "gas_price"].

(** The properties of a row, in the order of [CSV_HEADERS]. *)
Definition rowValues (r : Row) : list JSValue :=
  [VStr (transaction_hash r); VNum (row_block_number r);
   VStr (row_timestamp r); VStr (row_status r); VStr (trader_address r);
   VStr (interacted_contract_address r);
   VStr (interacted_contract_name r); VStr (transaction_method r);
   VStr (token_in_address r); VStr (token_in_symbol r);
   VNum (token_in_amount r); VStr (token_out_address r);
   VStr (token_out_symbol r); VNum (token_out_amount r);
   VNum (cngn_amount r); VNum (usd_value r); VStr (pool_address r);
   VStr (pool_name r); VStr (transaction_fee_native r);
   optStr (row_gas_used r); optStr (row_gas_price r)].

(** The own keys of the [CONTRACT_NAMES] table. *)
Definition CONTRACT_NAMES : list (string * string) :=
  [("0x7923c0f6fa3d1ba6eafcaedaad93e737fd22fc4f", "cNGN Token");
   ("0xe2a45a102b00fad6447d0ad859b43baf8bf6def1", "UniswapV3Pool (cNGN/USDT)");
   ("0x26e490d30e73c36800788dc6d6315946c4bbea24", "USDT");
   ("0x54527b09aeb2be23f99958db8f2f827dab863a28", "UniswapV3Router");
   ("0xec2b2209d710d4283b5d1e29441df0dbb9cee5c3", "SwapRouter");
   ("0x8804e26b04f52b0183ece80b797d1c1079956e56", "NonfungiblePositionManager")].

Fixpoint lookupName (table : list (string * string)) (key : string)
  : option string :=
  match table with
  | (k, v) :: r => if String.eqb k key then Some v else lookupName r key
  | [] => None
  end.

(** Address and name of the contract the transaction was sent to. *)
Definition interacted (details : TxDetails) : string * string :=
  match tx_to details with
  | Some t =>
      let interactedAddress := hash t in
      let interactedName :=
        JS.orElse (name t)
          (JS.orElse (lookupName CONTRACT_NAMES
                        (JS.toLowerCase interactedAddress)) EmptyString) in
      (interactedAddress,
       if negb (JS.truthy interactedName) && is_contract t
       then "Unknown Contract" else interactedName)
  | None => (EmptyString, EmptyString)
  end.

(** The variables the loop over the transfers assigns. *)
Record Scan := {
  tokenIn : string * string * float;
  tokenOut : string * string * float;
  cngnAmt : float;
  usdValue : float;
  pool : string * string
}.

Definition scanStart : Scan :=
  {| tokenIn := (EmptyString, EmptyString, PrimFloat.zero);
     tokenOut := (EmptyString, EmptyString, PrimFloat.zero);
     cngnAmt := PrimFloat.zero;
     usdValue := PrimFloat.zero;
     pool := (EmptyString, EmptyString) |}.

Definition namedPool (p : Party) : bool :=
  JS.andThen (name p) (fun n => JS.includes n "Pool").

Definition isStable (item : Transfer) : bool :=
  String.eqb (symbol (token item)) "USDT" ||
  String.eqb (symbol (token item)) "USDC".

(** The decoded amount of a transfer, 0 without a raw amount. *)
Definition amountOf (item : Transfer) : Exc float :=
  match rawAmount item with
  | Some v => decode v (JS.orElse (decimals (token item)) "18")
  | None => Return PrimFloat.zero
  end.

(** One iteration of the loop over the transfers (index.ts 114-145). *)
Definition scanStep (traderAddress : string) (st : Scan) (item : Transfer)
  : Exc Scan :=
  try! val := amountOf item in
  let cngnAmt' := if isCngn item then (cngnAmt st + val)%float
                  else cngnAmt st in
  let pool' :=
    if isCngn item then
      if namedPool (to item)
      then (hash (to item), default EmptyString (name (to item)))
      else if namedPool (from item)
      then (hash (from item), default EmptyString (name (from item)))
      else pool st
    else pool st in
  let leg := (address (token item), symbol (token item), val) in
  let fromTrader := sameAddress (hash (from item)) traderAddress in
  let toTrader := sameAddress (hash (to item)) traderAddress in
  Return {|
    tokenIn := if fromTrader then leg else tokenIn st;
    tokenOut := if negb fromTrader && toTrader then leg else tokenOut st;
    cngnAmt := cngnAmt';
    usdValue := if isStable item then val else usdValue st;
    pool := pool'
  |}.

(** The USD value after the loop (index.ts 147-149). *)
Definition finalUsd (st : Scan) : float :=
  if PrimFloat.eqb (usdValue st) PrimFloat.zero &&
     PrimFloat.ltb PrimFloat.zero (cngnAmt st)
  then (cngnAmt st * CNGN_USD_FALLBACK)%float
  else usdValue st.

Definition transferItems (details : TxDetails) : list Transfer :=
  match token_transfers details with
  | TransfersArray items => items
  | TransfersItems items => items
  | TransfersAbsent => []
  end.

(** [processSingleTransaction], after the fetch. *)
Definition processSingleTransaction (hash_ : string)
    (details : option TxDetails) : Exc (list Row) :=
  match details with
  | None => Return []
  | Some d =>
      let items := transferItems d in
      if negb (existsb isCngn items) then Return []
      else
        let traderAddress := hash (tx_from d) in
        let '(interactedAddress, interactedName) := interacted d in
        try! st := foldExc (scanStep traderAddress) items scanStart in
        let '(tokenInAddr, tokenInSym, tokenInAmt) := tokenIn st in
        let '(tokenOutAddr, tokenOutSym, tokenOutAmt) := tokenOut st in
        Return [{|
          transaction_hash := hash_;
          row_block_number := block_number d;
          row_timestamp := formatBlockTime (timestamp d);
          row_status := status d;
          trader_address := traderAddress;
          interacted_contract_address := interactedAddress;
          interacted_contract_name := interactedName;
          transaction_method := JS.orElse (method d) EmptyString;
          token_in_address := tokenInAddr;
          token_in_symbol := tokenInSym;
          token_in_amount := tokenInAmt;
          token_out_address := tokenOutAddr;
          token_out_symbol := tokenOutSym;
          token_out_amount := tokenOutAmt;
          cngn_amount := cngnAmt st;
          usd_value := finalUsd st;
          pool_address := fst (pool st);
          pool_name := snd (pool st);
          transaction_fee_native := JS.orElse (fee_value d) "0";
          row_gas_used := gas_used d;
          row_gas_price := gas_price d
        |}]
  end.

End VariantA.

(** ** The ledger file *)

Definition LF : ascii := "010"%char.
Definition CR : ascii := "013"%char.
Definition QUOTE : ascii := "034"%char.
Definition COMMA : ascii := ","%char.

(** [String(value)]. *)
Definition toString (v : JSValue) : string :=
  match v with
  | VNull => "null"
  | VStr s => s
  | VNum x => JS.NumberToString x
  end.

Fixpoint doubleQuotes (s : string) : string :=
  match s with
  | String c r =>
      if Ascii.eqb c QUOTE then String QUOTE (String QUOTE (doubleQuotes r))
      else String c (doubleQuotes r)
  | EmptyString => EmptyString
  end.

Definition hasChar (c : ascii) (s : string) : bool :=
  JS.includes s (String c EmptyString).

Definition escapeCsv (v : JSValue) : string :=
  match v with
  | VNull => EmptyString
  | _ =>
      let stringValue := toString v in
      if hasChar COMMA stringValue || hasChar QUOTE stringValue ||
         hasChar LF stringValue
      then String QUOTE (doubleQuotes stringValue +:+ String QUOTE EmptyString)
      else stringValue
  end.

(** One ledger line: the escaped properties joined by commas. *)
Definition csvLine (values : list JSValue) : string :=
  JS.join "," (map escapeCsv values).

(** The text one [appendFileSync] adds for a list of records. *)
Definition appendedText (records : list (list JSValue)) : string :=
  JS.join (String LF EmptyString) (map csvLine records) +:+ String LF EmptyString.

(** The lines [readline] delivers for a file content: it is cut at LF,
    CR LF and CR, and a last line without a line end is delivered too. *)
Fixpoint readLines (content : string) : list string :=
  match content with
  | EmptyString => []
  | String c r =>
      if Ascii.eqb c LF then EmptyString :: readLines r
      else if Ascii.eqb c CR then
        EmptyString ::
          match r with
          | String c' r' => if Ascii.eqb c' LF then readLines r'
                            else readLines r
          | EmptyString => []
          end
      else
        match readLines r with
        | l :: ls => String c l :: ls
        | [] => [String c EmptyString]
        end
  end.

Fixpoint dropLast (c : ascii) (s : string) : string :=
  match s with
  | EmptyString => EmptyString
  | String x EmptyString => if Ascii.eqb x c then EmptyString else s
  | String x r => String x (dropLast c r)
  end.

(** [field.replace(/^"|"$/g, '')]. *)
Definition stripQuotes (field : string) : string :=
  dropLast QUOTE
    match field with
    | String c r => if Ascii.eqb c QUOTE then r else field
    | EmptyString => EmptyString
    end.

(** The handler of one line after the header (index.ts 207-215). *)
Definition indexLine (hashes : gset string) (line : string) : gset string :=
  match JS.split "," line with
  | part0 :: _ =>
      if JS.truthy part0 then
        let hash_ := stripQuotes part0 in
        if JS.startsWith hash_ "0x" then {[hash_]} ∪ hashes else hashes
      else hashes
  | [] => hashes
  end.

(** [loadExistingHashes]: the file is absent ([None]) or has a content. *)
Definition loadExistingHashes (file : option string) : gset string :=
  match file with
  | None => ∅
  | Some content => fold_left indexLine (tail (readLines content)) ∅
  end.

(** The first comma-separated field of a line. *)
Definition firstField (line : string) : string :=
  hd EmptyString (JS.split "," line).

(** ** The pipeline *)

(** One item of the transfer list, and one answer of
    [fetchTokenTransfersList]. *)
Record ListItem := { item_transaction_hash : option string }.

Record PageParams := { page_token : string }.

Record ListResponse := {
  items : list ListItem;
  next_page_params : option PageParams
}.



Section Pipeline.

(** What differs between the two variants, and what the outside world
    answers during one run: the result of the [k]-th call of
    [processSingleTransaction] on a hash, and the [k]-th draw of
    [Math.random] while it is retried. *)
Context {Row : Type}.
Variable rowValues : Row -> list JSValue.
Variable CSV_HEADERS : list string.
Variable TARGET_COUNT : Z.
Variable stopOnEmptyBatch : bool.
Variable process : string -> nat -> Exc (list Row).
Variable random : string -> nat -> float.

Definition PROCESS_BATCH_SIZE : nat := 1000.
Definition EXECUTION_CONCURRENCY : nat := 50.

(** The retry loop of one item (index.ts 318-335): the result, [None]
    for [null], and the delays slept, in order. *)
Fixpoint retryLoop (retries k : nat) (hash_ : string)
  : option (list Row) * list float :=
  match retries with
  | O => (None, [])
  | S retries' =>
      match process hash_ k with
      | Return result => (Some result, [])
      | Throw message =>
          if JS.truthy message && JS.includes message "429" then
            let '(r, sleeps) := retryLoop retries' (S k) hash_ in
            (r, (2000 + random hash_ k * 1000)%float :: sleeps)
          else if JS.truthy message && JS.includes message "500" then
            let '(r, sleeps) := retryLoop retries' (S k) hash_ in
            (r, 3000%float :: sleeps)
          else (None, [])
      end
  end.

Definition processItem (hash_ : string) : option (list Row) :=
  fst (retryLoop 3 0 hash_).


(** The [forEach] over the items of one page (index.ts 262-270). *)
Definition scanItem (acc : gset string * list string) (item : ListItem)
  : gset string * list string :=
  let '(seenHashes, currentBatchHashes) := acc in
  match item_transaction_hash item with
  | Some h =>
      if JS.truthy h && negb (bool_decide (h ∈ seenHashes))
      then ({[h]} ∪ seenHashes, currentBatchHashes ++ [h])
      else acc
  | None => acc
  end.

Definition scanPage (page : list ListItem) (acc : gset string * list string)
  : gset string * list string :=
  fold_left scanItem page acc.

(** The collecting loop (index.ts 256-291).  It ends by itself, or is cut
    short when the answers of the upstream are used up. *)
Record Collected := {
  c_seen : gset string;
  c_batch : list string;
  c_cursor : option PageParams;
  c_rest : list ListResponse;
  c_cut : bool
}.

Fixpoint collect (listing : list ListResponse) (seenHashes : gset string)
    (currentBatchHashes : list string) (nextPageParams : option PageParams)
  : Collected :=
  let stop cut rest seen batch cursor :=
    {| c_seen := seen; c_batch := batch; c_cursor := cursor;
       c_rest := rest; c_cut := cut |} in
  if (length currentBatchHashes <? PROCESS_BATCH_SIZE)%nat then
    match listing with
    | [] => stop true [] seenHashes currentBatchHashes nextPageParams
    | listResponse :: rest =>
        match items listResponse with
        | [] => stop false rest seenHashes currentBatchHashes nextPageParams
        | page =>
            let '(seen, batch) :=
              scanPage page (seenHashes, currentBatchHashes) in
            match next_page_params listResponse with
            | Some params => collect rest seen batch (Some params)
            | None => stop false rest seen batch nextPageParams
            end
        end
    end
  else stop false listing seenHashes currentBatchHashes nextPageParams.

(** The state of a run: the variables of [pipelineBatch], the content of
    the ledger file, the answers the upstream has still to give, and
    the record of what was processed, with its result. *)
Record State := {
  seenHashes : gset string;
  recordsSaved : Z;
  nextPageParams : option PageParams;
  ledger : string;
  listing : list ListResponse;
  trace : list (string * option (list Row))
}.

Definition validResults (results : list (string * option (list Row)))
  : list Row :=
  flat_map (fun r => match snd r with Some rows => rows | None => [] end)
           results.

(** One window of at most [EXECUTION_CONCURRENCY] items (index.ts
    315-355). *)
Definition processChunk (st : State) (chunk : list string) : State :=
  let results := map (fun h => (h, processItem h)) chunk in
  let valid := validResults results in
  {| seenHashes := seenHashes st;
     recordsSaved :=
       match valid with
       | [] => recordsSaved st
       | _ => recordsSaved st + Z.of_nat (length valid)
       end;
     nextPageParams := nextPageParams st;
     ledger :=
       match valid with
       | [] => ledger st
       | _ => ledger st +:+ appendedText (map rowValues valid)
       end;
     listing := listing st;
     trace := trace st ++ results |}.

(** The loop over the windows of a batch. *)
Fixpoint burst (fuel i : nat) (batch : list string) (st : State) : State :=
  match fuel with
  | O => st
  | S fuel' =>
      if (i <? length batch)%nat then
        let chunk := firstn EXECUTION_CONCURRENCY (skipn i batch) in
        burst fuel' (i + EXECUTION_CONCURRENCY) batch (processChunk st chunk)
      else st
  end.

(** The main loop (index.ts 249-377).  One unit of fuel is one
    iteration. *)
Fixpoint pipelineLoop (fuel : nat) (st : State) : State :=
  match fuel with
  | O => st
  | S fuel' =>
      if recordsSaved st <? TARGET_COUNT then
        let c := collect (listing st) (seenHashes st) [] (nextPageParams st) in
        let st1 :=
          {| seenHashes := c_seen c; recordsSaved := recordsSaved st;
             nextPageParams := c_cursor c; ledger := ledger st;
             listing := c_rest c; trace := trace st |} in
        if c_cut c then st1
        else if stopOnEmptyBatch &&
                match c_batch c with [] => true | _ => false end then st1
        else
          let st2 := burst (length (c_batch c)) 0 (c_batch c) st1 in
          if TARGET_COUNT <=? recordsSaved st2 then st2
          else if match nextPageParams st2 with None => true | _ => false end
                  && (length (c_batch c) <? PROCESS_BATCH_SIZE)%nat
          then st2
          else pipelineLoop fuel' st2
      else st
  end.

(** [pipelineBatch] on a ledger file that is absent or has a content,
    against the given answers of the list endpoint. *)
Definition pipelineBatch (file : option string)
    (answers : list ListResponse) : State :=
  let content :=
    match file with
    | Some c => c
    | None => JS.join "," CSV_HEADERS +:+ String LF EmptyString
    end in
  let seen := loadExistingHashes (Some content) in
  pipelineLoop (S (length answers))
    {| seenHashes := seen;
       recordsSaved := Z.of_nat (size seen);
       nextPageParams := None;
       ledger := content;
       listing := answers;
       trace := [] |}.

End Pipeline.

(** ** Runs of the two programs *)

(** The text of the ledger lines of a list of records, one line end
    after each. *)
Fixpoint rendered (records : list (list JSValue)) : string :=
  match records with
  | [] => EmptyString
  | r :: rs => csvLine r +:+ String LF (rendered rs)
  end.

(** A hash that the resume scan reads back as it was written: it begins
    with "0x" and holds no comma, quote or line end. *)
Definition wellFormedHash (h : string) : bool :=
  JS.startsWith h "0x" && negb (hasChar COMMA h) && negb (hasChar QUOTE h)
  && negb (hasChar LF h) && negb (hasChar CR h).

(** The hashes for which a run appended at least one row. *)
Definition persisted {Row : Type} (t : list (string * option (list Row)))
  : list string :=
  map fst (List.filter (fun e => match snd e with
                                 | Some (_ :: _) => true
                                 | _ => false
                                 end) t).

(** The hashes the list endpoint names in its answers. *)
Definition listedHashes (answers : list ListResponse) : list string :=
  flat_map (fun resp =>
              flat_map (fun item => match item_transaction_hash item with
                                    | Some h => [h]
                                    | None => []
                                    end) (items resp)) answers.

(** What the outside world answers during one run. *)
Record World (Answer : Type) := {
  answers : list ListResponse;
  explorer : string -> nat -> Answer;
  jitter : string -> nat -> float
}.
Arguments answers {Answer} w.
Arguments explorer {Answer} w.
Arguments jitter {Answer} w.

(** A world whose list endpoint names well-formed hashes only. *)
Definition wellFormedWorld {Answer : Type} (w : World Answer) : Prop :=
  forall h, In h (listedHashes (answers w)) -> wellFormedHash h = true.

(** Variant A: the explorer answers with the transaction detail, or the
    fetch fails and gives [null]. *)
Definition runA (file : option string) (w : World (option TxDetails))
  : State :=
  pipelineBatch VariantA.rowValues VariantA.CSV_HEADERS 250000 false
    (fun h k => VariantA.processSingleTransaction h (explorer w h k))
    (jitter w) file (answers w).

(** Variant B: the explorer answers with the detail and with what
    [fetchTokenTransfersV2] gives, which may throw. *)
Definition processB (h : string)
    (answer : option TxDetails * Exc (option VariantB.TransfersResponse))
  : Exc (list VariantB.Row) :=
  try! transfersResponse := snd answer in
  VariantB.processSingleTransaction h (fst answer) transfersResponse.

Definition runB (file : option string)
    (w : World (option TxDetails * Exc (option VariantB.TransfersResponse)))
  : State :=
  pipelineBatch VariantB.rowValues VariantB.CSV_HEADERS 180000 true
    (fun h k => processB h (explorer w h k))
    (jitter w) file (answers w).

(** Successive runs, each resuming from the ledger the one before left:
    the ledger at the end and all that was processed. *)
Fixpoint runs {Row Answer : Type}
    (run : option string -> World Answer -> @State Row)
    (file : option string) (worlds : list (World Answer))
  : option string * list (string * option (list Row)) :=
  match worlds with
  | [] => (file, [])
  | w :: ws =>
      let st := run file w in
      let '(final, t) := runs run (Some (ledger st)) ws in
      (final, trace st ++ t)
  end.

(** ** The daily VWAP series ([src/calculate_vwap.ts]) *)

Module Vwap.

(** *** Dates

    A [Date] object of the program always stands at midnight UTC of a
    calendar day: it is made from a date-only ISO string, which is read
    as UTC, and moved by [setDate(getDate() + 1)].  The model keeps the
    calendar day.  [getDate] and [setDate] work in the time zone of the
    host, which the model takes to be UTC (any zone with a fixed offset
    behaves alike): the step is then the next calendar day.  Strings
    other than [YYYY-MM-DD] with a day that exists are treated as an
    invalid date; engines differ on them and no statement below depends
    on it. *)
Record Date := { year : Z; month : Z; day : Z }.

Definition isLeapYear (y : Z) : bool :=
  (y mod 4 =? 0) && (negb (y mod 100 =? 0) || (y mod 400 =? 0)).

Definition daysInMonth (y m : Z) : Z :=
  if m =? 2 then (if isLeapYear y then 29 else 28)
  else if (m =? 4) || (m =? 6) || (m =? 9) || (m =? 11) then 30
  else 31.

Definition validDate (d : Date) : bool :=
  (0 <=? year d) && (year d <=? 9999) &&
  (1 <=? month d) && (month d <=? 12) &&
  (1 <=? day d) && (day d <=? daysInMonth (year d) (month d)).

(** [d.setDate(d.getDate() + 1)]. *)
Definition nextDay (d : Date) : Date :=
  if day d <? daysInMonth (year d) (month d)
  then {| year := year d; month := month d; day := day d + 1 |}
  else if month d <? 12
  then {| year := year d; month := month d + 1; day := 1 |}
  else {| year := year d + 1; month := 1; day := 1 |}.

(** [a < b] and [a <= b] on the time values. *)
Definition Date_ltb (a b : Date) : bool :=
  (year a <? year b) ||
  ((year a =? year b) &&
   ((month a <? month b) || ((month a =? month b) && (day a <? day b)))).

Definition Date_leb (a b : Date) : bool := negb (Date_ltb b a).

(** [n] written with [width] digits. *)
Fixpoint padDigits (width : nat) (n : Z) : string :=
  match width with
  | O => EmptyString
  | S w => padDigits w (n / 10) +:+ String (JS.digitChar (n mod 10)) EmptyString
  end.

(** [d.toISOString().split('T')[0]]. *)
Definition toISODate (d : Date) : string :=
  let y := year d in
  (if (0 <=? y) && (y <=? 9999) then padDigits 4 y
   else String (if y <? 0 then "-"%char else "+"%char) (padDigits 6 (Z.abs y)))
  +:+ "-" +:+ padDigits 2 (month d) +:+ "-" +:+ padDigits 2 (day d).

(** [new Date(s)] for a date-only string; [None] is the invalid date. *)
Definition newDate (s : string) : option Date :=
  match JS.split "-" s with
  | [ys; ms; ds] =>
      if (String.length ys =? 4)%nat && (String.length ms =? 2)%nat &&
         (String.length ds =? 2)%nat
      then
        match JS.digitsValue 10 0 ys, JS.digitsValue 10 0 ms,
              JS.digitsValue 10 0 ds with
        | Some y, Some m, Some d =>
            let date_ := {| year := y; month := m; day := d |} in
            if validDate date_ then Some date_ else None
        | _, _, _ => None
        end
      else None
  | _ => None
  end.

Definition SAFETY_YEAR_LIMIT : Date := {| year := 2030; month := 1; day := 1 |}.

(** *** Reading the ledger *)

Record DailyStat := { totalUsd : float; totalCngn : float }.

Record VwapRecord := {
  date : string;
  vwap : float;
  volumeCngn : float;
  volumeUsd : float
}.

Definition parseDate (dateStr : string) : string :=
  if JS.truthy dateStr then hd EmptyString (JS.split " " dateStr)
  else EmptyString.

(** The character loop of [splitCsvLine]. *)
Fixpoint splitCsvLoop (line current : string) (inQuotes : bool)
  : list string :=
  match line with
  | EmptyString => [current]
  | String char rest =>
      if Ascii.eqb char QUOTE then
        match rest with
        | String next rest' =>
            if inQuotes && Ascii.eqb next QUOTE
            then splitCsvLoop rest' (current +:+ String QUOTE EmptyString)
                              inQuotes
            else splitCsvLoop rest current (negb inQuotes)
        | EmptyString => splitCsvLoop rest current (negb inQuotes)
        end
      else if Ascii.eqb char COMMA && negb inQuotes
      then current :: splitCsvLoop rest EmptyString inQuotes
      else splitCsvLoop rest (current +:+ String char EmptyString) inQuotes
  end.

Definition splitCsvLine (line : string) : list string :=
  splitCsvLoop line EmptyString false.

Set Warnings "-inexact-float".
Definition DUST : float := 0.000001%float.
Set Warnings "inexact-float".

(** [parts[i]]. *)
Definition part (parts : list string) (i : nat) : string :=
  nth i parts EmptyString.

Definition isSwapRouter (parts : list string) : bool :=
  String.eqb (part parts 6) "SwapRouter".

Definition isStablecoinTrade (parts : list string) : bool :=
  String.eqb (part parts 9) "USDT" || String.eqb (part parts 9) "USDC" ||
  String.eqb (part parts 12) "USDT" || String.eqb (part parts 12) "USDC".

Definition isPoolMatch (parts : list string) : bool :=
  JS.truthy (part parts 17) &&
  (JS.includes (part parts 17) "USDT" || JS.includes (part parts 17) "USDC").

(** The filter of a ledger line (calculate_vwap.ts 107-138): the date
    key and the two amounts of a row that counts. *)
Definition tradeOf (parts : list string) : option (string * float * float) :=
  if isSwapRouter parts && (isStablecoinTrade parts || isPoolMatch parts)
  then
    let dateKey := parseDate (part parts 2) in
    let cngnAmount := JS.parseFloat (part parts 14) in
    let usdValue := JS.parseFloat (part parts 15) in
    if PrimFloat.is_nan cngnAmount || PrimFloat.is_nan usdValue then None
    else if PrimFloat.leb cngnAmount DUST || PrimFloat.leb usdValue DUST
    then None
    else Some (dateKey, cngnAmount, usdValue)
  else None.

(** The variables the line handler updates. *)
Record Reading := {
  isFirstLine : bool;
  dailyStats : gmap string DailyStat;
  minDate : string;
  maxDate : string
}.

Definition startReading : Reading :=
  {| isFirstLine := true; dailyStats := ∅;
     minDate := EmptyString; maxDate := EmptyString |}.

(** The accumulation of a row that counts (calculate_vwap.ts 140-150). *)
Definition addTrade (st : Reading) (trade : string * float * float)
  : Reading :=
  let '(dateKey, cngnAmount, usdValue) := trade in
  let stat := default {| totalUsd := PrimFloat.zero;
                         totalCngn := PrimFloat.zero |}
                      (dailyStats st !! dateKey) in
  {| isFirstLine := isFirstLine st;
     dailyStats :=
       <[dateKey := {| totalUsd := (totalUsd stat + usdValue)%float;
                       totalCngn := (totalCngn stat + cngnAmount)%float |}]>
         (dailyStats st);
     minDate :=
       if String.eqb (minDate st) EmptyString ||
          String.ltb dateKey (minDate st)
       then dateKey else minDate st;
     maxDate :=
       if String.eqb (maxDate st) EmptyString ||
          String.ltb (maxDate st) dateKey
       then dateKey else maxDate st |}.

(** The handler of the [line] event (calculate_vwap.ts 95-152). *)
Definition onLine (st : Reading) (line : string) : Reading :=
  if isFirstLine st then
    {| isFirstLine := false; dailyStats := dailyStats st;
       minDate := minDate st; maxDate := maxDate st |}
  else if negb (JS.truthy line) || String.eqb (JS.trim line) EmptyString
  then st
  else
    let parts := splitCsvLine line in
    if (length parts <? 18)%nat then st
    else match tradeOf parts with
         | Some trade => addTrade st trade
         | None => st
         end.

(** *** The series *)

(** The record of one day and the price to carry on
    (calculate_vwap.ts 178-204). *)
Definition dayRecord (stats : gmap string DailyStat) (currentDate : Date)
    (lastKnownVwap : float) : VwapRecord * float :=
  let dateKey := toISODate currentDate in
  let carried := ({| date := dateKey; vwap := lastKnownVwap;
                     volumeCngn := PrimFloat.zero;
                     volumeUsd := PrimFloat.zero |}, lastKnownVwap) in
  match stats !! dateKey with
  | Some stat =>
      if PrimFloat.ltb PrimFloat.zero (totalCngn stat) then
        let dailyVwap := (totalUsd stat / totalCngn stat)%float in
        ({| date := dateKey; vwap := dailyVwap;
            volumeCngn := totalCngn stat;
            volumeUsd := totalUsd stat |}, dailyVwap)
      else carried
  | None => carried
  end.

(** The loop over the days (calculate_vwap.ts 177-207); [None] when the
    fuel does not reach its end. *)
Fixpoint walk (fuel : nat) (stats : gmap string DailyStat)
    (currentDate endDate : Date) (lastKnownVwap : float)
  : option (list VwapRecord) :=
  if Date_leb currentDate endDate && Date_ltb currentDate SAFETY_YEAR_LIMIT
  then
    match fuel with
    | O => None
    | S fuel' =>
        let '(record, last) := dayRecord stats currentDate lastKnownVwap in
        match walk fuel' stats (nextDay currentDate) endDate last with
        | Some records => Some (record :: records)
        | None => None
        end
    end
  else Some [].

(** A count that grows with the calendar, by one at least per day. *)
Definition dayCount (d : Date) : Z := year d * 372 + month d * 31 + day d.

Definition walkFuel (currentDate : Date) : nat :=
  Z.to_nat (dayCount SAFETY_YEAR_LIMIT - dayCount currentDate).

(** What [calculateVWAP] computes from the lines that [readline] hands
    over, for a ledger file that is there (without it the program exits
    before reading): nothing is written when no row counts, else the
    records of the series; their rendering with [toFixed] is not
    modelled. *)
Inductive Outcome :=
| NoTrades
| Results (records : list VwapRecord)
| OutOfFuel.

Definition readAll (lines : list string) : Reading :=
  fold_left onLine lines startReading.

Definition series (r : Reading) : Outcome :=
  if String.eqb (minDate r) EmptyString then NoTrades
  else
    match newDate (minDate r), newDate (maxDate r) with
    | Some currentDate, Some endDate =>
        match walk (walkFuel currentDate) (dailyStats r) currentDate endDate
                   PrimFloat.zero with
        | Some records => Results records
        | None => OutOfFuel
        end
    | _, _ => Results []
    end.

Definition calculateVWAP (lines : list string) : Outcome :=
  series (readAll lines).

(** *** Notions used in the statements *)

(** The trade-qualification predicate, in the words of the
    specification: routed through the swap router, a stablecoin as token
    in or out or named by the pool, and both amounts above the dust
    threshold. *)
Definition routedThroughRouter (parts : list string) : Prop :=
  part parts 6 = "SwapRouter".












(** [n] successive days from [d]. *)
Fixpoint daysFrom (n : nat) (d : Date) : list Date :=
  match n with
  | O => []
  | S n' => d :: daysFrom n' (nextDay d)
  end.

End Vwap.

(** ** The text of a value in a ledger line *)

(** What [escapeCsv] writes for a value, before any quoting: nothing for
    [null], else [String(value)]. *)
Definition fieldText (v : JSValue) : string :=
  match v with
  | VNull => EmptyString
  | _ => toString v
  end.

(** A value whose text has no line end. *)
Definition oneLine (v : JSValue) : bool :=
  negb (hasChar LF (fieldText v)) && negb (hasChar CR (fieldText v)).

(** ** The rows the VWAP reading counts *)

Module VwapRows.

(** What the handler of a line after the first keeps of it
    (calculate_vwap.ts 101-138). *)
Definition lineTrade (line : string) : option (string * float * float) :=
  if negb (JS.truthy line) || String.eqb (JS.trim line) EmptyString
  then None
  else
    let parts := Vwap.splitCsvLine line in
    if (length parts <? 18)%nat then None else Vwap.tradeOf parts.

Definition trades (lines : list string) : list (string * float * float) :=
  omap lineTrade lines.

Definition dateOf (trade : string * float * float) : string :=
  fst (fst trade).

Definition cngnOf (trade : string * float * float) : float :=
  snd (fst trade).

Definition usdOf (trade : string * float * float) : float := snd trade.

(** The sum, from 0 and in the order of the list, of one amount of the
    trades of a date. *)
Definition sumFor (dateKey : string)
    (amount : string * float * float -> float)
    (ts : list (string * float * float)) : float :=
  fold_left (fun acc t => if String.eqb (dateOf t) dateKey
                          then (acc + amount t)%float else acc)
            ts PrimFloat.zero.

(** The reading after the first line. *)
Definition afterHeader : Vwap.Reading :=
  {| Vwap.isFirstLine := false; Vwap.dailyStats := ∅;
     Vwap.minDate := EmptyString; Vwap.maxDate := EmptyString |}.

End VwapRows.

(** ** The extraction of the trades ([extractTrades], the script in
    [src/unnamed/part_000]) *)

Module Extract.

Definition TARGET_ADDRESS : string :=
  "0xec2b2209d710d4283b5d1e29441df0dbb9cee5c3".

Definition TARGET_NAME : string := "SwapRouter".

(** [headers.forEach((h, i) => row[h] = parts[i] || '')], from the
    index [i] on. *)
Fixpoint rowOf (headers parts : list string) (i : nat)
    (row : gmap string string) : gmap string string :=
  match headers with
  | [] => row
  | h :: hs => rowOf hs parts (S i) (<[h := nth i parts EmptyString]> row)
  end.

(** [row[key] || '']. *)
Definition property (row : gmap string string) (key : string) : string :=
  default EmptyString (row !! key).

(** The filter criteria (part_000 53-57). *)
Definition matches (headers : list string) (line : string) : bool :=
  let row := rowOf headers (Vwap.splitCsvLine line) 0 ∅ in
  let addressParams :=
    JS.toLowerCase (property row "interacted_contract_address") in
  let nameParams := property row "interacted_contract_name" in
  String.eqb addressParams TARGET_ADDRESS && String.eqb nameParams TARGET_NAME.

(** The variables of the script and the text written so far.  The
    script splits a line with the loop that [Vwap.splitCsvLine] has
    too. *)
Record State := {
  headers : list string;
  output : string;
  count : Z
}.

Definition start : State :=
  {| headers := []; output := EmptyString; count := 0 |}.

Definition onLine (st : State) (line : string) : State :=
  match headers st with
  | [] =>
      {| headers := Vwap.splitCsvLine line;
         output := output st +:+ (line +:+ String LF EmptyString);
         count := count st |}
  | hs =>
      if matches hs line
      then {| headers := hs;
              output := output st +:+ (line +:+ String LF EmptyString);
              count := count st + 1 |}
      else st
  end.

Definition extractTrades (lines : list string) : State :=
  fold_left onLine lines start.

(** The text of lines written one after the other. *)
Fixpoint written (lines : list string) : string :=
  match lines with
  | [] => EmptyString
  | l :: ls => l +:+ String LF (written ls)
  end.

End Extract.

(** ** The list endpoint and the detail endpoint ([src/api.ts]) *)

Module Api.

(** The query of a request: names and values. *)
Definition Params : Type := gmap string JSValue.

(** What the catch clause reads of an error: [error.code] and
    [error.response.status]. *)
Record AxiosError := {
  code : option string;
  response_status : option Z
}.

(** [response.data] of the list endpoint. *)
Record ListData := {
  data_items : option (list ListItem);
  data_next_page_params : option Params
}.

(** What a request comes to: a response, whose data may be missing, or
    an error. *)
Inductive Reply :=
| Answered (data : option ListData)
| Failed (error : AxiosError).

Record TokenTransferListResponse := {
  list_items : list ListItem;
  list_next_page_params : option Params
}.

Definition noItems : TokenTransferListResponse :=
  {| list_items := []; list_next_page_params := None |}.

(** The query (api.ts 65-71): [Object.assign] lets the cursor override
    [items_count]. *)
Definition requestParams (limit : float) (nextPageParams : option Params)
  : Params :=
  let params : Params := {[ "items_count"%string := VNum limit ]} in
  match nextPageParams with
  | Some cursor => cursor ∪ params
  | None => params
  end.

(** The errors after which the request is made again. *)
Definition retryable (error : AxiosError) : bool :=
  match code error with
  | Some c => String.eqb c "ECONNABORTED"
  | None => false
  end ||
  match response_status error with
  | Some status => status =? 429
  | None => false
  end.

(** The loop of [fetchTokenTransfersList] (api.ts 58-96): the result and
    the delays slept, in order.  [upstream k] is what the [k]-th request
    comes to. *)
Fixpoint fetchLoop (upstream : nat -> Params -> Reply) (params : Params)
    (retries : nat) (delay : float) (k : nat)
  : TokenTransferListResponse * list float :=
  match retries with
  | O => (noItems, [])
  | S retries' =>
      match upstream k params with
      | Answered (Some data) =>
          ({| list_items := default [] (data_items data);
              list_next_page_params := data_next_page_params data |}, [])
      | Answered None => (noItems, [])
      | Failed error =>
          if retryable error then
            let '(r, sleeps) :=
              fetchLoop upstream params retries' (delay * 2)%float (S k) in
            (r, delay :: sleeps)
          else (noItems, [])
      end
  end.

Definition fetchTokenTransfersList (upstream : nat -> Params -> Reply)
    (limit : float) (nextPageParams : option Params)
  : TokenTransferListResponse * list float :=
  fetchLoop upstream (requestParams limit nextPageParams) 15 2000 0.

(** The delays of the loop: 2000 ms, doubled after each. *)
Fixpoint backoff (n : nat) (delay : float) : list float :=
  match n with
  | O => []
  | S n' => delay :: backoff n' (delay * 2)%float
  end.

(** What ends the loop at the [k]-th request, with the result then: a
    response, a response without data, or an error that is not tried
    again. *)
Definition settledAt (upstream : nat -> Params -> Reply) (params : Params)
    (k : nat) (result : TokenTransferListResponse) : Prop :=
  (exists data,
     upstream k params = Answered (Some data) /\
     result = {| list_items := default [] (data_items data);
                 list_next_page_params := data_next_page_params data |}) \/
  (upstream k params = Answered None /\ result = noItems) \/
  (exists error,
     upstream k params = Failed error /\
     retryable error = false /\ result = noItems).

(** The [k]-th request failed with a timeout or with status 429. *)
Definition retriedAt (upstream : nat -> Params -> Reply) (params : Params)
    (k : nat) : Prop :=
  exists error, upstream k params = Failed error /\ retryable error = true.

(** [fetchTransactionDetailsV2] (api.ts 38-48): the data of the
    response, [null] when the request fails. *)
Definition fetchTransactionDetailsV2 (reply : Exc (option TxDetails))
  : option TxDetails :=
  match reply with
  | Return data => data
  | Throw _ => None
  end.

End Api.

(** ** The file of the VWAP series (calculate_vwap.ts 209-215) *)

Module VwapOut.

(** The digits of [n / 10^f]: those of [n], filled with zeros to [f + 1]
    at least, with a point before the last [f]. *)
Definition fixedDigits (n : Z) (f : nat) : string :=
  let m := JS.BigInt_toString n in
  match f with
  | O => m
  | _ =>
      let k := String.length m in
      let m := if (k <=? f)%nat then zeros (f + 1 - k) +:+ m else m in
      let k := String.length m in
      String.substring 0 (k - f) m +:+ "." +:+ String.substring (k - f) f m
  end.

(** [x.toFixed(f)] for [f] from 0 to 100: a number that is not finite is
    printed as [String(x)]; else the sign, and for a magnitude below
    [10^21] the integer [n] nearest to it times [10^f], the larger of two,
    printed with [f] decimals. *)
Definition toFixed (x : float) (f : nat) : string :=
  match Prim2SF x with
  | S754_nan => JS.NumberToString x
  | S754_infinity _ => JS.NumberToString x
  | S754_zero _ => fixedDigits 0 f
  | S754_finite sgn m e =>
      let '(num, den) :=
        if 0 <=? e then (Zpos m * 2 ^ e, 1) else (Zpos m, 2 ^ (- e)) in
      (if sgn then "-" else EmptyString) +:+
      (if 10 ^ 21 * den <=? num then JS.NumberToString (PrimFloat.abs x)
       else fixedDigits ((2 * num * 10 ^ Z.of_nat f + den) / (2 * den)) f)
  end.

Definition headerLine : string := "date,vwap_price_usd,volume_cngn,volume_usd".

Definition csvHeader : string := headerLine +:+ String LF EmptyString.

(** The line of one record. *)
Definition rowLine (r : Vwap.VwapRecord) : string :=
  Vwap.date r +:+ "," +:+ toFixed (Vwap.vwap r) 8 +:+ "," +:+
  toFixed (Vwap.volumeCngn r) 6 +:+ "," +:+ toFixed (Vwap.volumeUsd r) 6.

(** The content [writeFileSync] is given. *)
Definition fileText (records : list Vwap.VwapRecord) : string :=
  csvHeader +:+ JS.join (String LF EmptyString) (map rowLine records).

(** The file written at the end, if one is. *)
Definition written (o : Vwap.Outcome) : option string :=
  match o with
  | Vwap.Results records => Some (fileText records)
  | _ => None
  end.

(** A character that is no comma, quote or line end, and a text of such
    characters. *)
Definition safeChar (c : ascii) : bool :=
  negb (Ascii.eqb c COMMA) && negb (Ascii.eqb c QUOTE) &&
  negb (Ascii.eqb c LF) && negb (Ascii.eqb c CR).

Definition safe (s : string) : Prop :=
  forall c, In c (list_ascii_of_string s) -> safeChar c = true.

End VwapOut.

(** ** Notions used in the statements on the rows *)

(** The sum, from [start] and in the order of the transfers, of the
    decoded amounts [vals] of those that move cNGN. *)
Definition cngnTotal (items : list Transfer) (vals : list float)
    (start : float) : float :=
  fold_left (fun acc p => if isCngn (fst p) then (acc + snd p)%float else acc)
            (combine items vals) start.

(** The symbol of the last transfer of another token than cNGN, empty
    when there is none. *)
Definition otherSymbol (items : list Transfer) : string :=
  List.last (map (fun i => symbol (token i))
            (List.filter (fun i => negb (isCngn i)) items)) EmptyString.

(** ** Invariants of a run *)

(** The batch being collected: its hashes are distinct and new with
    respect to the set [S0], and all of them are in the growing set
    [seen]; [P] is a property of every hash the upstream lists. *)
Definition batchInv (P : string -> Prop) (S0 seen : gset string)
    (batch : list string) : Prop :=
  NoDup batch /\ (S0 ⊆ seen) /\
  (forall h, In h batch -> (h ∈ seen) /\ (h ∉ S0) /\ P h).

(** A state of a run that began with the index [S0] and the ledger
    content [L0]; [Q] is what [processSingleTransaction] promises of the
    rows it returns for a hash. *)
Definition runInv {Row : Type} (rowValues : Row -> list JSValue)
    (Q : string -> list Row -> Prop) (P : string -> Prop)
    (S0 : gset string) (L0 : string) (st : @State Row) : Prop :=
  (S0 ⊆ seenHashes st) /\
  NoDup (map fst (trace st)) /\
  (forall h, In h (map fst (trace st)) ->
     (h ∈ seenHashes st) /\ (h ∉ S0) /\ P h) /\
  ledger st = L0 +:+ rendered (map rowValues (validResults (trace st))) /\
  (forall h, In h (listedHashes (listing st)) -> P h) /\
  (forall h rows, In (h, Some rows) (trace st) -> Q h rows).

(** ** Concrete transactions, used as examples *)

Module Sample.

Definition party (h : string) : Party :=
  {| hash := h; name := None; is_contract := false |}.

Definition transfer (src dst tokenAddress sym raw : string) : Transfer :=
  {| from := party src; to := party dst;
     token := {| address := tokenAddress; symbol := sym;
                 decimals := Some "6"; exchange_rate := None |};
     total := Some {| value := Some raw; total_decimals := None |} |}.

Definition cngnAddress : string :=
  "0x7923C0f6FA3d1BA6EAFCAedAaD93e737Fd22FC4F".

(** One cNGN going from a trader to a counterparty. *)
Definition cngnOut : Transfer :=
  transfer "0xa1" "0xb2" cngnAddress "cNGN" "1000000".

(** A second cNGN movement of the same transaction. *)
Definition cngnHop : Transfer :=
  transfer "0xb2" "0xc3" cngnAddress "cNGN" "2000000".

(** Five USDC coming back to the trader. *)
Definition usdcIn : Transfer :=
  transfer "0xb2" "0xa1" "0xdd" "USDC" "5000000".

(** A USDT movement whose amount is not an integer literal. *)
Definition usdtBroken : Transfer :=
  transfer "0xb2" "0xa1" "0xee" "USDT" "5.0".

Definition details (items : list Transfer) : TxDetails :=
  {| timestamp := "2025-08-05T10:04:33.000000Z";
     block_number := 1200%float;
     status := "ok";
     method := Some "swap";
     tx_from := party "0xa1";
     tx_to := Some {| hash := "0xec2b2209d710d4283b5d1e29441df0dbb9cee5c3";
                      name := None; is_contract := true |};
     gas_used := Some "21000";
     gas_price := Some "7";
     fee_value := Some "147000";
     token_transfers := TransfersArray items |}.

(** A ledger row of variant A for the hash [h]. *)
Definition rowA (h : string) : VariantA.Row :=
  {| VariantA.transaction_hash := h;
     VariantA.row_block_number := 1200%float;
     VariantA.row_timestamp := "2025-08-05 10:04";
     VariantA.row_status := "ok";
     VariantA.trader_address := "0xa1";
     VariantA.interacted_contract_address :=
       "0xec2b2209d710d4283b5d1e29441df0dbb9cee5c3";
     VariantA.interacted_contract_name := "SwapRouter";
     VariantA.transaction_method := "swap";
     VariantA.token_in_address := cngnAddress;
     VariantA.token_in_symbol := "cNGN";
     VariantA.token_in_amount := 1%float;
     VariantA.token_out_address := "0xdd";
     VariantA.token_out_symbol := "USDC";
     VariantA.token_out_amount := 5%float;
     VariantA.cngn_amount := 1%float;
     VariantA.usd_value := 5%float;
     VariantA.pool_address := EmptyString;
     VariantA.pool_name := EmptyString;
     VariantA.transaction_fee_native := "147000";
     VariantA.row_gas_used := Some "21000";
     VariantA.row_gas_price := Some "7" |}.

(** The list endpoint names one hash on one page, the last one. *)
Definition onePage (h : string) : list ListResponse :=
  [{| items := [{| item_transaction_hash := Some h |}];
      next_page_params := None |}].

(** Variant A meets a swap of cNGN against USDC under the hash [h]. *)
Definition worldA (h : string) : World (option TxDetails) :=
  {| answers := onePage h;
     explorer := fun _ _ => Some (details [cngnOut; usdcIn]);
     jitter := fun _ _ => 0.5%float |}.

(** Variant B meets a transaction with two cNGN movements. *)
Definition worldB (h : string)
  : World (option TxDetails * Exc (option VariantB.TransfersResponse)) :=
  {| answers := onePage h;
     explorer := fun _ _ =>
       (Some (details []),
        Return (Some {| VariantB.response_items :=
                          Some [cngnOut; cngnHop] |}));
     jitter := fun _ _ => 0.5%float |}.

(** Lines of a ledger for the VWAP series: a header, a swap against
    USDT, a swap in a USDC pool two days later, a row of another
    contract, and a swap on the day of the safety limit. *)
Definition header : string := "transaction_hash,block_number,timestamp".

Definition swapUsdt : string :=
  "0xaa,1,2025-08-05 10:11,ok,0xt,0xc,SwapRouter,x,y,cNGN,a,b,USDT,c,1500.5,1.0,z,p".

Definition swapUsdcPool : string :=
  "0xab,2,2025-08-07 09:30,ok,0xt,0xc,SwapRouter,x,y,cNGN,a,b,WETH,c,3000,2.5,z,cNGN/USDC".

Definition otherContract : string :=
  "0xac,3,2025-08-07 09:31,ok,0xt,0xc,Other,x,y,cNGN,a,b,USDT,c,3000,2.5,z,cNGN/USDC".


Definition ledgerLines : list string :=
  [header; swapUsdt; swapUsdcPool; otherContract].

Definition emptyRecord : Vwap.VwapRecord :=
  {| Vwap.date := EmptyString; Vwap.vwap := PrimFloat.zero;
     Vwap.volumeCngn := PrimFloat.zero; Vwap.volumeUsd := PrimFloat.zero |}.

(** The series of [ledgerLines] and its day without trades. *)
Definition vwapSeries : list Vwap.VwapRecord :=
  match Vwap.calculateVWAP ledgerLines with
  | Vwap.Results records => records
  | _ => []
  end.

Definition gapDay : Vwap.VwapRecord := nth 1 vwapSeries emptyRecord.

End Sample.

(** ** Further examples *)

Module Cases.

Definition quotedText : string :=
  "say " +:+ String QUOTE ("hi" +:+ String QUOTE EmptyString).

(** Values with a comma, a quote and a missing value among them. *)
Definition trickyValues : list JSValue :=
  [VStr "0xab"; VStr "a,b"; VNull; VStr quotedText; VNum 1.5%float].

Definition plainLine : string := "0xab,12,2025-08-05 10:04,ok".

Definition twoRecords : list (list JSValue) :=
  [trickyValues; [VStr "0xcd"; VNum 2%float]].

(** A ledger of variant A with a swap through the router, a transfer to
    another contract, and a swap through the router again. *)
Definition routerRow (h : string) : string :=
  h +:+ ",1,2025-08-05 10:11,ok,0xt,0xEC2B2209d710d4283b5d1e29441df0dbb9cee5c3,SwapRouter,swap,a,cNGN,1,b,USDT,2,1500.5,1.0,0xp,pool,0,1,1".

Definition tokenRow (h : string) : string :=
  h +:+ ",1,2025-08-05 10:12,ok,0xt,0x7923c0f6fa3d1ba6eafcaedaad93e737fd22fc4f,cNGN Token,transfer,a,cNGN,1,,,0,1500.5,1.0,,,0,1,1".

Definition fullLedger : list string :=
  [JS.join "," VariantA.CSV_HEADERS; routerRow "0x01"; tokenRow "0x02";
   routerRow "0x03"].

(** A list endpoint that times out, answers 429 and then answers with a
    page; one that always answers 429; a cursor with its own item
    count. *)
Definition timeout : Api.Reply :=
  Api.Failed {| Api.code := Some "ECONNABORTED";
                Api.response_status := None |}.

Definition tooMany : Api.Reply :=
  Api.Failed {| Api.code := Some "ERR_BAD_REQUEST";
                Api.response_status := Some 429 |}.

Definition page : Api.ListData :=
  {| Api.data_items := Some [{| item_transaction_hash := Some "0x01" |}];
     Api.data_next_page_params := None |}.

Definition flaky (k : nat) (params : Api.Params) : Api.Reply :=
  match k with
  | O => timeout
  | S O => tooMany
  | _ => Api.Answered (Some page)
  end.

Definition cursor : Api.Params :=
  {[ "items_count"%string := VNum 50%float;
     "index"%string := VNum 7%float ]}.

(** The row variant A writes for a swap sent to the router. *)
Definition swapRow : VariantA.Row :=
  match VariantA.processSingleTransaction "0x01"
          (Some (Sample.details [Sample.cngnOut; Sample.usdcIn])) with
  | Return [row] => row
  | _ => Sample.rowA "0x01"
  end.

(** The rows variant B writes for a transaction with two cNGN transfers
    and a USDC transfer between them. *)
Definition mixedItems : list Transfer :=
  [Sample.cngnOut; Sample.usdcIn; Sample.cngnHop].

Definition rowsB : list VariantB.Row :=
  match VariantB.processSingleTransaction "0xh1" (Some (Sample.details []))
          (Some {| VariantB.response_items := Some mixedItems |}) with
  | Return rows => rows
  | Throw _ => []
  end.

(** A block time as the explorer gives it. *)
Definition blockTime : string := "2025-08-05T10:04:31.000000Z".

End Cases.

(** * Properties *)

(** ** Strings *)

Section StringFacts.

Implicit Types s t u : string.

Lemma app_empty_l s : EmptyString +:+ s = s.
Proof. reflexivity. Qed.

Lemma app_cons c s t : String c s +:+ t = String c (s +:+ t).
Proof. reflexivity. Qed.

Lemma app_empty_r s : s +:+ EmptyString = s.
Proof. induction s as [|c s IH]; [reflexivity|]. now rewrite app_cons, IH. Qed.

Lemma app_assoc_s s t u : (s +:+ t) +:+ u = s +:+ (t +:+ u).
Proof.
  induction s as [|c s IH]; [reflexivity|]. now rewrite !app_cons, IH.
Qed.

Lemma length_app s t :
  String.length (s +:+ t) = (String.length s + String.length t)%nat.
Proof.
  induction s as [|c s IH]; [reflexivity|].
  rewrite app_cons. simpl. now rewrite IH.
Qed.


Lemma length_zeros k : String.length (zeros k) = k.
Proof. induction k as [|k IH]; simpl; congruence. Qed.

Lemma zeros_snoc k s : zeros k +:+ String "0" s = String "0" (zeros k +:+ s).
Proof.
  induction k as [|k IH]; [reflexivity|].
  simpl zeros. now rewrite !app_cons, IH.
Qed.

Lemma zeros_plus j k : zeros (j + k) = zeros j +:+ zeros k.
Proof. induction j as [|j IH]; [reflexivity|]. simpl. now rewrite app_cons, IH. Qed.









(** [split] on strings without the separator, and around one. *)
Lemma split_cons_ne sep c s :
  Ascii.eqb c sep = false ->
  JS.split sep (String c s) =
    match JS.split sep s with
    | f :: fs => String c f :: fs
    | [] => [String c EmptyString]
    end.
Proof. intros H. simpl. now rewrite H. Qed.


Lemma split_app_sep sep s t :
  (forall c, In c (list_ascii_of_string s) -> Ascii.eqb c sep = false) ->
  JS.split sep (s +:+ String sep t) = s :: JS.split sep t.
Proof.
  induction s as [|c s IH]; intros H.
  - rewrite app_empty_l. simpl. now rewrite Ascii.eqb_refl.
  - rewrite app_cons. rewrite split_cons_ne by (apply H; now left).
    rewrite IH by (intros x Hx; apply H; now right). reflexivity.
Qed.

Lemma split_nonempty sep s : JS.split sep s <> [].
Proof.
  induction s as [|c s IH]; [discriminate|].
  simpl. destruct (Ascii.eqb c sep); [discriminate|].
  destruct (JS.split sep s); discriminate.
Qed.

Lemma in_chars_app c s t :
  In c (list_ascii_of_string (s +:+ t)) <->
  In c (list_ascii_of_string s) \/ In c (list_ascii_of_string t).
Proof.
  induction s as [|x s IH].
  - rewrite app_empty_l. simpl. tauto.
  - rewrite app_cons. simpl. rewrite IH. tauto.
Qed.

End StringFacts.

(** ** Decimal digits *)












(** ** [BigInt] and its [toString] on digit strings *)





(** ** The amount decoder *)

Lemma padLoop_zeros (fuel : nat) :
  forall (d : Z) (s : string),
  fuel = Z.to_nat (d + 1 - Z.of_nat (String.length s)) ->
  VariantB.padLoop fuel (Some d) s = zeros fuel +:+ s.
Proof.
  induction fuel as [|f IH]; intros d s Hf; [reflexivity|].
  simpl VariantB.padLoop. unfold lengthLe.
  destruct (Z.of_nat (String.length s) <=? d) eqn:E; [|lia].
  rewrite (IH d) by (simpl String.length; lia).
  now rewrite zeros_snoc.
Qed.

(** The loop ends because its condition fails, not for lack of fuel. *)
Lemma padLoop_exit (decimals : option Z) (s : string) :
  lengthLe (VariantB.padLoop (VariantB.padFuel decimals s) decimals s) decimals
  = false.
Proof.
  destruct decimals as [d|]; [|reflexivity].
  unfold VariantB.padFuel. rewrite (padLoop_zeros _ d s eq_refl).
  unfold lengthLe. rewrite length_app, length_zeros. apply Z.leb_gt. lia.
Qed.









Set Warnings "-inexact-float".
(** The two amounts the specification names. *)
Example decode_1500000 : VariantB.decode "1500000" "6" = Return 1.5%float.
Proof. vm_compute. reflexivity. Qed.

Example decode_7 : VariantB.decode "7" "6" = Return 0.000007%float.
Proof. vm_compute. reflexivity. Qed.

Example decodeA_7 : VariantA.decode "7" "6" = Return 0.000007%float.
Proof. vm_compute. reflexivity. Qed.
Set Warnings "inexact-float".




Example decode_non_numeric :
  VariantB.decode "12,5" "6" = Throw "Cannot convert 12,5 to a BigInt" /\
  VariantB.decode "abc" "6" = Throw "Cannot convert abc to a BigInt".
Proof. vm_compute. split; reflexivity. Qed.

(** ** The USD valuation *)

Lemma find_first {A : Type} (p : A -> bool) (pre post : list A) (u : A) :
  Forall (fun i => p i = false) pre -> p u = true ->
  List.find p (pre ++ u :: post) = Some u.
Proof.
  intros Hpre Hu. induction Hpre as [|x pre Hx _ IH]; simpl.
  - now rewrite Hu.
  - now rewrite Hx.
Qed.

Lemma find_none {A : Type} (p : A -> bool) (l : list A) :
  Forall (fun i => p i = false) l -> List.find p l = None.
Proof.
  intros H. induction H as [|x l Hx _ IH]; simpl; [reflexivity|].
  now rewrite Hx.
Qed.

Lemma not_symbol (sym : string) (l : list Transfer) :
  Forall (fun i => symbol (token i) <> sym) l ->
  Forall (fun i => String.eqb (symbol (token i)) sym = false) l.
Proof.
  intros H. induction H as [|i l Hi _ IH]; constructor; [|exact IH].
  now apply String.eqb_neq.
Qed.

Lemma foldExc_app {A S : Type} (f : S -> A -> Exc S) (l1 l2 : list A) (s : S) :
  foldExc f (l1 ++ l2) s = bindExc (foldExc f l1 s) (foldExc f l2).
Proof.
  revert s. induction l1 as [|x l1 IH]; intros s; [reflexivity|].
  simpl. destruct (f s x) as [s'|msg]; [apply IH|reflexivity].
Qed.

(** Transfers that are not stablecoins leave the USD variable of
    variant A alone. *)
Lemma scan_keeps_usd (trader : string) (l : list Transfer) :
  Forall (fun i => VariantA.isStable i = false) l ->
  forall st st', foldExc (VariantA.scanStep trader) l st = Return st' ->
  VariantA.usdValue st' = VariantA.usdValue st.
Proof.
  induction 1 as [|x l Hx _ IH]; intros st st' H; simpl in H.
  - now injection H as <-.
  - unfold VariantA.scanStep at 1 in H.
    destruct (VariantA.amountOf x) as [val|msg]; [|discriminate].
    cbn [bindExc] in H. apply IH in H. rewrite H. cbn. now rewrite Hx.
Qed.

(** C1, as the code has it.  Variant B: the first transfer with symbol
    USDT, when it carries a raw amount, gives the USD value, which is its
    decoded amount; otherwise the value is the cNGN amount times the
    exchange rate attached to the cNGN token, or times the constant
    0.000657 when there is none; USDC plays no part; a value is always
    returned unless the USDT amount is not an integer literal.  Variant
    A: the value is the decoded amount of the last USDT or USDC
    transfer, and the cNGN total times the constant when that is zero
    (or there is no such transfer) and the total is positive; there is
    no exchange-rate tier. *)
Theorem usd_value_tiers :
  (forall pre u post cngnItem cngnVal t v,
     Forall (fun i => symbol (token i) <> "USDT") pre ->
     symbol (token u) = "USDT" ->
     total u = Some t -> value t = Some v -> v <> EmptyString ->
     VariantB.usdValue (pre ++ u :: post) cngnItem cngnVal =
       VariantB.decode v
         (JS.orElse (total_decimals t)
                    (JS.orElse (decimals (token u)) "6"))) /\
  (forall items cngnItem cngnVal,
     Forall (fun i => symbol (token i) <> "USDT") items \/
     (exists pre u post, items = pre ++ u :: post /\
        Forall (fun i => symbol (token i) <> "USDT") pre /\
        symbol (token u) = "USDT" /\ rawAmount u = None) ->
     VariantB.usdValue items cngnItem cngnVal =
       Return (JS.numOrZero cngnVal * VariantB.fallbackRate cngnItem)%float) /\
  (forall cngnItem r,
     exchange_rate (token cngnItem) = Some r -> r <> EmptyString ->
     VariantB.fallbackRate cngnItem = JS.parseFloat r) /\
  (forall cngnItem,
     exchange_rate (token cngnItem) = None \/
     exchange_rate (token cngnItem) = Some EmptyString ->
     VariantB.fallbackRate cngnItem = CNGN_USD_FALLBACK) /\
  (forall trader items st,
     foldExc (VariantA.scanStep trader) items VariantA.scanStart = Return st ->
     (Forall (fun i => VariantA.isStable i = false) items ->
        VariantA.usdValue st = PrimFloat.zero) /\
     (forall pre u post,
        items = pre ++ u :: post -> VariantA.isStable u = true ->
        Forall (fun i => VariantA.isStable i = false) post ->
        VariantA.amountOf u = Return (VariantA.usdValue st))) /\
  (forall st,
     VariantA.finalUsd st =
       if PrimFloat.eqb (VariantA.usdValue st) PrimFloat.zero &&
          PrimFloat.ltb PrimFloat.zero (VariantA.cngnAmt st)
       then (VariantA.cngnAmt st * CNGN_USD_FALLBACK)%float
       else VariantA.usdValue st).
Proof.
  split; [|split; [|split; [|split; [|split]]]].
  - intros pre u post cngnItem cngnVal t v Hpre Hu Ht Hv Hne.
    unfold VariantB.usdValue.
    rewrite (find_first _ pre post u (not_symbol _ _ Hpre))
      by (now apply String.eqb_eq).
    rewrite Ht, Hv. destruct v as [|c v]; [contradiction|]. cbn [JS.truthy].
    destruct (VariantB.decode _ _); reflexivity.
  - intros items cngnItem cngnVal [Hno | (pre & u & post & -> & Hpre & Hu & Hraw)];
      unfold VariantB.usdValue.
    + now rewrite (find_none _ _ (not_symbol _ _ Hno)).
    + rewrite (find_first _ pre post u (not_symbol _ _ Hpre))
        by (now apply String.eqb_eq).
      unfold rawAmount in Hraw.
      destruct (total u) as [t|]; [|reflexivity].
      destruct (value t) as [v|]; [|reflexivity].
      destruct (JS.truthy v); [discriminate|reflexivity].
  - intros cngnItem r Hr Hne. unfold VariantB.fallbackRate. rewrite Hr.
    destruct r; [contradiction|reflexivity].
  - intros cngnItem [Hr | Hr]; unfold VariantB.fallbackRate; now rewrite Hr.
  - intros trader items st Hscan. split.
    + intros Hno. now rewrite (scan_keeps_usd trader items Hno _ _ Hscan).
    + intros pre u post -> Hu Hpost.
      rewrite foldExc_app in Hscan.
      destruct (foldExc (VariantA.scanStep trader) pre VariantA.scanStart)
        as [st1|msg]; [|discriminate].
      cbn [bindExc foldExc] in Hscan.
      unfold VariantA.scanStep at 1 in Hscan.
      destruct (VariantA.amountOf u) as [val|msg]; [|discriminate].
      cbn [bindExc] in Hscan.
      rewrite (scan_keeps_usd trader post Hpost _ _ Hscan). cbn.
      now rewrite Hu.
  - reflexivity.
Qed.

Lemma usd_value_tiers_witness :
  VariantB.usdValue [Sample.cngnOut; Sample.usdcIn] Sample.cngnOut
                    (Some 1%float) =
  Return (JS.numOrZero (Some 1%float) *
          VariantB.fallbackRate Sample.cngnOut)%float.
Proof.
  apply (proj1 (proj2 usd_value_tiers)). left.
  repeat constructor; discriminate.
Defined.

(** A transaction with a USDC transfer of 5 and no USDT: variant B
    values it at the cNGN amount times the constant, not at 5; and a
    USDT amount that is not an integer literal makes the valuation
    throw. *)
Lemma usd_value_ignores_usdc :
  symbol (token Sample.usdcIn) = "USDC" /\
  VariantB.decode "5000000" "6" = Return 5%float /\
  (exists row,
     VariantB.processSingleTransaction "0xh1" (Some (Sample.details []))
       (Some {| VariantB.response_items :=
                  Some [Sample.cngnOut; Sample.usdcIn] |}) = Return [row] /\
     VariantB.cngn_amount row = Some 1%float /\
     VariantB.usd_value row = Some CNGN_USD_FALLBACK) /\
  PrimFloat.eqb CNGN_USD_FALLBACK 5 = false /\
  VariantB.usdValue [Sample.cngnOut; Sample.usdtBroken] Sample.cngnOut
                    (Some 1%float) = Throw "Cannot convert 5.0 to a BigInt".
Proof.
  split; [reflexivity|]. split; [vm_compute; reflexivity|].
  split; [|split; vm_compute; reflexivity].
  eexists. split; [vm_compute; reflexivity|]. split; reflexivity.
Qed.

(** The same transaction in variant A, where USDC counts. *)
Example usd_value_variantA_usdc :
  exists row,
    VariantA.processSingleTransaction "0xh1"
      (Some (Sample.details [Sample.cngnOut; Sample.usdcIn])) = Return [row] /\
    VariantA.usd_value row = 5%float.
Proof. eexists. split; [vm_compute; reflexivity|reflexivity]. Qed.

(** ** The dedup index rebuilt from the ledger *)

Lemma indexLine_elem (hashes : gset string) (line h : string) :
  h ∈ indexLine hashes line <->
  h ∈ hashes \/
  (h = stripQuotes (firstField line) /\ JS.startsWith h "0x" = true).
Proof.
  unfold indexLine, firstField.
  destruct (JS.split "," line) as [|part0 rest] eqn:E.
  - now destruct (split_nonempty _ _ E).
  - cbn [hd]. destruct part0 as [|c p].
    + cbn [JS.truthy]. split; [tauto|].
      intros [H | [-> H]]; [exact H|]. discriminate H.
    + cbn [JS.truthy].
      destruct (JS.startsWith (stripQuotes (String c p)) "0x") eqn:Es.
      * rewrite elem_of_union, elem_of_singleton. split.
        -- intros [-> | H]; [right; now split | now left].
        -- intros [H | [-> _]]; [now right | now left].
      * split; [tauto|]. intros [H | [-> H]]; [exact H|]. congruence.
Qed.

Lemma index_fold_elem (ls : list string) (hashes : gset string) (h : string) :
  h ∈ fold_left indexLine ls hashes <->
  h ∈ hashes \/
  exists line, In line ls /\ h = stripQuotes (firstField line) /\
               JS.startsWith h "0x" = true.
Proof.
  revert hashes. induction ls as [|l ls IH]; intros hashes; simpl.
  - split; [tauto|]. intros [H | (line & [] & _)]. exact H.
  - rewrite IH, indexLine_elem. split.
    + intros [[H | H] | (line & Hin & H)]; [tauto| |].
      * right. exists l. tauto.
      * right. exists line. tauto.
    + intros [H | (line & [<- | Hin] & H)]; [tauto|tauto|].
      right. exists line. tauto.
Qed.





(** A ledger with a plain, a quoted and an unprefixed first field. *)
Example dedup_index_sample :
  elements (loadExistingHashes (Some (
    "transaction_hash,block_number" +:+ String LF (
    "0xabc,1" +:+ String LF (
    String QUOTE ("0xdef" +:+ String QUOTE (",2" +:+ String LF (
    "abc,3" +:+ String LF EmptyString))))))))
  = ["0xabc"; "0xdef"].
Proof. vm_compute. reflexivity. Qed.

(** ** The retry policy of one item *)

Section Retry.

Context {Row : Type}.
Variable process : string -> nat -> Exc (list Row).
Variable random : string -> nat -> float.


End Retry.


(** Three rate-limit failures in a row: three sleeps, no result. *)
Example retry_exhausted :
  retryLoop (fun _ _ => @Throw (list VariantA.Row)
                          "Request failed with status code 429")
            (fun _ _ => 0.5%float) 3 0 "0xabc" =
  (None, [2500; 2500; 2500]%float).
Proof. vm_compute. reflexivity. Qed.

(** A failure that is neither: no sleep, no second call. *)
Example retry_terminal :
  retryLoop (fun _ k => match k with
                        | O => @Throw (list VariantA.Row) "Network Error"
                        | _ => Return []
                        end)
            (fun _ _ => 0.5%float) 3 0 "0xabc" = (None, []).
Proof. vm_compute. reflexivity. Qed.

(** ** The text of the ledger and its lines *)

Lemma rendered_app (a b : list (list JSValue)) :
  rendered (a ++ b) = rendered a +:+ rendered b.
Proof.
  induction a as [|r a IH]; [reflexivity|].
  cbn [rendered app]. now rewrite IH, app_assoc_s, app_cons.
Qed.

Lemma appendedText_rendered (records : list (list JSValue)) :
  records <> [] -> appendedText records = rendered records.
Proof.
  unfold appendedText, JS.join.
  induction records as [|r rs IH]; intros Hne; [contradiction|].
  destruct rs as [|r' rs].
  - reflexivity.
  - cbn [map String.concat rendered] in *.
    rewrite <- IH by discriminate.
    now rewrite !app_assoc_s.
Qed.

Lemma readLines_nonempty (s : string) :
  s <> EmptyString -> readLines s <> [].
Proof.
  destruct s as [|c r]; [contradiction|]. intros _. cbn [readLines].
  destruct (Ascii.eqb c LF); [discriminate|].
  destruct (Ascii.eqb c CR); [discriminate|].
  destruct (readLines r); discriminate.
Qed.

Lemma app_LF_nonempty (a b : string) : a +:+ String LF b <> EmptyString.
Proof. destruct a; discriminate. Qed.

(** A line end closes the line: the lines after it are those of the
    rest. *)
Lemma readLines_app_LF (a b : string) :
  readLines (a +:+ String LF b) =
  readLines (a +:+ String LF EmptyString) ++ readLines b.
Proof.
  remember (String.length a) as n eqn:Hn.
  revert a Hn. induction n as [n IH] using lt_wf_ind. intros a Hn.
  destruct a as [|c r].
  - reflexivity.
  - rewrite !app_cons. cbn [readLines].
    destruct (Ascii.eqb c LF).
    + cbn [app]. f_equal. apply (IH (String.length r)); [simpl in Hn; lia|reflexivity].
    + destruct (Ascii.eqb c CR).
      * destruct r as [|c' r'].
        -- reflexivity.
        -- rewrite !app_cons. cbn [app]. f_equal.
           destruct (Ascii.eqb c' LF).
           ++ apply (IH (String.length r')); [simpl in Hn; lia|reflexivity].
           ++ rewrite <- !app_cons.
              apply (IH (String.length (String c' r'))); [simpl in *; lia|reflexivity].
      * rewrite (IH (String.length r) ltac:(simpl in Hn; lia) r eq_refl).
        pose proof (readLines_nonempty _ (app_LF_nonempty r EmptyString)) as Hne.
        destruct (readLines (r +:+ String LF EmptyString)) as [|l ls];
          [contradiction|reflexivity].
Qed.

Lemma hasChar_false (c : ascii) (s : string) :
  hasChar c s = false ->
  forall x, In x (list_ascii_of_string s) -> Ascii.eqb x c = false.
Proof.
  unfold hasChar. induction s as [|y s IH]; intros H x Hx; [destruct Hx|].
  cbn [JS.includes] in H. apply orb_false_elim in H as [Hp Hr].
  destruct Hx as [<- | Hx]; [|now apply IH].
  cbn [String.prefix] in Hp.
  destruct (ascii_dec c y) as [->|Hne].
  - destruct s; discriminate Hp.
  - apply Ascii.eqb_neq. congruence.
Qed.

Lemma dropLast_none (c : ascii) (s : string) :
  (forall x, In x (list_ascii_of_string s) -> Ascii.eqb x c = false) ->
  dropLast c s = s.
Proof.
  induction s as [|y s IH]; intros H; [reflexivity|].
  cbn [dropLast]. destruct s as [|z s].
  - now rewrite (H y (or_introl eq_refl)).
  - f_equal. apply IH. intros x Hx. apply H. now right.
Qed.

(** The first line of a text that begins with a field free of line
    ends, followed by a comma. *)
Lemma readLines_first_field (h t : string) :
  (forall x, In x (list_ascii_of_string h) ->
     Ascii.eqb x LF = false /\ Ascii.eqb x CR = false) ->
  exists t1 ls, readLines (h +:+ String COMMA t) = (h +:+ String COMMA t1) :: ls.
Proof.
  induction h as [|c h IH]; intros H.
  - rewrite app_empty_l. cbn [readLines].
    change (Ascii.eqb COMMA LF) with false. change (Ascii.eqb COMMA CR) with false.
    cbn iota. destruct (readLines t) as [|l ls].
    + exists EmptyString, []. reflexivity.
    + exists l, ls. reflexivity.
  - destruct (IH (fun x Hx => H x (or_intror Hx))) as (t1 & ls & E).
    destruct (H c (or_introl eq_refl)) as [H1 H2].
    exists t1, ls. rewrite !app_cons. cbn [readLines]. now rewrite H1, H2, E.
Qed.

Section WellFormed.

Variable h : string.
Hypothesis Hwf : wellFormedHash h = true.

Lemma wellFormed_parts :
  JS.startsWith h "0x" = true /\ hasChar COMMA h = false /\
  hasChar QUOTE h = false /\ hasChar LF h = false /\ hasChar CR h = false.
Proof.
  unfold wellFormedHash in Hwf.
  repeat (apply andb_prop in Hwf as [Hwf ?]).
  repeat match goal with H : negb _ = true |- _ => apply negb_true_iff in H end.
  now repeat split.
Qed.

Lemma wellFormed_escape : escapeCsv (VStr h) = h.
Proof.
  destruct wellFormed_parts as (_ & Hc & Hq & Hl & _).
  unfold escapeCsv. cbn [toString]. now rewrite Hc, Hq, Hl.
Qed.

Lemma wellFormed_strip : stripQuotes h = h.
Proof.
  destruct wellFormed_parts as (Hs & _ & Hq & _).
  unfold stripQuotes. destruct h as [|c r]; [reflexivity|].
  pose proof (hasChar_false _ _ Hq) as Hall.
  rewrite (Hall c (or_introl eq_refl)). now apply dropLast_none.
Qed.

Lemma wellFormed_firstField (t : string) :
  firstField (h +:+ String COMMA t) = h.
Proof.
  destruct wellFormed_parts as (_ & Hc & _).
  unfold firstField. change ","%char with COMMA.
  rewrite split_app_sep; [reflexivity|].
  apply (hasChar_false _ _ Hc).
Qed.

(** A line that begins with the hash and a comma puts it in the
    index. *)
Lemma wellFormed_line (t : string) :
  exists line ls,
    readLines (h +:+ String COMMA t) = line :: ls /\
    h = stripQuotes (firstField line) /\ JS.startsWith h "0x" = true.
Proof.
  destruct wellFormed_parts as (Hs & _ & _ & Hl & Hr).
  destruct (readLines_first_field h t) as (t1 & ls & E).
  { intros x Hx. split; [apply (hasChar_false _ _ Hl x Hx)|
                         apply (hasChar_false _ _ Hr x Hx)]. }
  exists (h +:+ String COMMA t1), ls. split; [exact E|].
  rewrite wellFormed_firstField, wellFormed_strip. now split.
Qed.

End WellFormed.

(** The index of a ledger that was appended to. *)
Lemma index_append (a t h : string) :
  h ∈ loadExistingHashes (Some ((a +:+ String LF EmptyString) +:+ t)) <->
  h ∈ loadExistingHashes (Some (a +:+ String LF EmptyString)) \/
  exists line, In line (readLines t) /\ h = stripQuotes (firstField line) /\
               JS.startsWith h "0x" = true.
Proof.
  unfold loadExistingHashes.
  rewrite app_assoc_s, app_cons, app_empty_l, readLines_app_LF.
  pose proof (readLines_nonempty _ (app_LF_nonempty a EmptyString)) as Hne.
  destruct (readLines (a +:+ String LF EmptyString)) as [|l ls];
    [contradiction|].
  cbn [app tail]. rewrite fold_left_app, !index_fold_elem. tauto.
Qed.

(** ** One run of the pipeline *)

Section RunFacts.

Context {Row : Type}.
Variable rowValues : Row -> list JSValue.
Variable Q : string -> list Row -> Prop.
Variable CSV_HEADERS : list string.
Variable TARGET_COUNT : Z.
Variable stopOnEmptyBatch : bool.
Variable process : string -> nat -> Exc (list Row).
Variable random : string -> nat -> float.
Variable P : string -> Prop.

Hypothesis process_ok :
  forall h k rows, process h k = Return rows -> Q h rows.

Lemma retryLoop_result (retries : nat) :
  forall k h rows,
  fst (retryLoop process random retries k h) = Some rows ->
  exists k', process h k' = Return rows.
Proof.
  induction retries as [|r IH]; intros k h rows; [discriminate|].
  cbn [retryLoop]. destruct (process h k) as [result|message] eqn:E.
  - cbn [fst]. intros [= <-]. eauto.
  - destruct (JS.truthy message && JS.includes message "429").
    + destruct (retryLoop process random r (S k) h) as [res sl] eqn:E'.
      cbn [fst]. intros ->. apply (IH (S k) h). now rewrite E'.
    + destruct (JS.truthy message && JS.includes message "500").
      * destruct (retryLoop process random r (S k) h) as [res sl] eqn:E'.
        cbn [fst]. intros ->. apply (IH (S k) h). now rewrite E'.
      * discriminate.
Qed.

Lemma processItem_ok (h : string) (rows : list Row) :
  processItem process random h = Some rows -> Q h rows.
Proof.
  intros H. destruct (retryLoop_result _ _ _ _ H) as [k Hk].
  exact (process_ok _ _ _ Hk).
Qed.

(** *** Collecting a batch *)

Lemma scanItem_inv (S0 seen : gset string) (batch : list string)
    (item : ListItem) :
  batchInv P S0 seen batch ->
  (forall h, item_transaction_hash item = Some h -> P h) ->
  batchInv P S0 (fst (scanItem (seen, batch) item))
               (snd (scanItem (seen, batch) item)) /\
  seen ⊆ fst (scanItem (seen, batch) item).
Proof.
  intros (Hnd & Hsub & Hall) HP. unfold scanItem.
  assert (Hsame : batchInv P S0 seen batch /\ seen ⊆ seen).
  { split; [exact (conj Hnd (conj Hsub Hall))|set_solver]. }
  destruct (item_transaction_hash item) as [h|]; [|exact Hsame].
  destruct (JS.truthy h && negb (bool_decide (h ∈ seen))) eqn:E;
    [|exact Hsame].
  apply andb_prop in E as [_ E]. apply negb_true_iff in E.
  apply bool_decide_eq_false in E. cbn [fst snd].
  split; [|set_solver]. split; [|split].
  - apply NoDup_app. split; [exact Hnd|]. split.
    + intros x Hx Hx'. apply list_elem_of_In in Hx.
      apply list_elem_of_singleton in Hx'. subst x.
      now destruct (Hall h Hx).
    + apply NoDup_singleton.
  - set_solver.
  - intros x Hx. apply in_app_or in Hx as [Hx | [<- | []]].
    + destruct (Hall x Hx) as (H1 & H2 & H3). repeat split; [set_solver|exact H2|exact H3].
    + repeat split; [set_solver|set_solver|now apply HP].
Qed.

Lemma scanPage_inv (page : list ListItem) :
  forall (S0 seen : gset string) (batch : list string),
  batchInv P S0 seen batch ->
  (forall item h, In item page -> item_transaction_hash item = Some h -> P h) ->
  batchInv P S0 (fst (scanPage page (seen, batch)))
               (snd (scanPage page (seen, batch))) /\
  seen ⊆ fst (scanPage page (seen, batch)).
Proof.
  unfold scanPage. induction page as [|item page IH]; intros S0 seen batch Hinv HP.
  - cbn [fold_left fst snd]. now split.
  - cbn [fold_left].
    destruct (scanItem_inv S0 seen batch item Hinv
                (fun h => HP item h (or_introl eq_refl))) as [H1 H2].
    destruct (scanItem (seen, batch) item) as [seen' batch'].
    cbn [fst snd] in *.
    destruct (IH S0 seen' batch' H1
                (fun i h Hi => HP i h (or_intror Hi))) as [H3 H4].
    split; [exact H3|]. set_solver.
Qed.

Lemma listed_cons (resp : ListResponse) (rest : list ListResponse) (h : string) :
  In h (listedHashes (resp :: rest)) <->
  (exists item, In item (items resp) /\ item_transaction_hash item = Some h) \/
  In h (listedHashes rest).
Proof.
  unfold listedHashes. cbn [flat_map]. rewrite in_app_iff, in_flat_map.
  split.
  - intros [(item & Hi & Hh) | H]; [left|now right].
    exists item. split; [exact Hi|].
    destruct (item_transaction_hash item); [|destruct Hh].
    destruct Hh as [-> | []]. reflexivity.
  - intros [(item & Hi & Hh) | H]; [left|now right].
    exists item. split; [exact Hi|]. rewrite Hh. now left.
Qed.

Lemma collect_inv (answers : list ListResponse) :
  forall (S0 seen : gset string) (batch : list string) cursor,
  batchInv P S0 seen batch ->
  (forall h, In h (listedHashes answers) -> P h) ->
  batchInv P S0 (c_seen (collect answers seen batch cursor))
               (c_batch (collect answers seen batch cursor)) /\
  seen ⊆ c_seen (collect answers seen batch cursor) /\
  (forall h, In h (listedHashes (c_rest (collect answers seen batch cursor))) ->
     P h).
Proof.
  induction answers as [|resp rest IH]; intros S0 seen batch cursor Hinv HP.
  - cbn [collect]. destruct (length batch <? PROCESS_BATCH_SIZE)%nat;
      cbn; (split; [exact Hinv|split; [set_solver|tauto]]).
  - cbn [collect]. destruct (length batch <? PROCESS_BATCH_SIZE)%nat.
    + destruct (items resp) as [|item page] eqn:Ei.
      * cbn. split; [exact Hinv|]. split; [set_solver|].
        intros h Hh. apply HP, listed_cons. now right.
      * rewrite <- Ei.
        destruct (scanPage_inv (items resp) S0 seen batch Hinv) as [H1 H2].
        { intros i h Hi Hh. apply HP, listed_cons. left. eauto. }
        destruct (scanPage (items resp) (seen, batch)) as [seen' batch'].
        cbn [fst snd] in *.
        assert (HP' : forall h, In h (listedHashes rest) -> P h).
        { intros h Hh. apply HP, listed_cons. now right. }
        destruct (next_page_params resp) as [params|].
        -- destruct (IH S0 seen' batch' (Some params) H1 HP') as (H3 & H4 & H5).
           split; [exact H3|]. split; [set_solver|exact H5].
        -- cbn. split; [exact H1|]. split; [exact H2|exact HP'].
    + cbn. split; [exact Hinv|]. split; [set_solver|exact HP].
Qed.

(** *** Processing a batch *)

Lemma validResults_app (a b : list (string * option (list Row))) :
  validResults (a ++ b) = validResults a ++ validResults b.
Proof. apply flat_map_app. Qed.

Lemma processChunk_ledger (st : State) (chunk : list string) :
  ledger (processChunk rowValues process random st chunk) =
  ledger st +:+
  rendered (map rowValues
    (validResults (map (fun h => (h, processItem process random h)) chunk))).
Proof.
  unfold processChunk. cbn [ledger].
  destruct (validResults _) as [|r rs].
  - cbn. now rewrite app_empty_r.
  - now rewrite appendedText_rendered.
Qed.

Lemma burst_effect (batch : list string) (fuel : nat) :
  forall (i : nat) (st : State), (length batch - i <= fuel)%nat ->
  let st' := burst rowValues process random fuel i batch st in
  let results := map (fun h => (h, processItem process random h))
                     (skipn i batch) in
  trace st' = trace st ++ results /\
  ledger st' = ledger st +:+ rendered (map rowValues (validResults results)) /\
  seenHashes st' = seenHashes st /\ nextPageParams st' = nextPageParams st /\
  listing st' = listing st.
Proof.
  induction fuel as [|fuel IH]; intros i st Hf st' results; subst st' results.
  - cbn [burst]. rewrite skipn_all2 by lia. cbn.
    now rewrite app_nil_r, app_empty_r.
  - cbn [burst]. destruct (i <? length batch)%nat eqn:E.
    + apply Nat.ltb_lt in E.
      set (chunk := firstn EXECUTION_CONCURRENCY (skipn i batch)).
      assert (Hsplit : skipn i batch =
                chunk ++ skipn (i + EXECUTION_CONCURRENCY) batch).
      { unfold chunk.
        rewrite <- (firstn_skipn EXECUTION_CONCURRENCY (skipn i batch)) at 1.
        f_equal. rewrite skipn_skipn. f_equal. lia. }
      destruct (IH (i + EXECUTION_CONCURRENCY)%nat
                  (processChunk rowValues process random st chunk))
        as (H1 & H2 & H3 & H4 & H5).
      { unfold EXECUTION_CONCURRENCY. lia. }
      rewrite H1, H2, H3, H4, H5, processChunk_ledger, Hsplit.
      rewrite !map_app, validResults_app, map_app, rendered_app.
      cbn [processChunk trace seenHashes nextPageParams listing].
      rewrite app_assoc_s. now rewrite <- app_assoc.
    + apply Nat.ltb_ge in E. rewrite skipn_all2 by lia. cbn.
      now rewrite app_nil_r, app_empty_r.
Qed.

(** *** The main loop *)

Lemma in_trace_result (batch : list string) (h : string) (rows : list Row) :
  In (h, Some rows) (map (fun x => (x, processItem process random x)) batch) ->
  Q h rows.
Proof.
  intros H. apply in_map_iff in H as (x & E & _).
  injection E as -> E. now apply processItem_ok.
Qed.

Lemma pipelineLoop_inv (S0 : gset string) (L0 : string) (fuel : nat) :
  forall st, runInv rowValues Q P S0 L0 st ->
  runInv rowValues Q P S0 L0
    (pipelineLoop rowValues TARGET_COUNT stopOnEmptyBatch process random
                  fuel st).
Proof.
  induction fuel as [|fuel IH]; intros st Hinv; [exact Hinv|].
  cbn [pipelineLoop].
  destruct (recordsSaved st <? TARGET_COUNT); [|exact Hinv].
  destruct Hinv as (Hsub & Hnd & Hall & Hled & HP & Hrows).
  destruct (collect_inv (listing st) (seenHashes st) (seenHashes st) []
              (nextPageParams st)) as ((Bnd & _ & Ball) & Bsub & BP).
  { split; [constructor|]. split; [set_solver|]. intros h []. }
  { exact HP. }
  set (c := collect (listing st) (seenHashes st) [] (nextPageParams st)) in *.
  assert (Hinv1 : runInv rowValues Q P S0 L0
            {| seenHashes := c_seen c; recordsSaved := recordsSaved st;
               nextPageParams := c_cursor c; ledger := ledger st;
               listing := c_rest c; trace := trace st |}).
  { split; [cbn; set_solver|]. split; [exact Hnd|]. split.
    - intros h Hh. destruct (Hall h Hh) as (H1 & H2 & H3).
      cbn. repeat split; [set_solver|exact H2|exact H3].
    - split; [exact Hled|]. split; [exact BP|exact Hrows]. }
  destruct (c_cut c); [exact Hinv1|].
  destruct (stopOnEmptyBatch && _); [exact Hinv1|].
  match goal with
  | |- context [burst _ _ _ ?f ?i ?b ?s] =>
      destruct (burst_effect b f i s) as (T1 & T2 & T3 & T4 & T5); [lia|];
      set (st2 := burst rowValues process random f i b s) in *
  end.
  cbn [skipn trace ledger seenHashes nextPageParams listing] in T1, T2, T3, T4, T5.
  assert (Hinv2 : runInv rowValues Q P S0 L0 st2).
  { split; [rewrite T3; set_solver|]. split; [|split; [|split; [|split]]].
    - rewrite T1, map_app, map_map. cbn [fst]. rewrite map_id.
      apply NoDup_app. split; [exact Hnd|]. split; [|exact Bnd].
      intros x Hx Hx'. apply list_elem_of_In in Hx, Hx'.
      destruct (Hall x Hx) as (H1 & _). destruct (Ball x Hx') as (_ & H2 & _).
      contradiction.
    - intros h. rewrite T1, map_app, map_map. cbn [fst]. rewrite map_id, T3.
      intros Hh. apply in_app_or in Hh as [Hh | Hh].
      + destruct (Hall h Hh) as (H1 & H2 & H3).
        repeat split; [set_solver|exact H2|exact H3].
      + destruct (Ball h Hh) as (H1 & H2 & H3).
        repeat split; [exact H1|set_solver|exact H3].
    - rewrite T2, T1, Hled, validResults_app, map_app, rendered_app.
      now rewrite app_assoc_s.
    - rewrite T5. exact BP.
    - intros h rows. rewrite T1. intros Hh.
      apply in_app_or in Hh as [Hh | Hh]; [now apply (Hrows h)|].
      now apply (in_trace_result (c_batch c)). }
  destruct (TARGET_COUNT <=? recordsSaved st2); [exact Hinv2|].
  destruct (_ && _); [exact Hinv2|].
  now apply IH.
Qed.

(** A run keeps what the ledger held, appends the rows it produced, and
    never processes a hash of the index it began with, nor a hash
    twice. *)
Lemma pipelineBatch_inv (content : string) (answers : list ListResponse) :
  (forall h, In h (listedHashes answers) -> P h) ->
  runInv rowValues Q P (loadExistingHashes (Some content)) content
    (pipelineBatch rowValues CSV_HEADERS TARGET_COUNT stopOnEmptyBatch
                   process random (Some content) answers).
Proof.
  intros HP. unfold pipelineBatch. apply pipelineLoop_inv.
  split; [reflexivity|]. split; [constructor|]. split; [intros h []|].
  split; [cbn; now rewrite app_empty_r|]. split; [exact HP|].
  intros h rows [].
Qed.

End RunFacts.

(** ** Successive runs *)

Lemma app_LF_split (x r : string) :
  x +:+ String LF r = (x +:+ String LF EmptyString) +:+ r.
Proof. now rewrite app_assoc_s, app_cons, app_empty_l. Qed.

Lemma rendered_ends_LF (rs : list (list JSValue)) :
  forall a, exists a',
    (a +:+ String LF EmptyString) +:+ rendered rs = a' +:+ String LF EmptyString.
Proof.
  induction rs as [|r rs IH]; intros a.
  - exists a. cbn [rendered]. now rewrite app_empty_r.
  - cbn [rendered].
    destruct (IH ((a +:+ String LF EmptyString) +:+ csvLine r)) as [a' Ha'].
    exists a'. rewrite <- Ha'.
    now rewrite (app_LF_split (csvLine r)), <- !app_assoc_s.
Qed.

Lemma index_mono (a t h : string) :
  h ∈ loadExistingHashes (Some (a +:+ String LF EmptyString)) ->
  h ∈ loadExistingHashes (Some ((a +:+ String LF EmptyString) +:+ t)).
Proof. intros H. apply index_append. now left. Qed.

Section Persisted.

Context {Row : Type}.
Implicit Types t : list (string * option (list Row)).

Lemma persisted_app t1 t2 : persisted (t1 ++ t2) = persisted t1 ++ persisted t2.
Proof. unfold persisted. now rewrite List.filter_app, map_app. Qed.

Lemma persisted_In t h :
  In h (persisted t) <-> exists r rs, In (h, Some (r :: rs)) t.
Proof.
  unfold persisted. rewrite in_map_iff. split.
  - intros ([h' o] & E & Hin). cbn in E. subst h'.
    apply List.filter_In in Hin as [Hin Hp]. cbn in Hp.
    destruct o as [[|r rs]|]; try discriminate. eauto.
  - intros (r & rs & Hin). exists (h, Some (r :: rs)). split; [reflexivity|].
    apply List.filter_In. now split.
Qed.

Lemma persisted_sub t h : In h (persisted t) -> In h (map fst t).
Proof.
  intros H. apply persisted_In in H as (r & rs & H).
  apply in_map_iff. exists (h, Some (r :: rs)). now split.
Qed.

Lemma persisted_NoDup t : NoDup (map fst t) -> NoDup (persisted t).
Proof.
  unfold persisted. induction t as [|[h o] t IH]; intros H; [constructor|].
  cbn [map fst] in H. apply NoDup_cons in H as [Hh Ht].
  cbn [List.filter snd]. destruct o as [[|r rs]|]; try (now apply IH).
  cbn [map fst]. apply NoDup_cons. split; [|now apply IH].
  intros Hin. apply Hh. apply list_elem_of_In.
  apply list_elem_of_In in Hin. now apply (persisted_sub t).
Qed.

Lemma validResults_In t (r : Row) (rs : list Row) h :
  In (h, Some (r :: rs)) t -> In r (validResults t).
Proof.
  intros H. unfold validResults. apply in_flat_map.
  exists (h, Some (r :: rs)). split; [exact H|now left].
Qed.

(** With at most one row per transaction, the hashes of the rows are
    the hashes persisted. *)
Lemma single_rows_hashes (rowHash : Row -> string) t :
  (forall h rows, In (h, Some rows) t ->
     Forall (fun r => rowHash r = h) rows /\ (length rows <= 1)%nat) ->
  map rowHash (validResults t) = persisted t.
Proof.
  unfold persisted, validResults.
  induction t as [|[h o] t IH]; intros H; [reflexivity|].
  cbn [flat_map List.filter snd]. rewrite map_app.
  rewrite IH by (intros h' rows Hin; apply H; now right).
  destruct o as [[|r [|r' rs]]|]; try reflexivity.
  - destruct (H h [r] (or_introl eq_refl)) as [Hf _].
    apply Forall_inv in Hf. cbn. now rewrite Hf.
  - destruct (H h (r :: r' :: rs) (or_introl eq_refl)) as [_ Hl].
    simpl in Hl. lia.
Qed.

End Persisted.

Section Coverage.

Context {Row : Type}.
Variable rowValues : Row -> list JSValue.
Variable rowHash : Row -> string.
Hypothesis rowValues_hash :
  forall r, exists v vs, rowValues r = VStr (rowHash r) :: v :: vs.

Lemma csvLine_hash (r : Row) :
  wellFormedHash (rowHash r) = true ->
  exists t, csvLine (rowValues r) = rowHash r +:+ String COMMA t.
Proof.
  intros Hwf. destruct (rowValues_hash r) as (v & vs & E).
  unfold csvLine, JS.join. rewrite E. cbn [map String.concat].
  rewrite (wellFormed_escape _ Hwf). eexists. reflexivity.
Qed.

(** A row on a line of its own, after the first line, is read back. *)
Lemma row_line_indexed (a post : string) (r : Row) :
  wellFormedHash (rowHash r) = true ->
  rowHash r ∈ loadExistingHashes
    (Some ((a +:+ String LF EmptyString) +:+
           (csvLine (rowValues r) +:+ String LF post))).
Proof.
  intros Hwf. apply index_append. right.
  destruct (csvLine_hash r Hwf) as [t ->].
  rewrite app_assoc_s, app_cons.
  destruct (wellFormed_line _ Hwf (t +:+ String LF post))
    as (line & ls & -> & H1 & H2).
  exists line. split; [now left|now split].
Qed.

Lemma rendered_indexed (rows : list Row) :
  forall a r, In r rows -> wellFormedHash (rowHash r) = true ->
  rowHash r ∈ loadExistingHashes
    (Some ((a +:+ String LF EmptyString) +:+ rendered (map rowValues rows))).
Proof.
  induction rows as [|r' rows IH]; intros a r Hin Hwf; [destruct Hin|].
  cbn [map rendered]. destruct Hin as [-> | Hin].
  - now apply row_line_indexed.
  - rewrite (app_LF_split (csvLine (rowValues r'))), <- app_assoc_s.
    rewrite <- app_assoc_s. now apply IH.
Qed.

End Coverage.

Section Runs.

Context {Row Answer : Type}.
Variable rowValues : Row -> list JSValue.
Variable rowHash : Row -> string.
Variable Q : string -> list Row -> Prop.
Variable run : option string -> World Answer -> @State Row.
Variable header : string.

Hypothesis rowValues_hash :
  forall r, exists v vs, rowValues r = VStr (rowHash r) :: v :: vs.
Hypothesis Q_hash :
  forall h rows, Q h rows -> Forall (fun r => rowHash r = h) rows.
Hypothesis run_None :
  forall w, run None w = run (Some (header +:+ String LF EmptyString)) w.
Hypothesis run_inv :
  forall content w,
  (forall h, In h (listedHashes (answers w)) -> wellFormedHash h = true) ->
  runInv rowValues Q (fun h => wellFormedHash h = true)
         (loadExistingHashes (Some content)) content (run (Some content) w).

Lemma runs_from (worlds : list (World Answer)) :
  forall a t0,
  Forall wellFormedWorld worlds ->
  NoDup (persisted t0) ->
  (forall h, In h (persisted t0) ->
     h ∈ loadExistingHashes (Some (a +:+ String LF EmptyString))) ->
  exists t a',
    runs run (Some (a +:+ String LF EmptyString)) worlds =
      (Some (a' +:+ String LF EmptyString), t) /\
    a' +:+ String LF EmptyString =
      (a +:+ String LF EmptyString) +:+
      rendered (map rowValues (validResults t)) /\
    NoDup (persisted (t0 ++ t)) /\
    (forall h rows, In (h, Some rows) t -> Q h rows).
Proof.
  induction worlds as [|w ws IH]; intros a t0 Hw Hnd Hcov.
  - exists [], a. cbn [runs validResults flat_map map rendered].
    rewrite app_empty_r, app_nil_r. repeat split; [exact Hnd|]. intros h rows [].
  - apply Forall_cons_iff in Hw as [Hw Hws].
    destruct (run_inv (a +:+ String LF EmptyString) w Hw)
      as (_ & Tnd & Tall & Tled & _ & Trows).
    set (st := run (Some (a +:+ String LF EmptyString)) w) in *.
    destruct (rendered_ends_LF (map rowValues (validResults (trace st))) a)
      as [a1 Ha1].
    rewrite <- Tled in Ha1.
    destruct (IH a1 (t0 ++ trace st) Hws) as (t2 & a' & Hruns & Htext & Hnd2 & Hq2).
    { rewrite persisted_app. apply NoDup_app.
      split; [exact Hnd|]. split; [|now apply persisted_NoDup].
      intros h Hh Hh'. apply list_elem_of_In in Hh, Hh'.
      apply persisted_sub in Hh'.
      destruct (Tall h Hh') as (_ & Hnot & _). apply Hnot. now apply Hcov. }
    { intros h. rewrite persisted_app, in_app_iff. intros [Hh | Hh].
      - rewrite <- Ha1, Tled. now apply index_mono, Hcov.
      - rewrite <- Ha1, Tled.
        apply persisted_In in Hh as (r & rs & Hin).
        pose proof (Q_hash _ _ (Trows _ _ Hin)) as Hf.
        apply Forall_inv in Hf. rewrite <- Hf.
        apply (rendered_indexed rowValues rowHash rowValues_hash).
        + apply (validResults_In _ _ _ _ Hin).
        + rewrite Hf. destruct (Tall h) as (_ & _ & Hwf); [|exact Hwf].
          apply in_map_iff. exists (h, Some (r :: rs)). now split. }
    exists (trace st ++ t2), a'. cbn [runs]. fold st. rewrite Ha1, Hruns.
    split; [reflexivity|]. split; [|split].
    + rewrite Htext, <- Ha1, Tled, validResults_app, map_app, rendered_app.
      now rewrite app_assoc_s.
    + now rewrite app_assoc.
    + intros h rows Hin. apply in_app_or in Hin as [Hin | Hin].
      * now apply (Trows h).
      * now apply (Hq2 h).
Qed.

(** Runs that begin without a ledger file. *)
Lemma runs_fresh (worlds : list (World Answer)) :
  Forall wellFormedWorld worlds ->
  NoDup (persisted (snd (runs run None worlds))) /\
  (forall h rows, In (h, Some rows) (snd (runs run None worlds)) -> Q h rows) /\
  (worlds <> [] ->
   fst (runs run None worlds) =
     Some ((header +:+ String LF EmptyString) +:+
           rendered (map rowValues
                         (validResults (snd (runs run None worlds)))))).
Proof.
  intros Hw. destruct worlds as [|w ws].
  - cbn. split; [constructor|]. split; [intros h rows []|]. now intros [].
  - destruct (runs_from (w :: ws) header [] Hw) as (t & a' & Hruns & Htext & Hnd & Hq).
    { constructor. } { intros h []. }
    assert (E : runs run None (w :: ws) =
                runs run (Some (header +:+ String LF EmptyString)) (w :: ws)).
    { cbn [runs]. now rewrite run_None. }
    rewrite E, Hruns. cbn [fst snd]. split; [exact Hnd|]. split; [exact Hq|].
    intros _. now rewrite Htext.
Qed.

End Runs.

(** ** The rows of the two variants *)

Lemma rowValuesA_hash (r : VariantA.Row) :
  exists v vs,
    VariantA.rowValues r = VStr (VariantA.transaction_hash r) :: v :: vs.
Proof. unfold VariantA.rowValues. eauto. Qed.

Lemma rowValuesB_hash (r : VariantB.Row) :
  exists v vs,
    VariantB.rowValues r = VStr (VariantB.transaction_hash r) :: v :: vs.
Proof. unfold VariantB.rowValues. eauto. Qed.

(** Variant A returns no row or one, under the hash it was called
    with. *)
Lemma processA_rows (h : string) (d : option TxDetails)
    (rows : list VariantA.Row) :
  VariantA.processSingleTransaction h d = Return rows ->
  Forall (fun r => VariantA.transaction_hash r = h) rows /\
  (length rows <= 1)%nat.
Proof.
  unfold VariantA.processSingleTransaction.
  destruct d as [d|]; [|intros [= <-]; split; [constructor|cbn; lia]].
  destruct (negb (existsb isCngn (VariantA.transferItems d)));
    [intros [= <-]; split; [constructor|cbn; lia]|].
  destruct (VariantA.interacted d) as [ia iname].
  destruct (foldExc _ _ _) as [st|msg]; [|discriminate].
  cbn [bindExc].
  destruct (VariantA.tokenIn st) as [[a1 s1] x1].
  destruct (VariantA.tokenOut st) as [[a2 s2] x2].
  intros [= <-]. split; [|cbn; lia].
  constructor; [reflexivity|constructor].
Qed.

Lemma mapExc_Forall {A B : Type} (f : A -> Exc B) (good : B -> Prop) :
  (forall x y, f x = Return y -> good y) ->
  forall xs ys, mapExc f xs = Return ys -> Forall good ys.
Proof.
  intros Hf. induction xs as [|x xs IH]; intros ys H; cbn [mapExc] in H.
  - injection H as <-. constructor.
  - destruct (f x) as [y|msg] eqn:E; [|discriminate]. cbn [bindExc] in H.
    destruct (mapExc f xs) as [ys'|msg]; [|discriminate]. cbn [bindExc] in H.
    injection H as <-. constructor; [now apply (Hf x)|now apply IH].
Qed.

Lemma rowFor_hash (h : string) (d : TxDetails) (its : list Transfer)
    (c : Transfer) (row : VariantB.Row) :
  VariantB.rowFor h d its c = Return row -> VariantB.transaction_hash row = h.
Proof.
  unfold VariantB.rowFor.
  destruct (VariantB.identify c) as [[pa pn] ta].
  destruct (fold_left _ _ _) as [[ti to_] other].
  destruct (VariantB.cngnValue c) as [cv|msg]; [|discriminate]. cbn [bindExc].
  destruct (VariantB.usdValue its c cv) as [uv|msg]; [|discriminate].
  cbn [bindExc]. now intros [= <-].
Qed.

(** Variant B returns rows that all carry the hash it was called
    with. *)
Lemma processB_rows (h : string)
    (answer : option TxDetails * Exc (option VariantB.TransfersResponse))
    (rows : list VariantB.Row) :
  processB h answer = Return rows ->
  Forall (fun r => VariantB.transaction_hash r = h) rows.
Proof.
  unfold processB. destruct answer as [d [tr|msg]]; [|discriminate].
  cbn [bindExc fst snd]. unfold VariantB.processSingleTransaction.
  destruct d as [d|]; [|intros [= <-]; constructor].
  destruct tr as [[[its|]]|]; try (intros [= <-]; constructor).
  apply mapExc_Forall. intros c row. apply rowFor_hash.
Qed.

Lemma runA_inv (P : string -> Prop) (content : string)
    (w : World (option TxDetails)) :
  (forall h, In h (listedHashes (answers w)) -> P h) ->
  runInv VariantA.rowValues
    (fun h rows => Forall (fun r => VariantA.transaction_hash r = h) rows /\
                   (length rows <= 1)%nat)
    P (loadExistingHashes (Some content)) content (runA (Some content) w).
Proof.
  intros HP. unfold runA. apply pipelineBatch_inv; [|exact HP].
  intros h k rows. apply processA_rows.
Qed.

Lemma runB_inv (P : string -> Prop) (content : string)
    (w : World (option TxDetails * Exc (option VariantB.TransfersResponse))) :
  (forall h, In h (listedHashes (answers w)) -> P h) ->
  runInv VariantB.rowValues
    (fun h rows => Forall (fun r => VariantB.transaction_hash r = h) rows)
    P (loadExistingHashes (Some content)) content (runB (Some content) w).
Proof.
  intros HP. unfold runB. apply pipelineBatch_inv; [|exact HP].
  intros h k rows. apply processB_rows.
Qed.

(** ** Hashes across the ledger *)

(** C3, as the code has it.  Over any sequence of runs that begins
    without a ledger file, against an upstream that names well-formed
    hashes, no transaction is persisted twice.  In variant A, which
    writes one row per transaction, the transaction hashes of the rows
    appended are pairwise different.  In variant B, which writes one row
    per cNGN transfer, the rows of one transaction share its hash and
    the transactions with rows are pairwise different.  In both the
    ledger is the header line followed by the rows in the order they
    were appended: nothing is rewritten. *)
Theorem ledger_transactions_unique :
  (forall worlds : list (World (option TxDetails)),
     Forall wellFormedWorld worlds ->
     NoDup (map VariantA.transaction_hash
                (validResults (snd (runs runA None worlds)))) /\
     (worlds <> [] ->
      fst (runs runA None worlds) =
        Some ((JS.join "," VariantA.CSV_HEADERS +:+ String LF EmptyString) +:+
              rendered (map VariantA.rowValues
                            (validResults (snd (runs runA None worlds))))))) /\
  (forall worlds :
       list (World (option TxDetails *
                    Exc (option VariantB.TransfersResponse))),
     Forall wellFormedWorld worlds ->
     NoDup (persisted (snd (runs runB None worlds))) /\
     (forall h rows, In (h, Some rows) (snd (runs runB None worlds)) ->
        Forall (fun r => VariantB.transaction_hash r = h) rows) /\
     (worlds <> [] ->
      fst (runs runB None worlds) =
        Some ((JS.join "," VariantB.CSV_HEADERS +:+ String LF EmptyString) +:+
              rendered (map VariantB.rowValues
                            (validResults (snd (runs runB None worlds))))))).
Proof.
  split.
  - intros worlds Hw.
    destruct (runs_fresh VariantA.rowValues VariantA.transaction_hash
                (fun h rows =>
                   Forall (fun r => VariantA.transaction_hash r = h) rows /\
                   (length rows <= 1)%nat)
                runA (JS.join "," VariantA.CSV_HEADERS)
                rowValuesA_hash (fun h rows H => proj1 H)
                (fun w => eq_refl)
                (fun content w => runA_inv _ content w) worlds Hw)
      as (Hnd & Hq & Hled).
    split; [|exact Hled].
    now rewrite (single_rows_hashes VariantA.transaction_hash _ Hq).
  - intros worlds Hw.
    exact (runs_fresh VariantB.rowValues VariantB.transaction_hash
             (fun h rows =>
                Forall (fun r => VariantB.transaction_hash r = h) rows)
             runB (JS.join "," VariantB.CSV_HEADERS)
             rowValuesB_hash (fun h rows H => H)
             (fun w => eq_refl)
             (fun content w => runB_inv _ content w) worlds Hw).
Qed.

Lemma wellFormed_sample : wellFormedWorld (Sample.worldA "0xabc").
Proof. intros h [<- | []]. reflexivity. Qed.

Lemma ledger_transactions_unique_witness :
  NoDup (map VariantA.transaction_hash
    (validResults
       (snd (runs runA None [Sample.worldA "0xabc"; Sample.worldA "0xabc"])))).
Proof.
  apply (proj1 ledger_transactions_unique).
  repeat constructor; apply wellFormed_sample.
Defined.

(** One transaction with two cNGN transfers: variant B appends two rows
    with the same transaction hash. *)
Lemma ledger_hash_twice_in_variantB :
  map VariantB.transaction_hash
      (validResults (trace (runB None (Sample.worldB "0xh1")))) =
    ["0xh1"; "0xh1"] /\
  map firstField (tail (readLines (ledger (runB None (Sample.worldB "0xh1")))))
    = ["0xh1"; "0xh1"].
Proof. vm_compute. split; reflexivity. Qed.

(** ** Resuming *)

Section Resume.

Context {Row Answer : Type}.
Variable rowValues : Row -> list JSValue.
Variable rowHash : Row -> string.
Variable Q : string -> list Row -> Prop.
Variable run : option string -> World Answer -> @State Row.

Hypothesis rowValues_hash :
  forall r, exists v vs, rowValues r = VStr (rowHash r) :: v :: vs.
Hypothesis Q_hash :
  forall h rows, Q h rows -> Forall (fun r => rowHash r = h) rows.
Hypothesis run_inv :
  forall content w,
  runInv rowValues Q (fun _ => True)
         (loadExistingHashes (Some content)) content (run (Some content) w).



End Resume.




(** The same two runs with the hash "0xabc": the second adds nothing. *)
Example resume_keeps_prefixed_hash :
  let first := runA None (Sample.worldA "0xabc") in
  let second := runA (Some (ledger first)) (Sample.worldA "0xabc") in
  elements (loadExistingHashes (Some (ledger first))) = ["0xabc"] /\
  trace second = [] /\ ledger second = ledger first.
Proof. vm_compute. repeat split; reflexivity. Qed.

(** ** The filter of the VWAP series *)














(** A row of another contract and a swap without a stablecoin signal
    are left out. *)
Example trade_not_routed :
  Vwap.onLine (Vwap.onLine Vwap.startReading Sample.header)
              Sample.otherContract =
  Vwap.onLine Vwap.startReading Sample.header.
Proof. reflexivity. Qed.

(** ** The records of the VWAP series *)

Section Walk.

Variable stats : gmap string Vwap.DailyStat.

Lemma dayRecord_date (d : Vwap.Date) (last : float) :
  Vwap.date (fst (Vwap.dayRecord stats d last)) = Vwap.toISODate d.
Proof.
  unfold Vwap.dayRecord. destruct (stats !! Vwap.toISODate d) as [stat|];
    [destruct (PrimFloat.ltb _ _)|]; reflexivity.
Qed.




End Walk.



Lemma series_walk (r : Vwap.Reading) (records : list Vwap.VwapRecord) :
  Vwap.series r = Vwap.Results records ->
  records = [] \/
  exists currentDate endDate,
    Vwap.newDate (Vwap.minDate r) = Some currentDate /\
    Vwap.newDate (Vwap.maxDate r) = Some endDate /\
    Vwap.walk (Vwap.walkFuel currentDate) (Vwap.dailyStats r)
              currentDate endDate PrimFloat.zero = Some records.
Proof.
  unfold Vwap.series.
  destruct (String.eqb (Vwap.minDate r) EmptyString); [discriminate|].
  destruct (Vwap.newDate (Vwap.minDate r)) as [cur|];
    [|intros [= <-]; now left].
  destruct (Vwap.newDate (Vwap.maxDate r)) as [endDate|];
    [|intros [= <-]; now left].
  destruct (Vwap.walk _ _ _ _ _) as [rs|] eqn:E; [|discriminate].
  intros [= <-]. right. eauto.
Qed.



(** The sample: a trade on 5 August, none on the 6th, a trade on the
    7th; the 6th carries the price of the 5th. *)
Example carry_forward_sample :
  map Vwap.date Sample.vwapSeries =
    ["2025-08-05"; "2025-08-06"; "2025-08-07"]%string /\
  Vwap.vwap Sample.gapDay = (1 / 1500.5)%float /\
  Vwap.volumeCngn Sample.gapDay = 0%float.
Proof. vm_compute. repeat split. Qed.

(** ** Calendar days *)

Section Calendar.

Implicit Types a b d t : Vwap.Date.












End Calendar.

(** ** Date strings *)



Lemma padDigits_digits (w : nat) (n : Z) (c : ascii) :
  In c (list_ascii_of_string (Vwap.padDigits w n)) ->
  exists v, 0 <= v <= 9 /\ c = JS.digitChar v.
Proof.
  revert n. induction w as [|w IH]; intros n; [intros []|].
  cbn [Vwap.padDigits]. rewrite in_chars_app. intros [H | H]; [eauto|].
  destruct H as [<- | []]. exists (n mod 10). split; [|reflexivity].
  pose proof (Z.mod_pos_bound n 10). lia.
Qed.








Section IsoDates.

Implicit Types a b d : Vwap.Date.








End IsoDates.

(** ** The range of the VWAP series *)










(** ** The days of the walk *)

Section Days.

Variable stats : gmap string Vwap.DailyStat.
Variable endDate : Vwap.Date.
Hypothesis endValid : Vwap.validDate endDate = true.

Lemma walk_step (fuel : nat) (currentDate : Vwap.Date) (last : float)
    (records : list Vwap.VwapRecord) :
  Vwap.walk fuel stats currentDate endDate last = Some records ->
  (Vwap.Date_leb currentDate endDate &&
   Vwap.Date_ltb currentDate Vwap.SAFETY_YEAR_LIMIT = false /\
   records = []) \/
  (Vwap.Date_leb currentDate endDate = true /\
   Vwap.Date_ltb currentDate Vwap.SAFETY_YEAR_LIMIT = true /\
   exists fuel' rest,
     fuel = S fuel' /\
     records = fst (Vwap.dayRecord stats currentDate last) :: rest /\
     Vwap.walk fuel' stats (Vwap.nextDay currentDate) endDate
               (snd (Vwap.dayRecord stats currentDate last)) = Some rest).
Proof.
  destruct fuel as [|fuel]; cbn [Vwap.walk];
    destruct (Vwap.Date_leb currentDate endDate) eqn:E1;
    destruct (Vwap.Date_ltb currentDate Vwap.SAFETY_YEAR_LIMIT) eqn:E2;
    cbn [andb]; try discriminate;
    try (intros [= <-]; now left).
  destruct (Vwap.dayRecord stats currentDate last) as [r last'].
  destruct (Vwap.walk fuel stats (Vwap.nextDay currentDate) endDate last')
    as [rest|] eqn:Er; [|discriminate].
  intros [= <-]. right. repeat split. exists fuel, rest. now repeat split.
Qed.

(** The dates of the records are those of successive days. *)
Lemma walk_dates (fuel : nat) :
  forall currentDate last records,
    Vwap.walk fuel stats currentDate endDate last = Some records ->
    map Vwap.date records =
    map Vwap.toISODate (Vwap.daysFrom (length records) currentDate).
Proof.
  induction fuel as [|fuel IH]; intros cur last records H;
    apply walk_step in H
      as [[_ ->] | (_ & _ & fuel' & rest & Ef & -> & Hrest)];
    try reflexivity; try discriminate Ef.
  injection Ef as <-.
  cbn [length Vwap.daysFrom map]. rewrite dayRecord_date.
  f_equal. exact (IH _ _ _ Hrest).
Qed.




End Days.





(** The series of the sample: three successive days. *)
Example vwap_series_sample :
  map Vwap.date Sample.vwapSeries =
  ["2025-08-05"; "2025-08-06"; "2025-08-07"]%string.
Proof. reflexivity. Qed.

(** ** Ledger lines written and read back *)

Lemma splitCsvLoop_open (r current : string) :
  Vwap.splitCsvLoop (String QUOTE r) current false =
  Vwap.splitCsvLoop r current true.
Proof. cbn [Vwap.splitCsvLoop]. rewrite Ascii.eqb_refl. now destruct r. Qed.

Lemma splitCsvLoop_comma (r current : string) :
  Vwap.splitCsvLoop (String COMMA r) current false =
  current :: Vwap.splitCsvLoop r EmptyString false.
Proof. reflexivity. Qed.

(** Characters that are neither a quote nor a comma are taken as they
    come. *)
Lemma splitCsvLoop_plain_run (s rest current : string) :
  (forall c, In c (list_ascii_of_string s) ->
     Ascii.eqb c QUOTE = false /\ Ascii.eqb c COMMA = false) ->
  Vwap.splitCsvLoop (s +:+ rest) current false =
  Vwap.splitCsvLoop rest (current +:+ s) false.
Proof.
  revert current. induction s as [|c s IH]; intros current H.
  - now rewrite app_empty_l, app_empty_r.
  - destruct (H c (or_introl eq_refl)) as [Hq Hc].
    rewrite app_cons. cbn [Vwap.splitCsvLoop]. rewrite Hq, Hc. cbn [andb].
    rewrite IH by (intros x Hx; apply H; now right).
    now rewrite app_assoc_s, app_cons, app_empty_l.
Qed.

(** Inside quotes, up to the closing quote. *)
Lemma splitCsvLoop_quoted (s rest current : string) :
  rest = EmptyString \/ (exists r, rest = String COMMA r) ->
  Vwap.splitCsvLoop (doubleQuotes s +:+ String QUOTE rest) current true =
  Vwap.splitCsvLoop rest (current +:+ s) false.
Proof.
  intros Hrest. revert current. induction s as [|c s IH]; intros current.
  - cbn [doubleQuotes]. rewrite app_empty_l, app_empty_r.
    cbn [Vwap.splitCsvLoop]. rewrite Ascii.eqb_refl.
    destruct Hrest as [-> | [r ->]]; reflexivity.
  - cbn [doubleQuotes]. destruct (Ascii.eqb_spec c QUOTE) as [-> | Hne].
    + rewrite !app_cons. cbn [Vwap.splitCsvLoop]. rewrite !Ascii.eqb_refl.
      cbn [andb]. rewrite IH.
      now rewrite app_assoc_s, app_cons, app_empty_l.
    + rewrite app_cons. cbn [Vwap.splitCsvLoop].
      apply Ascii.eqb_neq in Hne. rewrite Hne. cbn [negb andb].
      rewrite andb_false_r, IH.
      now rewrite app_assoc_s, app_cons, app_empty_l.
Qed.

(** One written field, up to the comma or the end after it. *)
Lemma splitCsvLoop_field (v : JSValue) (rest current : string) :
  rest = EmptyString \/ (exists r, rest = String COMMA r) ->
  Vwap.splitCsvLoop (escapeCsv v +:+ rest) current false =
  Vwap.splitCsvLoop rest (current +:+ fieldText v) false.
Proof.
  intros Hrest.
  assert (Hs : forall s,
             Vwap.splitCsvLoop
               ((if hasChar COMMA s || hasChar QUOTE s || hasChar LF s
                 then String QUOTE (doubleQuotes s +:+ String QUOTE EmptyString)
                 else s) +:+ rest) current false =
             Vwap.splitCsvLoop rest (current +:+ s) false).
  { intros s.
    destruct (hasChar COMMA s) eqn:Hc; cbn [orb];
      [|destruct (hasChar QUOTE s) eqn:Hq; cbn [orb];
        [|destruct (hasChar LF s) eqn:Hl]].
    1, 2, 3: rewrite app_cons, splitCsvLoop_open, app_assoc_s, app_cons,
      app_empty_l; now apply splitCsvLoop_quoted.
    apply splitCsvLoop_plain_run. intros c Hin.
    split; [exact (hasChar_false _ _ Hq c Hin) | exact (hasChar_false _ _ Hc c Hin)]. }
  destruct v as [|s|x]; cbn [escapeCsv fieldText].
  - now rewrite app_empty_l, app_empty_r.
  - apply Hs.
  - apply Hs.
Qed.

Lemma concat_comma (a b : string) (l : list string) :
  String.concat "," (a :: b :: l) =
  a +:+ String COMMA (String.concat "," (b :: l)).
Proof. reflexivity. Qed.

Lemma splitCsvLoop_fields (vs : list JSValue) :
  forall v current,
    Vwap.splitCsvLoop (csvLine (v :: vs)) current false =
    (current +:+ fieldText v) :: map fieldText vs.
Proof.
  unfold csvLine, JS.join.
  induction vs as [|w vs IH]; intros v current.
  - cbn [map String.concat]. rewrite <- (app_empty_r (escapeCsv v)).
    rewrite splitCsvLoop_field by now left. reflexivity.
  - change (map escapeCsv (v :: w :: vs))
      with (escapeCsv v :: escapeCsv w :: map escapeCsv vs).
    rewrite concat_comma.
    change (escapeCsv w :: map escapeCsv vs) with (map escapeCsv (w :: vs)).
    rewrite splitCsvLoop_field by (right; eauto).
    rewrite splitCsvLoop_comma, IH. now rewrite app_empty_l.
Qed.

Lemma splitCsvLine_csvLine (values : list JSValue) :
  values <> [] ->
  Vwap.splitCsvLine (csvLine values) = map fieldText values.
Proof.
  destruct values as [|v vs]; [congruence|]. intros _.
  unfold Vwap.splitCsvLine. rewrite splitCsvLoop_fields.
  now rewrite app_empty_l.
Qed.

(** X1: a ledger line written from the values of a record is split by
    the reader of the VWAP script into the texts of these values, in
    order, whatever commas, quotes or line ends they hold; the text of
    [null] is empty. *)
Theorem csv_fields_round_trip (values : list JSValue) :
  values <> [] ->
  Vwap.splitCsvLine (csvLine values) = map fieldText values.
Proof.
  intros Hne. destruct values as [|v vs]; [congruence|].
  unfold Vwap.splitCsvLine. rewrite splitCsvLoop_fields.
  now rewrite app_empty_l.
Qed.

Lemma csv_fields_round_trip_witness :
  Vwap.splitCsvLine (csvLine Cases.trickyValues) =
  map fieldText Cases.trickyValues.
Proof. apply csv_fields_round_trip. discriminate. Defined.

Example csv_fields_sample :
  csvLine Cases.trickyValues =
    ("0xab," +:+ String QUOTE ("a,b" +:+ String QUOTE ",," +:+
     String QUOTE ("say " +:+ String QUOTE (String QUOTE ("hi" +:+
     String QUOTE (String QUOTE (String QUOTE ",1.5")))))))%string /\
  map fieldText Cases.trickyValues =
    ["0xab"; "a,b"; EmptyString; Cases.quotedText; "1.5"]%string.
Proof. vm_compute. split; reflexivity. Qed.

Lemma splitCsvLoop_unquoted (s : string) :
  hasChar QUOTE s = false ->
  forall current,
    Vwap.splitCsvLoop s current false =
    match JS.split "," s with
    | f :: fs => (current +:+ f) :: fs
    | [] => [current]
    end.
Proof.
  intros Hq. pose proof (hasChar_false _ _ Hq) as Hall. clear Hq.
  induction s as [|c s IH]; intros current.
  - cbn. now rewrite app_empty_r.
  - pose proof (Hall c (or_introl eq_refl)) as Hc.
    specialize (IH (fun x Hx => Hall x (or_intror Hx))).
    pose proof (split_nonempty "," s) as Hne.
    cbn [Vwap.splitCsvLoop JS.split]. rewrite Hc.
    change ","%char with COMMA in *.
    destruct (Ascii.eqb c COMMA); cbn [andb negb]; rewrite IH;
      destruct (JS.split COMMA s) as [|f fs]; try contradiction.
    + now rewrite app_empty_l, app_empty_r.
    + now rewrite app_assoc_s, app_cons, app_empty_l.
Qed.

(** X2: on a line without a double quote, the reader of the VWAP script
    and the reader of the resume index, which cuts at every comma, see
    the same fields. *)
Theorem unquoted_line_fields (line : string) :
  hasChar QUOTE line = false ->
  Vwap.splitCsvLine line = JS.split "," line.
Proof.
  intros Hq. unfold Vwap.splitCsvLine. rewrite splitCsvLoop_unquoted by exact Hq.
  pose proof (split_nonempty "," line) as Hne.
  destruct (JS.split "," line) as [|f fs]; [contradiction|].
  now rewrite app_empty_l.
Qed.

Lemma unquoted_line_fields_witness :
  Vwap.splitCsvLine Cases.plainLine = JS.split "," Cases.plainLine.
Proof. apply unquoted_line_fields. reflexivity. Defined.

(** *** Lines *)

Lemma readLines_line (l rest : string) :
  (forall c, In c (list_ascii_of_string l) ->
     Ascii.eqb c LF = false /\ Ascii.eqb c CR = false) ->
  readLines (l +:+ String LF rest) = l :: readLines rest.
Proof.
  induction l as [|c l IH]; intros H.
  - rewrite app_empty_l. cbn [readLines]. now rewrite Ascii.eqb_refl.
  - destruct (H c (or_introl eq_refl)) as [H1 H2].
    rewrite app_cons. cbn [readLines]. rewrite H1, H2.
    now rewrite IH by (intros x Hx; apply H; now right).
Qed.

Lemma doubleQuotes_chars (s : string) (c : ascii) :
  In c (list_ascii_of_string (doubleQuotes s)) ->
  In c (list_ascii_of_string s).
Proof.
  induction s as [|x s IH]; [easy|]. cbn [doubleQuotes].
  destruct (Ascii.eqb_spec x QUOTE) as [-> | Hne]; cbn; intuition.
Qed.

Lemma escapeCsv_chars (v : JSValue) (c : ascii) :
  In c (list_ascii_of_string (escapeCsv v)) ->
  c = QUOTE \/ In c (list_ascii_of_string (fieldText v)).
Proof.
  assert (Hs : forall s,
             In c (list_ascii_of_string
                     (if hasChar COMMA s || hasChar QUOTE s || hasChar LF s
                      then String QUOTE (doubleQuotes s +:+ String QUOTE EmptyString)
                      else s)) ->
             c = QUOTE \/ In c (list_ascii_of_string s)).
  { intros s. destruct (hasChar COMMA s || hasChar QUOTE s || hasChar LF s);
      [|now right].
    cbn [list_ascii_of_string In]. rewrite in_chars_app.
    intros [<- | [H | [<- | []]]]; auto. right. now apply doubleQuotes_chars. }
  destruct v as [|s|x]; cbn [escapeCsv fieldText]; [intros [] | apply Hs ..].
Qed.

Lemma csvLine_chars (values : list JSValue) (c : ascii) :
  In c (list_ascii_of_string (csvLine values)) ->
  c = QUOTE \/ c = COMMA \/
  exists v, In v values /\ In c (list_ascii_of_string (fieldText v)).
Proof.
  unfold csvLine, JS.join.
  induction values as [|v vs IH]; [intros []|].
  destruct vs as [|w vs].
  - cbn [map String.concat]. intros H. apply escapeCsv_chars in H as [H | H];
      [now left | right; right; exists v; split; [now left | exact H]].
  - change (map escapeCsv (v :: w :: vs))
      with (escapeCsv v :: escapeCsv w :: map escapeCsv vs).
    rewrite concat_comma, in_chars_app.
    intros [H | [<- | H]].
    + apply escapeCsv_chars in H as [H | H];
        [now left | right; right; exists v; split; [now left | exact H]].
    + right. now left.
    + destruct (IH H) as [Hq | [Hc | (x & Hx & Hin)]]; auto.
      right. right. exists x. split; [now right | exact Hin].
Qed.

Lemma oneLine_chars (v : JSValue) (c : ascii) :
  oneLine v = true -> In c (list_ascii_of_string (fieldText v)) ->
  Ascii.eqb c LF = false /\ Ascii.eqb c CR = false.
Proof.
  unfold oneLine. intros H Hin. apply andb_prop in H as [H1 H2].
  apply negb_true_iff in H1, H2.
  split; [exact (hasChar_false _ _ H1 c Hin) | exact (hasChar_false _ _ H2 c Hin)].
Qed.

Lemma csvLine_oneLine (values : list JSValue) (c : ascii) :
  List.Forall (fun v => oneLine v = true) values ->
  In c (list_ascii_of_string (csvLine values)) ->
  Ascii.eqb c LF = false /\ Ascii.eqb c CR = false.
Proof.
  intros Hall Hin. apply csvLine_chars in Hin as [-> | [-> | (v & Hv & Hin)]].
  - now split.
  - now split.
  - apply (oneLine_chars v); [|exact Hin].
    exact (proj1 (List.Forall_forall _ _) Hall v Hv).
Qed.

Lemma readLines_rendered (records : list (list JSValue)) :
  List.Forall (List.Forall (fun v => oneLine v = true)) records ->
  readLines (rendered records) = map csvLine records.
Proof.
  induction records as [|r rs IH]; intros H; [reflexivity|].
  inversion H as [|? ? Hr Hrs]; subst. cbn [rendered map].
  rewrite readLines_line by (intros c; now apply csvLine_oneLine).
  now rewrite IH.
Qed.

(** X3: the text appended for a window of records, none of them empty
    and none holding a line end in a value, is read back line by line
    and field by field as the texts of the values of these records. *)
Theorem ledger_lines_round_trip (records : list (list JSValue)) :
  records <> [] ->
  List.Forall (fun r => r <> []) records ->
  List.Forall (List.Forall (fun v => oneLine v = true)) records ->
  map Vwap.splitCsvLine (readLines (appendedText records)) =
  map (map fieldText) records.
Proof.
  intros Hne Hfull Hlines.
  rewrite appendedText_rendered by exact Hne.
  rewrite readLines_rendered by exact Hlines.
  rewrite map_map. apply map_ext_in. intros r Hr.
  apply splitCsvLine_csvLine.
  exact (proj1 (List.Forall_forall _ _) Hfull r Hr).
Qed.

Lemma ledger_lines_round_trip_witness :
  map Vwap.splitCsvLine (readLines (appendedText Cases.twoRecords)) =
  map (map fieldText) Cases.twoRecords.
Proof.
  apply ledger_lines_round_trip.
  - discriminate.
  - repeat constructor; discriminate.
  - repeat constructor; vm_compute; reflexivity.
Defined.

(** X4: the reader of the VWAP script finds every column of a row of
    variant A where the writer put it: the timestamp in field 2, the
    name of the contract in field 6, the symbols of token in and token
    out in fields 9 and 12, the cNGN amount and the USD value, as the
    numbers are printed, in fields 14 and 15, and the pool name in
    field 17; a row has 21 fields. *)
Theorem vwap_reads_variantA_columns (r : VariantA.Row) :
  let parts := Vwap.splitCsvLine (csvLine (VariantA.rowValues r)) in
  length parts = 21%nat /\
  Vwap.part parts 0 = VariantA.transaction_hash r /\
  Vwap.part parts 2 = VariantA.row_timestamp r /\
  Vwap.part parts 6 = VariantA.interacted_contract_name r /\
  Vwap.part parts 9 = VariantA.token_in_symbol r /\
  Vwap.part parts 12 = VariantA.token_out_symbol r /\
  Vwap.part parts 14 = JS.NumberToString (VariantA.cngn_amount r) /\
  Vwap.part parts 15 = JS.NumberToString (VariantA.usd_value r) /\
  Vwap.part parts 17 = VariantA.pool_name r.
Proof.
  intros parts. subst parts.
  rewrite splitCsvLine_csvLine by discriminate.
  unfold VariantA.rowValues. cbn [map fieldText toString Vwap.part nth length].
  now repeat split.
Qed.

(** ** Block times and date keys *)

Lemma replaceFirst_app (c by_ : ascii) (d rest : string) :
  (forall x, In x (list_ascii_of_string d) -> Ascii.eqb x c = false) ->
  replaceFirst c by_ (d +:+ String c rest) = d +:+ String by_ rest.
Proof.
  induction d as [|x d IH]; intros H.
  - rewrite !app_empty_l. cbn [replaceFirst]. now rewrite Ascii.eqb_refl.
  - rewrite !app_cons. cbn [replaceFirst].
    rewrite (H x (or_introl eq_refl)).
    now rewrite IH by (intros y Hy; apply H; now right).
Qed.

Lemma substring_app (d rest : string) (n : nat) :
  String.substring 0 (String.length d + n) (d +:+ rest) =
  d +:+ String.substring 0 n rest.
Proof.
  induction d as [|x d IH]; [now rewrite !app_empty_l|].
  rewrite !app_cons. cbn [String.length Nat.add String.substring].
  now rewrite IH.
Qed.

(** X5: for a block time made of a date, the letter T and a time, where
    the date has at most 15 characters and neither a T nor a space,
    the date key that the VWAP script takes from the timestamp the
    pipeline writes is that date. *)
Theorem block_date_key (d rest : string) :
  (String.length d <= 15)%nat ->
  (forall x, In x (list_ascii_of_string d) ->
     Ascii.eqb x "T" = false /\ Ascii.eqb x " " = false) ->
  Vwap.parseDate (formatBlockTime (d +:+ String "T" rest)) = d.
Proof.
  intros Hlen Hd. unfold formatBlockTime.
  assert (Ht : JS.truthy (d +:+ String "T" rest) = true) by now destruct d.
  rewrite Ht, replaceFirst_app by (intros x Hx; apply Hd; exact Hx).
  replace 16%nat with (String.length d + (16 - String.length d))%nat by lia.
  rewrite substring_app.
  destruct (16 - String.length d)%nat as [|n] eqn:En; [lia|].
  cbn [String.substring]. unfold Vwap.parseDate.
  assert (Ht' : JS.truthy (d +:+ String " " (String.substring 0 n rest)) = true)
    by now destruct d.
  rewrite Ht', split_app_sep by (intros x Hx; apply Hd; exact Hx).
  reflexivity.
Qed.

Lemma block_date_key_witness :
  Vwap.parseDate (formatBlockTime Cases.blockTime) = "2025-08-05"%string.
Proof.
  apply (block_date_key "2025-08-05" "10:04:31.000000Z").
  - vm_compute. lia.
  - intros x Hx. cbn in Hx.
    repeat (destruct Hx as [<- | Hx]; [split; reflexivity|]). destruct Hx.
Defined.

(** ** What the VWAP reading keeps of the ledger *)

Lemma onLine_lineTrade (st : Vwap.Reading) (line : string) :
  Vwap.isFirstLine st = false ->
  Vwap.onLine st line =
  match VwapRows.lineTrade line with
  | Some trade => Vwap.addTrade st trade
  | None => st
  end.
Proof.
  intros H. unfold Vwap.onLine, VwapRows.lineTrade. rewrite H.
  destruct (negb (JS.truthy line) || _); [reflexivity|].
  destruct (length _ <? 18)%nat; reflexivity.
Qed.

Lemma addTrade_first (st : Vwap.Reading) (trade : string * float * float) :
  Vwap.isFirstLine (Vwap.addTrade st trade) = Vwap.isFirstLine st.
Proof. now destruct trade as [[k c] u]. Qed.

Lemma trades_cons (line : string) (lines : list string) :
  VwapRows.trades (line :: lines) =
  match VwapRows.lineTrade line with
  | Some trade => trade :: VwapRows.trades lines
  | None => VwapRows.trades lines
  end.
Proof. reflexivity. Qed.

Lemma fold_onLine (lines : list string) :
  forall st,
    Vwap.isFirstLine st = false ->
    fold_left Vwap.onLine lines st =
    fold_left Vwap.addTrade (VwapRows.trades lines) st.
Proof.
  induction lines as [|line lines IH]; intros st H; [reflexivity|].
  rewrite trades_cons. cbn [fold_left]. rewrite (onLine_lineTrade st line H).
  destruct (VwapRows.lineTrade line) as [trade|]; cbn [fold_left].
  - apply IH. now rewrite addTrade_first.
  - now apply IH.
Qed.

Lemma readAll_trades (first : string) (lines : list string) :
  Vwap.readAll (first :: lines) =
  fold_left Vwap.addTrade (VwapRows.trades lines) VwapRows.afterHeader.
Proof.
  unfold Vwap.readAll. cbn [fold_left].
  change (Vwap.onLine Vwap.startReading first) with VwapRows.afterHeader.
  now apply fold_onLine.
Qed.

(** X6: the series depends on the ledger only through the rows that
    count, in their order: the first line, whatever it holds, the blank
    lines, the lines with fewer than 18 fields and the rows that do not
    qualify can be changed, added or removed without changing it. *)
Theorem series_of_counted_rows (first first' : string)
    (lines lines' : list string) :
  Vwap.readAll (first :: lines) =
    fold_left Vwap.addTrade (VwapRows.trades lines) VwapRows.afterHeader /\
  (VwapRows.trades lines = VwapRows.trades lines' ->
   Vwap.calculateVWAP (first :: lines) = Vwap.calculateVWAP (first' :: lines')) /\
  (forall pre line post,
     VwapRows.lineTrade line = None ->
     Vwap.calculateVWAP (first :: pre ++ line :: post) =
     Vwap.calculateVWAP (first :: pre ++ post)).
Proof.
  split; [apply readAll_trades|]. split.
  - intros E. unfold Vwap.calculateVWAP. now rewrite !readAll_trades, E.
  - intros pre line post Hl. unfold Vwap.calculateVWAP.
    rewrite !readAll_trades. unfold VwapRows.trades.
    rewrite !omap_app. fold (VwapRows.trades (line :: post)).
    now rewrite trades_cons, Hl.
Qed.

(** X7: without a row that counts, the script writes nothing: so for an
    empty ledger, for one that holds its header only, and for one whose
    only trade is on its first line. *)
Theorem no_trades_no_series (lines : list string) :
  VwapRows.trades (tail lines) = [] ->
  Vwap.calculateVWAP lines = Vwap.NoTrades.
Proof.
  destruct lines as [|first lines]; [reflexivity|]. cbn [tail]. intros E.
  unfold Vwap.calculateVWAP. now rewrite readAll_trades, E.
Qed.

Lemma no_trades_no_series_witness :
  Vwap.calculateVWAP [Sample.swapUsdt; Sample.otherContract] = Vwap.NoTrades.
Proof. apply no_trades_no_series. vm_compute. reflexivity. Defined.

(** *** The buckets *)

Lemma sumFor_snoc (k : string) (amount : string * float * float -> float)
    (ts : list (string * float * float)) (t : string * float * float) :
  VwapRows.sumFor k amount (ts ++ [t]) =
  if String.eqb (VwapRows.dateOf t) k
  then (VwapRows.sumFor k amount ts + amount t)%float
  else VwapRows.sumFor k amount ts.
Proof. unfold VwapRows.sumFor. now rewrite fold_left_app. Qed.

Lemma sumFor_none (k : string) (amount : string * float * float -> float)
    (ts : list (string * float * float)) :
  existsb (fun t => String.eqb (VwapRows.dateOf t) k) ts = false ->
  VwapRows.sumFor k amount ts = PrimFloat.zero.
Proof.
  induction ts as [|t ts IH] using rev_ind; [reflexivity|].
  rewrite existsb_app, sumFor_snoc. cbn [existsb].
  intros H. apply orb_false_elim in H as [H1 H2].
  rewrite orb_false_r in H2. rewrite H2. now apply IH.
Qed.

(** X8: after the reading, a date has a bucket exactly when a row that
    counts bears it, and the two totals of the bucket are the sums, from
    0 and in the order of the ledger, of the USD values and of the cNGN
    amounts of the rows of that date. *)
Theorem bucket_sums (first : string) (lines : list string) (k : string) :
  Vwap.dailyStats (Vwap.readAll (first :: lines)) !! k =
  if existsb (fun t => String.eqb (VwapRows.dateOf t) k)
             (VwapRows.trades lines)
  then Some {| Vwap.totalUsd :=
                 VwapRows.sumFor k VwapRows.usdOf (VwapRows.trades lines);
               Vwap.totalCngn :=
                 VwapRows.sumFor k VwapRows.cngnOf (VwapRows.trades lines) |}
  else None.
Proof.
  rewrite readAll_trades.
  induction (VwapRows.trades lines) as [|t ts IH] using rev_ind;
    [apply lookup_empty|].
  rewrite fold_left_app, existsb_app, !sumFor_snoc. cbn [fold_left existsb].
  rewrite orb_false_r.
  set (st := fold_left Vwap.addTrade ts VwapRows.afterHeader) in *.
  destruct t as [[dateKey c] u].
  cbn [Vwap.addTrade Vwap.dailyStats VwapRows.dateOf VwapRows.usdOf
       VwapRows.cngnOf fst snd].
  destruct (String.eqb_spec dateKey k) as [-> | Hne].
  - rewrite lookup_insert_eq, orb_true_r, IH.
    destruct (existsb _ ts) eqn:Ex; cbn [default Vwap.totalUsd Vwap.totalCngn].
    + reflexivity.
    + now rewrite !sumFor_none by exact Ex.
  - rewrite lookup_insert_ne by exact Hne. now rewrite orb_false_r.
Qed.

(** *** The end of the walk *)



(** ** The extraction of the trades *)

Lemma splitCsvLoop_nonempty (line current : string) (inQuotes : bool) :
  Vwap.splitCsvLoop line current inQuotes <> [].
Proof.
  remember (String.length line) as n eqn:Hn.
  revert line current inQuotes Hn.
  induction n as [n IH] using lt_wf_ind. intros line current inQuotes Hn.
  destruct line as [|c r]; [discriminate|].
  cbn [Vwap.splitCsvLoop]. destruct (Ascii.eqb c QUOTE).
  - destruct r as [|c' r'].
    + discriminate.
    + destruct (inQuotes && Ascii.eqb c' QUOTE).
      * apply (IH (String.length r')); [simpl in Hn; lia | reflexivity].
      * apply (IH (String.length (String c' r'))); [simpl in *; lia | reflexivity].
  - destruct (Ascii.eqb c COMMA && negb inQuotes); [discriminate|].
    apply (IH (String.length r)); [simpl in Hn; lia | reflexivity].
Qed.

Lemma written_app (a b : list string) :
  Extract.written (a ++ b) = Extract.written a +:+ Extract.written b.
Proof.
  induction a as [|l a IH]; [reflexivity|].
  cbn [app Extract.written]. now rewrite IH, app_assoc_s, app_cons.
Qed.

(** The lines after the first, for the headers [hs]. *)
Lemma fold_onLine_matching (hs : list string) (lines : list string) :
  hs <> [] ->
  forall out n,
    fold_left Extract.onLine lines
      {| Extract.headers := hs; Extract.output := out; Extract.count := n |} =
    {| Extract.headers := hs;
       Extract.output :=
         out +:+ Extract.written (List.filter (Extract.matches hs) lines);
       Extract.count :=
         n + Z.of_nat (length (List.filter (Extract.matches hs) lines)) |}.
Proof.
  intros Hne. induction lines as [|line lines IH]; intros out n.
  - cbn. now rewrite app_empty_r, Z.add_0_r.
  - cbn [fold_left List.filter]. unfold Extract.onLine at 2.
    cbn [Extract.headers Extract.output Extract.count].
    destruct hs as [|h hs']; [congruence|].
    destruct (Extract.matches (h :: hs') line).
    + rewrite IH. cbn [Extract.written length]. f_equal.
      * now rewrite !app_assoc_s, app_cons, app_empty_l.
      * lia.
    + apply IH.
Qed.

Lemma extractTrades_lines (first : string) (lines : list string) :
  let hs := Vwap.splitCsvLine first in
  Extract.extractTrades (first :: lines) =
  {| Extract.headers := hs;
     Extract.output :=
       Extract.written (first :: List.filter (Extract.matches hs) lines);
     Extract.count :=
       Z.of_nat (length (List.filter (Extract.matches hs) lines)) |}.
Proof.
  intros hs. unfold Extract.extractTrades. cbn [fold_left].
  unfold Extract.onLine at 2. cbn [Extract.start Extract.headers
    Extract.output Extract.count].
  fold hs. rewrite fold_onLine_matching by apply splitCsvLoop_nonempty.
  cbn [Extract.written]. f_equal.
  now rewrite app_empty_l, app_assoc_s, app_cons, app_empty_l.
Qed.

(** X10: the trades file holds the first line of the ledger, whatever
    it is, and after it exactly the lines that match the criteria, in
    the order of the ledger, each with a line end; the count reported
    is the number of these lines; of an empty ledger nothing is
    written. *)
Theorem extract_keeps_matching_lines (first : string) (lines : list string) :
  let hs := Vwap.splitCsvLine first in
  let kept := List.filter (Extract.matches hs) lines in
  Extract.output (Extract.extractTrades (first :: lines)) =
    Extract.written (first :: kept) /\
  Extract.count (Extract.extractTrades (first :: lines)) =
    Z.of_nat (length kept) /\
  Extract.output (Extract.extractTrades []) = EmptyString.
Proof.
  intros hs kept. rewrite extractTrades_lines. now repeat split.
Qed.

Lemma readLines_written (lines : list string) :
  List.Forall (fun l => hasChar LF l = false /\ hasChar CR l = false) lines ->
  readLines (Extract.written lines) = lines.
Proof.
  induction lines as [|l ls IH]; intros H; [reflexivity|].
  inversion H as [|? ? [Hl Hc] Hls]; subst. cbn [Extract.written].
  rewrite readLines_line, IH; [reflexivity | exact Hls |].
  intros c Hin. split;
    [exact (hasChar_false _ _ Hl c Hin) | exact (hasChar_false _ _ Hc c Hin)].
Qed.

Lemma filter_idem {A : Type} (f : A -> bool) (l : list A) :
  List.filter f (List.filter f l) = List.filter f l.
Proof.
  induction l as [|x l IH]; [reflexivity|]. cbn [List.filter].
  destruct (f x) eqn:E; [|exact IH]. cbn [List.filter]. now rewrite E, IH.
Qed.

Lemma Forall_filter' {A : Type} (P : A -> Prop) (f : A -> bool) (l : list A) :
  List.Forall P l -> List.Forall P (List.filter f l).
Proof.
  induction 1 as [|x l Hx Hl IH]; [constructor|]. cbn [List.filter].
  destruct (f x); [constructor|]; assumption.
Qed.

(** X11: run on the trades file it wrote, the extraction writes the
    same file again and reports the same count, when the lines hold no
    line end of their own (the lines of [readline] hold none). *)
Theorem extract_idempotent (lines : list string) :
  List.Forall (fun l => hasChar LF l = false /\ hasChar CR l = false) lines ->
  Extract.extractTrades
    (readLines (Extract.output (Extract.extractTrades lines))) =
  Extract.extractTrades lines.
Proof.
  intros H. destruct lines as [|first lines]; [reflexivity|].
  inversion H as [|? ? Hfirst Hlines]; subst.
  rewrite extractTrades_lines. cbn [Extract.output].
  rewrite readLines_written
    by (constructor; [exact Hfirst | now apply Forall_filter']).
  rewrite extractTrades_lines. now rewrite filter_idem.
Qed.

Lemma extract_idempotent_witness :
  Extract.extractTrades
    (readLines (Extract.output (Extract.extractTrades Cases.fullLedger))) =
  Extract.extractTrades Cases.fullLedger.
Proof.
  apply extract_idempotent. repeat constructor.
Defined.

Example extract_sample :
  Extract.output (Extract.extractTrades Cases.fullLedger) =
    Extract.written [JS.join "," VariantA.CSV_HEADERS;
                     Cases.routerRow "0x01"; Cases.routerRow "0x03"] /\
  Extract.count (Extract.extractTrades Cases.fullLedger) = 2.
Proof. vm_compute. split; reflexivity. Qed.

(** *** Against the ledger of variant A *)

Lemma headers_variantA :
  Vwap.splitCsvLine (JS.join "," VariantA.CSV_HEADERS) = VariantA.CSV_HEADERS.
Proof. reflexivity. Qed.

Lemma matches_variantA (line : string) :
  Extract.matches VariantA.CSV_HEADERS line =
  String.eqb (JS.toLowerCase (Vwap.part (Vwap.splitCsvLine line) 5))
             Extract.TARGET_ADDRESS &&
  String.eqb (Vwap.part (Vwap.splitCsvLine line) 6) Extract.TARGET_NAME.
Proof.
  unfold Extract.matches. generalize (Vwap.splitCsvLine line). intros parts.
  reflexivity.
Qed.

(** X12: under the header that variant A writes, a line is taken into
    the trades file exactly when its contract name is SwapRouter, the
    test of the VWAP script, and its contract address is, in any letter
    case, the address of the router: every row taken passes the router
    test of the VWAP script. *)
Theorem extract_agrees_with_router_test (line : string) :
  let hs := Vwap.splitCsvLine (JS.join "," VariantA.CSV_HEADERS) in
  let parts := Vwap.splitCsvLine line in
  (Extract.matches hs line = true <->
   Vwap.isSwapRouter parts = true /\
   JS.toLowerCase (Vwap.part parts 5) = Extract.TARGET_ADDRESS) /\
  (Extract.matches hs line = true -> Vwap.routedThroughRouter parts).
Proof.
  intros hs parts. subst hs. rewrite headers_variantA, matches_variantA.
  fold parts. unfold Vwap.isSwapRouter, Vwap.routedThroughRouter,
    Extract.TARGET_NAME.
  rewrite andb_true_iff, !String.eqb_eq. tauto.
Qed.

(** ** The requests of the list endpoint *)

Lemma backoff_firstn (j n : nat) (delay : float) :
  (j <= n)%nat -> firstn j (Api.backoff n delay) = Api.backoff j delay.
Proof.
  revert n delay. induction j as [|j IH]; intros n delay H; [reflexivity|].
  destruct n as [|n]; [lia|]. cbn [Api.backoff firstn].
  now rewrite IH by lia.
Qed.

Lemma fetchLoop_policy (upstream : nat -> Api.Params -> Api.Reply)
    (params : Api.Params) (retries : nat) :
  forall delay k,
  exists j,
    (j <= retries)%nat /\
    snd (Api.fetchLoop upstream params retries delay k) = Api.backoff j delay /\
    (forall i, (i < j)%nat -> Api.retriedAt upstream params (k + i)) /\
    (j = retries ->
     fst (Api.fetchLoop upstream params retries delay k) = Api.noItems) /\
    ((j < retries)%nat ->
     Api.settledAt upstream params (k + j)
       (fst (Api.fetchLoop upstream params retries delay k))).
Proof.
  induction retries as [|retries IH]; intros delay k.
  - exists O. cbn. repeat split; intros; try lia; reflexivity.
  - cbn [Api.fetchLoop].
    destruct (upstream k params) as [[data|]|error] eqn:E.
    + exists O. cbn. split; [lia|]. split; [reflexivity|].
      split; [intros i Hi; lia|]. split; [discriminate|]. intros _.
      rewrite Nat.add_0_r. left. exists data. now split.
    + exists O. cbn. split; [lia|]. split; [reflexivity|].
      split; [intros i Hi; lia|]. split; [discriminate|]. intros _.
      rewrite Nat.add_0_r. right. left. now split.
    + destruct (Api.retryable error) eqn:Er.
      * destruct (IH (delay * 2)%float (S k)) as (j & Hj & Hs & Hall & Hmax & Hset).
        destruct (Api.fetchLoop upstream params retries (delay * 2)%float (S k))
          as [r sleeps].
        cbn [fst snd] in *. exists (S j). split; [lia|].
        split; [cbn [Api.backoff]; now rewrite Hs|].
        split; [|split].
        -- intros i Hi. destruct i as [|i].
           ++ rewrite Nat.add_0_r. exists error. now split.
           ++ replace (k + S i)%nat with (S k + i)%nat by lia.
              apply Hall. lia.
        -- intros Ej. apply Hmax. lia.
        -- intros Hlt. replace (k + S j)%nat with (S k + j)%nat by lia.
           apply Hset. lia.
      * exists O. cbn. split; [lia|]. split; [reflexivity|].
        split; [intros i Hi; lia|]. split; [discriminate|]. intros _.
        rewrite Nat.add_0_r. right. right. exists error. now repeat split.
Qed.

(** X13: [fetchTokenTransfersList] makes at most 15 requests.  A
    request that fails with a timeout or with status 429 is followed by
    a sleep, of 2000 ms after the first and of twice the one before
    after each other, and is made again; the first request that does
    not fail so ends the call: with the items of the response, an
    absent list counting as the empty one, and its cursor, or with no
    items and no cursor when the response has no data or the error is
    another one; after 15 such failures the call ends with no items and
    no cursor, having slept 65 534 000 ms in all. *)
Theorem list_fetch_policy (upstream : nat -> Api.Params -> Api.Reply)
    (limit : float) (nextPageParams : option Api.Params) :
  let params := Api.requestParams limit nextPageParams in
  let result := fst (Api.fetchTokenTransfersList upstream limit nextPageParams) in
  let sleeps := snd (Api.fetchTokenTransfersList upstream limit nextPageParams) in
  (exists j,
     (j <= 15)%nat /\
     sleeps = firstn j (Api.backoff 15 2000) /\
     (forall i, (i < j)%nat -> Api.retriedAt upstream params i) /\
     (j = 15%nat -> result = Api.noItems) /\
     ((j < 15)%nat -> Api.settledAt upstream params j result)) /\
  Api.backoff 15 2000 =
    [2000; 4000; 8000; 16000; 32000; 64000; 128000; 256000; 512000;
     1024000; 2048000; 4096000; 8192000; 16384000; 32768000]%float /\
  fold_left PrimFloat.add (Api.backoff 15 2000) 0%float = 65534000%float.
Proof.
  intros params result sleeps. split; [|split; reflexivity].
  destruct (fetchLoop_policy upstream params 15 2000%float 0)
    as (j & Hj & Hs & Hall & Hmax & Hset).
  exists j. split; [exact Hj|].
  split; [rewrite backoff_firstn by exact Hj; exact Hs|].
  split; [exact Hall|]. split; [exact Hmax | exact Hset].
Qed.

Example list_fetch_sample :
  Api.fetchTokenTransfersList Cases.flaky 1000 None =
  ({| Api.list_items := [{| item_transaction_hash := Some "0x01" |}];
      Api.list_next_page_params := None |}, [2000; 4000]%float) /\
  fst (Api.fetchTokenTransfersList (fun _ _ => Cases.tooMany) 1000 None) =
    Api.noItems.
Proof. vm_compute. split; reflexivity. Qed.

(** X14: the query of a request holds every entry of the cursor, and
    the item count asked for only when the cursor names none: a cursor
    with an item count of its own overrides the one the caller asks
    for. *)
Theorem cursor_overrides_limit (limit : float) (cursor : Api.Params) :
  (forall key v,
     cursor !! key = Some v ->
     Api.requestParams limit (Some cursor) !! key = Some v) /\
  (cursor !! "items_count"%string = None ->
   Api.requestParams limit (Some cursor) !! "items_count"%string =
     Some (VNum limit)) /\
  (forall key,
     key <> "items_count"%string -> cursor !! key = None ->
     Api.requestParams limit (Some cursor) !! key = None) /\
  Api.requestParams limit None = {[ "items_count"%string := VNum limit ]}.
Proof.
  unfold Api.requestParams, Api.Params. cbv zeta. split; [|split; [|split]].
  - intros key v H. now apply lookup_union_Some_l.
  - intros H. rewrite lookup_union_r by exact H. apply lookup_singleton_eq.
  - intros key Hne H. rewrite lookup_union_r by exact H.
    now apply lookup_singleton_ne.
  - reflexivity.
Qed.

Example cursor_sample :
  Api.requestParams 1000 (Some Cases.cursor) !! "items_count"%string =
  Some (VNum 50%float).
Proof. reflexivity. Qed.

(** ** A transaction of variant A at its first call *)

Lemma amountOf_returns (item : Transfer) :
  (forall raw, rawAmount item = Some raw -> JS.StringToBigInt raw <> None) ->
  exists x, VariantA.amountOf item = Return x.
Proof.
  intros H. unfold VariantA.amountOf.
  destruct (rawAmount item) as [raw|]; [|eauto].
  specialize (H raw eq_refl).
  unfold VariantA.decode, VariantA.decodeLiteral, JS.BigInt.
  destruct (JS.StringToBigInt raw) as [n|]; [|congruence].
  cbn [bindExc]. eauto.
Qed.

Lemma scan_returns (trader : string) (items : list Transfer) :
  (forall item raw, In item items -> rawAmount item = Some raw ->
     JS.StringToBigInt raw <> None) ->
  forall st, exists st',
    foldExc (VariantA.scanStep trader) items st = Return st'.
Proof.
  induction items as [|item items IH]; intros H st; [cbn; eauto|].
  cbn [foldExc]. unfold VariantA.scanStep at 1.
  destruct (amountOf_returns item) as [x ->].
  { intros raw. apply H. now left. }
  cbn [bindExc]. apply IH. intros i raw Hi. apply H. now right.
Qed.

(** X15: in variant A a transaction is settled at the first call of
    [processSingleTransaction], without a backoff, unless a raw amount
    of its transfers is not an integer literal.  A detail request that
    fails, with a rate limit as with anything else, is not made again:
    the transaction gives no row, as one whose detail is [null] or
    holds no cNGN transfer; a detail with a cNGN transfer gives one
    row, with the hash of the transaction. *)
Theorem variantA_settles_at_first_call
    (http : string -> nat -> Exc (option TxDetails))
    (random : string -> nat -> float) (h : string) :
  let process := fun h k =>
    VariantA.processSingleTransaction h
      (Api.fetchTransactionDetailsV2 (http h k)) in
  ((exists message, http h O = Throw message) \/ http h O = Return None ->
   retryLoop process random 3 0 h = (Some [], [])) /\
  (forall d,
     http h O = Return (Some d) ->
     existsb isCngn (VariantA.transferItems d) = false ->
     retryLoop process random 3 0 h = (Some [], [])) /\
  (forall d,
     http h O = Return (Some d) ->
     existsb isCngn (VariantA.transferItems d) = true ->
     (forall item raw,
        In item (VariantA.transferItems d) -> rawAmount item = Some raw ->
        JS.StringToBigInt raw <> None) ->
     exists row,
       retryLoop process random 3 0 h = (Some [row], []) /\
       VariantA.transaction_hash row = h).
Proof.
  intros process. subst process. cbn [retryLoop]. split; [|split].
  - intros [[message ->] | ->]; reflexivity.
  - intros d -> Hno. cbn [Api.fetchTransactionDetailsV2].
    unfold VariantA.processSingleTransaction. now rewrite Hno.
  - intros d -> Hyes Hraw. cbn [Api.fetchTransactionDetailsV2].
    unfold VariantA.processSingleTransaction. rewrite Hyes. cbn [negb].
    destruct (VariantA.interacted d) as [ia iname].
    destruct (scan_returns (hash (tx_from d)) (VariantA.transferItems d) Hraw
                VariantA.scanStart) as [st ->].
    cbn [bindExc].
    destruct (VariantA.tokenIn st) as [[a1 s1] x1].
    destruct (VariantA.tokenOut st) as [[a2 s2] x2].
    eexists. split; reflexivity.
Qed.

Example variantA_rate_limit_not_retried :
  retryLoop
    (fun h k => VariantA.processSingleTransaction h
       (Api.fetchTransactionDetailsV2
          (Throw "Request failed with status code 429")))
    (fun _ _ => 0%float) 3 0 "0x01" = (Some [], []).
Proof. reflexivity. Qed.

(** ** The rows of a transaction in variant B *)

Lemma mapExc_Forall2 {A B : Type} (f : A -> Exc B) (xs : list A) :
  forall ys, mapExc f xs = Return ys ->
  Forall2 (fun x y => f x = Return y) xs ys.
Proof.
  induction xs as [|x xs IH]; intros ys; cbn [mapExc].
  - intros [= <-]. constructor.
  - destruct (f x) as [y|] eqn:E; [|discriminate]. cbn [bindExc].
    destruct (mapExc f xs) as [ys'|]; [|discriminate]. cbn [bindExc].
    intros [= <-]. constructor; [exact E | now apply IH].
Qed.

Lemma rowFor_fields (h : string) (d : TxDetails) (items : list Transfer)
    (item : Transfer) (row : VariantB.Row) :
  VariantB.rowFor h d items item = Return row ->
  VariantB.cngnValue item = Return (VariantB.cngn_amount row) /\
  VariantB.transaction_hash row = h /\
  VariantB.block_time row = formatBlockTime (timestamp d).
Proof.
  unfold VariantB.rowFor.
  destruct (VariantB.identify item) as [[pa pn] tr].
  destruct (fold_left _ _ _) as [[ti to_] sym].
  destruct (VariantB.cngnValue item) as [cv|]; [|discriminate].
  cbn [bindExc].
  destruct (VariantB.usdValue items item cv) as [uv|]; [|discriminate].
  cbn [bindExc]. intros [= <-]. now repeat split.
Qed.

(** X16: in variant B a transaction gives one row for each of its cNGN
    transfers, in their order, each with the hash of the transaction,
    its block time and the decoded amount of its transfer; it gives no
    row when the detail, the transfers or their list are missing. *)
Theorem variantB_one_row_per_transfer (h : string) (d : TxDetails)
    (items : list Transfer) :
  (forall rows,
     VariantB.processSingleTransaction h (Some d)
       (Some {| VariantB.response_items := Some items |}) = Return rows ->
     Forall2 (fun item row =>
                VariantB.cngnValue item = Return (VariantB.cngn_amount row) /\
                VariantB.transaction_hash row = h /\
                VariantB.block_time row = formatBlockTime (timestamp d))
             (List.filter isCngn items) rows) /\
  (forall transfersResponse,
     VariantB.processSingleTransaction h None transfersResponse = Return []) /\
  VariantB.processSingleTransaction h (Some d) None = Return [] /\
  VariantB.processSingleTransaction h (Some d)
    (Some {| VariantB.response_items := None |}) = Return [].
Proof.
  split; [|now repeat split].
  intros rows H. cbn [VariantB.processSingleTransaction] in H.
  apply mapExc_Forall2 in H.
  induction H as [|item row its rows Hrow _ IH]; constructor; [|exact IH].
  now apply rowFor_fields in Hrow.
Qed.

Example variantB_two_transfers :
  exists rows,
    VariantB.processSingleTransaction "0xh1" (Some (Sample.details []))
      (Some {| VariantB.response_items :=
                 Some [Sample.cngnOut; Sample.usdcIn; Sample.cngnHop] |}) =
      Return rows /\
    length rows = 2%nat.
Proof. eexists. split; [vm_compute; reflexivity | reflexivity]. Qed.

(** ** What a run processes and counts *)

Section RunCounts.

Context {Row : Type}.
Variable rowValues : Row -> list JSValue.
Variable CSV_HEADERS : list string.
Variable TARGET_COUNT : Z.
Variable stopOnEmptyBatch : bool.
Variable process : string -> nat -> Exc (list Row).
Variable random : string -> nat -> float.

(** X17: in a run, no hash is handed to the processing twice, whatever
    the pages of the upstream repeat; every hash processed was listed
    by the upstream, was not in the index read at startup, and is in
    the set of seen hashes, which keeps that index. *)
Theorem run_processes_each_hash_once (content : string)
    (answers : list ListResponse) :
  let st := pipelineBatch rowValues CSV_HEADERS TARGET_COUNT
              stopOnEmptyBatch process random (Some content) answers in
  NoDup (map fst (trace st)) /\
  (forall h, In h (map fst (trace st)) ->
     In h (listedHashes answers) /\
     (h ∉ loadExistingHashes (Some content)) /\
     (h ∈ seenHashes st)) /\
  (loadExistingHashes (Some content) ⊆ seenHashes st).
Proof.
  intros st.
  destruct (pipelineBatch_inv rowValues (fun _ _ => True) CSV_HEADERS
              TARGET_COUNT stopOnEmptyBatch process random
              (fun h => In h (listedHashes answers))
              (fun _ _ _ _ => I) content answers (fun h Hh => Hh))
    as (Hsub & Hnd & Hall & _).
  fold st in Hsub, Hnd, Hall.
  split; [exact Hnd|]. split; [|exact Hsub].
  intros h Hh. destruct (Hall h Hh) as (H1 & H2 & H3). now repeat split.
Qed.

(** The count of saved records along a run that began with [R0]. *)
Lemma processChunk_count (R0 : Z) (st : State) (chunk : list string) :
  recordsSaved st = R0 + Z.of_nat (length (validResults (trace st))) ->
  let st' := processChunk rowValues process random st chunk in
  recordsSaved st' = R0 + Z.of_nat (length (validResults (trace st'))).
Proof.
  intros H st'. subst st'. unfold processChunk.
  cbn [recordsSaved trace]. rewrite validResults_app, List.length_app, H.
  destruct (validResults (map _ chunk)) as [|r rs]; cbn [length]; lia.
Qed.

Lemma burst_count (R0 : Z) (batch : list string) (fuel : nat) :
  forall i st,
    recordsSaved st = R0 + Z.of_nat (length (validResults (trace st))) ->
    let st' := burst rowValues process random fuel i batch st in
    recordsSaved st' = R0 + Z.of_nat (length (validResults (trace st'))).
Proof.
  induction fuel as [|fuel IH]; intros i st H; [exact H|].
  cbn [burst]. destruct (i <? length batch)%nat; [|exact H].
  apply IH. now apply processChunk_count.
Qed.

Lemma pipelineLoop_count (R0 : Z) (fuel : nat) :
  forall st,
    recordsSaved st = R0 + Z.of_nat (length (validResults (trace st))) ->
    let st' := pipelineLoop rowValues TARGET_COUNT stopOnEmptyBatch process
                 random fuel st in
    recordsSaved st' = R0 + Z.of_nat (length (validResults (trace st'))).
Proof.
  induction fuel as [|fuel IH]; intros st H; [exact H|].
  cbn [pipelineLoop].
  destruct (recordsSaved st <? TARGET_COUNT); [|exact H].
  set (c := collect (listing st) (seenHashes st) [] (nextPageParams st)).
  destruct (c_cut c); [exact H|].
  destruct (stopOnEmptyBatch && _); [exact H|].
  match goal with
  | |- context [burst _ _ _ ?f ?i ?b ?s] =>
      pose proof (burst_count R0 b f i s H) as H2;
      set (st2 := burst rowValues process random f i b s) in *
  end.
  cbv zeta in H2.
  destruct (TARGET_COUNT <=? recordsSaved st2); [exact H2|].
  destruct (_ && _); [exact H2|].
  now apply IH.
Qed.

(** X18: at the end of a run, the count of saved records is the number
    of hashes in the index read at startup plus the number of rows the
    run appended; and a run that finds as many hashes in the index as
    its target, or more, asks the upstream nothing, processes nothing
    and leaves the ledger as it was. *)
Theorem records_saved_accounting (content : string)
    (answers : list ListResponse) :
  let st := pipelineBatch rowValues CSV_HEADERS TARGET_COUNT
              stopOnEmptyBatch process random (Some content) answers in
  let known := Z.of_nat (size (loadExistingHashes (Some content))) in
  recordsSaved st = known + Z.of_nat (length (validResults (trace st))) /\
  (TARGET_COUNT <= known ->
   trace st = [] /\ ledger st = content /\ listing st = answers).
Proof.
  intros st known. split.
  - apply (pipelineLoop_count known). unfold known.
    cbn [recordsSaved trace]. change (validResults []) with (@nil Row).
    cbn [length]. lia.
  - intros Hfull. subst st. unfold pipelineBatch. cbn [pipelineLoop recordsSaved].
    fold known. rewrite (proj2 (Z.ltb_ge _ _) Hfull). now repeat split.
Qed.

End RunCounts.

(** ** From a transaction through the router to the trades file *)

Lemma processA_row (h : string) (d : TxDetails) (row : VariantA.Row) :
  VariantA.processSingleTransaction h (Some d) = Return [row] ->
  VariantA.interacted_contract_address row = fst (VariantA.interacted d) /\
  VariantA.interacted_contract_name row = snd (VariantA.interacted d).
Proof.
  unfold VariantA.processSingleTransaction.
  destruct (negb (existsb isCngn (VariantA.transferItems d))); [discriminate|].
  destruct (VariantA.interacted d) as [ia iname].
  destruct (foldExc _ _ _) as [st|msg]; [|discriminate].
  cbn [bindExc].
  destruct (VariantA.tokenIn st) as [[a1 s1] x1].
  destruct (VariantA.tokenOut st) as [[a2 s2] x2].
  intros [= <-]. now split.
Qed.

Lemma interacted_router (d : TxDetails) (t : Party) :
  tx_to d = Some t ->
  JS.toLowerCase (hash t) = Extract.TARGET_ADDRESS ->
  name t = None \/ name t = Some EmptyString \/
  name t = Some Extract.TARGET_NAME ->
  VariantA.interacted d = (hash t, Extract.TARGET_NAME).
Proof.
  intros Hto Haddr Hname. unfold VariantA.interacted. rewrite Hto, Haddr.
  destruct Hname as [-> | [-> | ->]]; reflexivity.
Qed.

(** X19: a transaction sent to the address of the router, in any letter
    case, which the explorer leaves without a name or names SwapRouter,
    is written by variant A with the contract name SwapRouter: its row
    is taken into the trades file and passes the router test of the
    VWAP script. *)
Theorem router_rows_are_extracted (h : string) (d : TxDetails) (t : Party)
    (row : VariantA.Row) :
  VariantA.processSingleTransaction h (Some d) = Return [row] ->
  tx_to d = Some t ->
  JS.toLowerCase (hash t) = Extract.TARGET_ADDRESS ->
  name t = None \/ name t = Some EmptyString \/
  name t = Some Extract.TARGET_NAME ->
  let line := csvLine (VariantA.rowValues row) in
  Extract.matches (Vwap.splitCsvLine (JS.join "," VariantA.CSV_HEADERS)) line
    = true /\
  Vwap.isSwapRouter (Vwap.splitCsvLine line) = true.
Proof.
  intros Hrow Hto Haddr Hname line.
  apply processA_row in Hrow as [Ha Hn].
  rewrite (interacted_router d t Hto Haddr Hname) in Ha, Hn.
  cbn [fst snd] in Ha, Hn.
  rewrite headers_variantA, matches_variantA. unfold Vwap.isSwapRouter.
  subst line. rewrite splitCsvLine_csvLine by discriminate.
  unfold VariantA.rowValues. cbn [map fieldText toString Vwap.part nth].
  rewrite Ha, Hn, Haddr. split; reflexivity.
Qed.

Lemma router_rows_are_extracted_witness :
  Vwap.isSwapRouter
    (Vwap.splitCsvLine (csvLine (VariantA.rowValues Cases.swapRow))) = true.
Proof.
  refine (proj2 (router_rows_are_extracted "0x01"
                   (Sample.details [Sample.cngnOut; Sample.usdcIn])
                   {| hash := "0xec2b2209d710d4283b5d1e29441df0dbb9cee5c3";
                      name := None; is_contract := true |}
                   Cases.swapRow _ _ _ _)).
  - vm_compute. reflexivity.
  - reflexivity.
  - reflexivity.
  - now left.
Defined.

(** ** The end of a run *)

Section RunEnds.

Context {Row : Type}.
Variable rowValues : Row -> list JSValue.
Variable TARGET_COUNT : Z.
Variable stopOnEmptyBatch : bool.
Variable process : string -> nat -> Exc (list Row).
Variable random : string -> nat -> float.




End RunEnds.

(** ** What the rows aggregate *)

Lemma scan_total (trader : string) (items : list Transfer) :
  forall st st',
    foldExc (VariantA.scanStep trader) items st = Return st' ->
    exists vals,
      mapExc VariantA.amountOf items = Return vals /\
      VariantA.cngnAmt st' = cngnTotal items vals (VariantA.cngnAmt st).
Proof.
  induction items as [|item items IH]; intros st st'.
  - cbn. intros [= <-]. exists []. now split.
  - cbn [foldExc mapExc]. unfold VariantA.scanStep at 1.
    destruct (VariantA.amountOf item) as [val|]; [|discriminate].
    cbn [bindExc]. intros H. apply IH in H as (vals & -> & Hsum).
    cbn [bindExc]. exists (val :: vals). split; [reflexivity|].
    rewrite Hsum. reflexivity.
Qed.

(** X21: the cNGN amount of a row of variant A is the sum, from 0 and in
    the order of the transfers, of the decoded amounts of all the cNGN
    transfers of the transaction, whoever sends or receives them; the
    row bears the sender of the transaction as trader and its formatted
    block time. *)
Theorem variantA_cngn_total (h : string) (d : TxDetails)
    (row : VariantA.Row) :
  VariantA.processSingleTransaction h (Some d) = Return [row] ->
  exists vals,
    mapExc VariantA.amountOf (VariantA.transferItems d) = Return vals /\
    VariantA.cngn_amount row =
      cngnTotal (VariantA.transferItems d) vals PrimFloat.zero /\
    VariantA.trader_address row = hash (tx_from d) /\
    VariantA.row_timestamp row = formatBlockTime (timestamp d).
Proof.
  unfold VariantA.processSingleTransaction.
  destruct (negb (existsb isCngn (VariantA.transferItems d))); [discriminate|].
  destruct (VariantA.interacted d) as [ia iname].
  destruct (foldExc _ _ _) as [st|msg] eqn:E; [|discriminate].
  apply scan_total in E as (vals & Hvals & Hsum).
  cbn [bindExc].
  destruct (VariantA.tokenIn st) as [[a1 s1] x1].
  destruct (VariantA.tokenOut st) as [[a2 s2] x2].
  intros [= <-]. exists vals. cbn. now repeat split.
Qed.

Lemma variantA_cngn_total_witness :
  VariantA.trader_address Cases.swapRow = "0xa1"%string /\
  VariantA.cngn_amount Cases.swapRow = 1%float.
Proof.
  destruct (variantA_cngn_total "0x01"
              (Sample.details [Sample.cngnOut; Sample.usdcIn]) Cases.swapRow)
    as (vals & Hvals & Hsum & Htrader & _); [vm_compute; reflexivity|].
  split; [exact Htrader|].
  vm_compute in Hvals. injection Hvals as <-. exact Hsum.
Defined.

Lemma last_shift {A : Type} (l : list A) :
  forall x d, List.last (x :: l) d = List.last l x.
Proof.
  induction l as [|y l IH]; intros x d; [reflexivity|].
  change (List.last (x :: y :: l) d) with (List.last (y :: l) d).
  now rewrite !IH.
Qed.

Lemma flow_symbol (trader : string) (items : list Transfer) :
  forall tokenIn tokenOut sym,
    snd (fold_left (VariantB.flowStep trader) items (tokenIn, tokenOut, sym)) =
    List.last (map (fun i => symbol (token i))
                   (List.filter (fun i => negb (isCngn i)) items)) sym.
Proof.
  induction items as [|item items IH]; intros tokenIn tokenOut sym;
    [reflexivity|].
  cbn [fold_left List.filter]. unfold VariantB.flowStep at 2.
  rewrite IH. destruct (isCngn item); cbn [negb]; [reflexivity|].
  cbn [map]. now rewrite last_shift.
Qed.

Lemma rowFor_pool (h : string) (d : TxDetails) (items : list Transfer)
    (item : Transfer) (row : VariantB.Row) :
  VariantB.rowFor h d items item = Return row ->
  VariantB.pool_name row =
    if JS.truthy (otherSymbol items)
    then Some ("cNGN / " +:+ otherSymbol items)
    else snd (fst (VariantB.identify item)).
Proof.
  unfold VariantB.rowFor, otherSymbol.
  destruct (VariantB.identify item) as [[pa pn] tr].
  pose proof (flow_symbol tr items None None EmptyString) as Hsym.
  destruct (fold_left _ _ _) as [[ti to_] sym]. cbn [snd] in Hsym.
  destruct (VariantB.cngnValue item) as [cv|]; [|discriminate].
  cbn [bindExc].
  destruct (VariantB.usdValue items item cv) as [uv|]; [|discriminate].
  cbn [bindExc]. intros [= <-]. cbn [VariantB.pool_name fst snd].
  now rewrite Hsym.
Qed.

(** X22: in variant B the pool name of a row does not depend on the
    cNGN transfer it stands for when the transaction holds a transfer
    of another token with a symbol: every row is then labelled cNGN /
    and the symbol of the last such transfer; otherwise a row bears the
    name of the pool-like party of its transfer, or none. *)
Theorem variantB_pool_label (h : string) (d : TxDetails)
    (items : list Transfer) (rows : list VariantB.Row) :
  VariantB.processSingleTransaction h (Some d)
    (Some {| VariantB.response_items := Some items |}) = Return rows ->
  (JS.truthy (otherSymbol items) = true ->
   List.Forall (fun row => VariantB.pool_name row =
                             Some ("cNGN / " +:+ otherSymbol items)) rows) /\
  (JS.truthy (otherSymbol items) = false ->
   Forall2 (fun item row =>
              VariantB.pool_name row = snd (fst (VariantB.identify item)))
           (List.filter isCngn items) rows).
Proof.
  intros H. cbn [VariantB.processSingleTransaction] in H.
  apply mapExc_Forall2 in H. split; intros Hsym.
  - induction H as [|item row its rows' Hrow _ IH]; constructor; [|exact IH].
    apply rowFor_pool in Hrow. now rewrite Hsym in Hrow.
  - induction H as [|item row its rows' Hrow _ IH]; constructor; [|exact IH].
    apply rowFor_pool in Hrow. now rewrite Hsym in Hrow.
Qed.

Lemma variantB_pool_label_witness :
  List.Forall (fun row => VariantB.pool_name row = Some "cNGN / USDC"%string)
              Cases.rowsB.
Proof.
  refine (proj1 (variantB_pool_label "0xh1" (Sample.details [])
                   Cases.mixedItems Cases.rowsB _) _).
  - vm_compute. reflexivity.
  - reflexivity.
Defined.

(** ** The file of the VWAP series *)

Lemma safe_empty : VwapOut.safe EmptyString.
Proof. intros c []. Qed.

Lemma safe_app (a b : string) : VwapOut.safe a -> VwapOut.safe b -> VwapOut.safe (a +:+ b).
Proof.
  intros Ha Hb c Hc. apply in_chars_app in Hc as [Hc | Hc]; auto.
Qed.

Lemma safe_cons (c : ascii) (s : string) :
  VwapOut.safeChar c = true -> VwapOut.safe s -> VwapOut.safe (String c s).
Proof. intros Hc Hs x [<- | Hx]; auto. Qed.

Lemma safe_digit (d : Z) : 0 <= d <= 9 -> VwapOut.safeChar (JS.digitChar d) = true.
Proof.
  intros H.
  assert (d = 0 \/ d = 1 \/ d = 2 \/ d = 3 \/ d = 4 \/ d = 5 \/ d = 6 \/
          d = 7 \/ d = 8 \/ d = 9) as E by lia.
  repeat (destruct E as [-> | E]; [reflexivity|]). now subst.
Qed.

Lemma decimalDigits_safe (fuel : nat) :
  forall n acc, VwapOut.safe acc -> VwapOut.safe (JS.decimalDigits fuel n acc).
Proof.
  induction fuel as [|fuel IH]; intros n acc Hacc; [exact Hacc|].
  cbn [JS.decimalDigits].
  assert (Hd : VwapOut.safe (String (JS.digitChar (n mod 10)) acc)).
  { apply safe_cons; [|exact Hacc]. apply safe_digit.
    pose proof (Z.mod_pos_bound n 10). lia. }
  destruct (n <? 10); [exact Hd | now apply IH].
Qed.

Lemma BigInt_toString_safe (n : Z) : VwapOut.safe (JS.BigInt_toString n).
Proof.
  unfold JS.BigInt_toString. destruct (n <? 0).
  - apply safe_cons; [reflexivity|]. apply decimalDigits_safe, safe_empty.
  - apply decimalDigits_safe, safe_empty.
Qed.

Lemma zeros_safe (k : nat) : VwapOut.safe (zeros k).
Proof.
  induction k as [|k IH]; [apply safe_empty|].
  cbn [zeros]. now apply safe_cons.
Qed.

Lemma substring_chars (s : string) :
  forall a b c,
    In c (list_ascii_of_string (String.substring a b s)) ->
    In c (list_ascii_of_string s).
Proof.
  induction s as [|x s IH]; intros a b c.
  - destruct a, b; intros [].
  - destruct a as [|a]; cbn [String.substring].
    + destruct b as [|b]; [intros []|].
      intros [<- | H]; [now left | right; exact (IH 0%nat b c H)].
    + intros H. right. exact (IH a b c H).
Qed.

Lemma substring_safe (s : string) (a b : nat) :
  VwapOut.safe s -> VwapOut.safe (String.substring a b s).
Proof. intros Hs c Hc. apply Hs. exact (substring_chars s a b c Hc). Qed.

Lemma layout_safe (s k n : Z) : VwapOut.safe (JS.layout s k n).
Proof.
  unfold JS.layout. pose proof (BigInt_toString_safe s) as Hds.
  assert (Hexpo : forall e,
             VwapOut.safe (String "e" (String (if e <? 0 then "-"%char else "+"%char)
                                      (JS.BigInt_toString (Z.abs e))))).
  { intros e. apply safe_cons; [reflexivity|].
    apply safe_cons; [now destruct (e <? 0)|]. apply BigInt_toString_safe. }
  destruct ((k <=? n) && (n <=? 21)); [apply safe_app; [exact Hds | apply zeros_safe]|].
  destruct ((0 <? n) && (n <=? 21)).
  { apply safe_app; [now apply substring_safe|].
    apply safe_cons; [reflexivity | now apply substring_safe]. }
  destruct ((-6 <? n) && (n <=? 0)).
  { apply safe_cons; [reflexivity|]. apply safe_cons; [reflexivity|].
    apply safe_app; [apply zeros_safe | exact Hds]. }
  destruct (k =? 1); [apply safe_app; [exact Hds | apply Hexpo]|].
  apply safe_app; [now apply substring_safe|].
  apply safe_cons; [reflexivity|].
  apply safe_app; [now apply substring_safe | apply Hexpo].
Qed.

Lemma literal_safe (s : string) :
  forallb VwapOut.safeChar (list_ascii_of_string s) = true -> VwapOut.safe s.
Proof.
  intros H c Hc. exact (proj1 (forallb_forall _ _) H c Hc).
Qed.

Lemma NumberToString_safe (x : float) : VwapOut.safe (JS.NumberToString x).
Proof.
  unfold JS.NumberToString.
  destruct (Prim2SF x) as [sgn|sgn| |sgn m e].
  - now apply literal_safe.
  - destruct sgn; now apply literal_safe.
  - now apply literal_safe.
  - destruct (if 0 <=? e then _ else _) as [num den].
    destruct (JS.shortest _ _ _ _ _ _) as [[s k] n].
    apply safe_app; [destruct sgn; now apply literal_safe | apply layout_safe].
Qed.

Lemma fixedDigits_safe (n : Z) (f : nat) : VwapOut.safe (VwapOut.fixedDigits n f).
Proof.
  unfold VwapOut.fixedDigits. pose proof (BigInt_toString_safe n) as Hm.
  destruct f as [|f]; [exact Hm|].
  set (m := if (_ <=? _)%nat then _ else _).
  assert (Hm' : VwapOut.safe m).
  { subst m. destruct (_ <=? _)%nat; [|exact Hm].
    apply safe_app; [apply zeros_safe | exact Hm]. }
  apply safe_app; [now apply substring_safe|].
  apply safe_cons; [reflexivity | now apply substring_safe].
Qed.

Lemma toFixed_safe (x : float) (f : nat) : VwapOut.safe (VwapOut.toFixed x f).
Proof.
  unfold VwapOut.toFixed. pose proof (NumberToString_safe x) as Hx.
  destruct (Prim2SF x) as [sgn|sgn| |sgn m e]; try exact Hx.
  - apply fixedDigits_safe.
  - destruct (if 0 <=? e then _ else _) as [num den].
    apply safe_app; [destruct sgn; now apply literal_safe|].
    destruct (_ <=? _); [apply NumberToString_safe | apply fixedDigits_safe].
Qed.

Lemma padDigits_safe (w : nat) (n : Z) : VwapOut.safe (Vwap.padDigits w n).
Proof.
  intros c Hc. apply padDigits_digits in Hc as (v & Hv & ->).
  now apply safe_digit.
Qed.

Lemma toISODate_safe (d : Vwap.Date) : VwapOut.safe (Vwap.toISODate d).
Proof.
  unfold Vwap.toISODate.
  apply safe_app.
  - destruct (_ && _); [apply padDigits_safe|].
    apply safe_cons; [now destruct (_ <? _) | apply padDigits_safe].
  - apply safe_cons; [reflexivity|]. apply safe_app; [apply padDigits_safe|].
    apply safe_cons; [reflexivity | apply padDigits_safe].
Qed.

Lemma safe_parts (s : string) (c : ascii) :
  VwapOut.safe s -> In c (list_ascii_of_string s) ->
  Ascii.eqb c COMMA = false /\ Ascii.eqb c QUOTE = false /\
  Ascii.eqb c LF = false /\ Ascii.eqb c CR = false.
Proof.
  intros Hs Hc. specialize (Hs c Hc). unfold VwapOut.safeChar in Hs.
  repeat (apply andb_prop in Hs as [Hs ?]).
  repeat match goal with H : negb _ = true |- _ => apply negb_true_iff in H end.
  now repeat split.
Qed.

(** Four VwapOut.safe texts with commas between them are four fields. *)
Lemma four_fields (a b c d : string) :
  VwapOut.safe a -> VwapOut.safe b -> VwapOut.safe c -> VwapOut.safe d ->
  Vwap.splitCsvLine (a +:+ "," +:+ b +:+ "," +:+ c +:+ "," +:+ d) =
  [a; b; c; d].
Proof.
  intros Ha Hb Hc Hd. unfold Vwap.splitCsvLine.
  assert (Hp : forall s, VwapOut.safe s -> forall x, In x (list_ascii_of_string s) ->
             Ascii.eqb x QUOTE = false /\ Ascii.eqb x COMMA = false).
  { intros s Hs x Hx. destruct (safe_parts s x Hs Hx) as (H1 & H2 & _).
    now split. }
  change ("," +:+ ?r)%string with (String COMMA r).
  rewrite splitCsvLoop_plain_run, splitCsvLoop_comma by now apply Hp.
  change ("," +:+ ?r)%string with (String COMMA r).
  rewrite splitCsvLoop_plain_run, splitCsvLoop_comma by now apply Hp.
  change ("," +:+ ?r)%string with (String COMMA r).
  rewrite splitCsvLoop_plain_run, splitCsvLoop_comma by now apply Hp.
  rewrite <- (app_empty_r d) at 1.
  rewrite splitCsvLoop_plain_run by now apply Hp.
  now rewrite !app_empty_l.
Qed.

Lemma readLines_last (l : string) :
  l <> EmptyString ->
  (forall c, In c (list_ascii_of_string l) ->
     Ascii.eqb c LF = false /\ Ascii.eqb c CR = false) ->
  readLines l = [l].
Proof.
  induction l as [|c l IH]; intros Hne H; [congruence|].
  destruct (H c (or_introl eq_refl)) as [H1 H2].
  cbn [readLines]. rewrite H1, H2.
  destruct l as [|c' l']; [reflexivity|].
  rewrite IH; [reflexivity | discriminate |].
  intros x Hx. apply H. now right.
Qed.

Lemma rowLine_fields (r : Vwap.VwapRecord) :
  VwapOut.safe (Vwap.date r) ->
  Vwap.splitCsvLine (VwapOut.rowLine r) =
  [Vwap.date r; VwapOut.toFixed (Vwap.vwap r) 8;
   VwapOut.toFixed (Vwap.volumeCngn r) 6;
   VwapOut.toFixed (Vwap.volumeUsd r) 6].
Proof.
  intros Hd. unfold VwapOut.rowLine.
  apply four_fields; [exact Hd | apply toFixed_safe ..].
Qed.

Lemma rowLine_safe (r : Vwap.VwapRecord) :
  VwapOut.safe (Vwap.date r) ->
  VwapOut.rowLine r <> EmptyString /\
  forall c, In c (list_ascii_of_string (VwapOut.rowLine r)) ->
            Ascii.eqb c LF = false /\ Ascii.eqb c CR = false.
Proof.
  intros Hd. split.
  - unfold VwapOut.rowLine. destruct (Vwap.date r); discriminate.
  - intros c Hc. unfold VwapOut.rowLine in Hc.
    repeat (apply in_chars_app in Hc as [Hc | Hc]);
      try (destruct Hc as [<- | []]; now split).
    + destruct (safe_parts _ c Hd Hc) as (_ & _ & H3 & H4). now split.
    + destruct (safe_parts _ c (toFixed_safe _ _) Hc) as (_ & _ & H3 & H4).
      now split.
    + destruct (safe_parts _ c (toFixed_safe _ _) Hc) as (_ & _ & H3 & H4).
      now split.
    + destruct (safe_parts _ c (toFixed_safe _ _) Hc) as (_ & _ & H3 & H4).
      now split.
Qed.

Lemma readLines_rows (records : list Vwap.VwapRecord) :
  List.Forall (fun r => VwapOut.safe (Vwap.date r)) records ->
  readLines (JS.join (String LF EmptyString) (map VwapOut.rowLine records)) =
  map VwapOut.rowLine records.
Proof.
  unfold JS.join. induction records as [|r rs IH]; intros H; [reflexivity|].
  inversion H as [|? ? Hr Hrs]; subst.
  destruct (rowLine_safe r Hr) as [Hne Hb].
  destruct rs as [|r' rs'].
  - cbn [map String.concat]. now apply readLines_last.
  - change (String.concat (String LF EmptyString)
              (map VwapOut.rowLine (r :: r' :: rs')))
      with (VwapOut.rowLine r +:+
            String LF (String.concat (String LF EmptyString)
                         (map VwapOut.rowLine (r' :: rs')))).
    rewrite readLines_line by exact Hb. now rewrite IH.
Qed.

Lemma series_dates_safe (lines : list string)
    (records : list Vwap.VwapRecord) :
  Vwap.calculateVWAP lines = Vwap.Results records ->
  List.Forall (fun r => VwapOut.safe (Vwap.date r)) records.
Proof.
  intros H. apply series_walk in H as [-> | (cur & endDate & _ & _ & Hwalk)];
    [constructor|].
  apply walk_dates in Hwalk. apply List.Forall_forall. intros r Hr.
  apply (in_map Vwap.date) in Hr. rewrite Hwalk in Hr.
  apply in_map_iff in Hr as (d & <- & _). apply toISODate_safe.
Qed.

(** X23: the file of a series holds the header line and after it one
    line for each record, in order, without a line end after the last;
    each of these lines splits into four fields: the date of the
    record, its price with 8 decimals and its two volumes with 6. *)
Theorem vwap_file_lines (lines : list string)
    (records : list Vwap.VwapRecord) :
  Vwap.calculateVWAP lines = Vwap.Results records ->
  VwapOut.written (Vwap.calculateVWAP lines) =
    Some (VwapOut.fileText records) /\
  readLines (VwapOut.fileText records) =
    VwapOut.headerLine :: map VwapOut.rowLine records /\
  List.Forall (fun r =>
            Vwap.splitCsvLine (VwapOut.rowLine r) =
            [Vwap.date r; VwapOut.toFixed (Vwap.vwap r) 8;
             VwapOut.toFixed (Vwap.volumeCngn r) 6;
             VwapOut.toFixed (Vwap.volumeUsd r) 6]) records.
Proof.
  intros H. pose proof (series_dates_safe lines records H) as Hsafe.
  split; [now rewrite H|]. split.
  - unfold VwapOut.fileText, VwapOut.csvHeader.
    rewrite app_assoc_s, app_cons, app_empty_l.
    rewrite readLines_line.
    + now rewrite readLines_rows.
    + intros c Hc. cbn in Hc.
      repeat (destruct Hc as [<- | Hc]; [now split|]). destruct Hc.
  - apply List.Forall_forall. intros r Hr. apply rowLine_fields.
    exact (proj1 (List.Forall_forall _ _) Hsafe r Hr).
Qed.

Lemma vwap_file_lines_witness :
  readLines (VwapOut.fileText Sample.vwapSeries) =
  VwapOut.headerLine :: map VwapOut.rowLine Sample.vwapSeries.
Proof.
  refine (proj1 (proj2 (vwap_file_lines Sample.ledgerLines
                          Sample.vwapSeries _))).
  vm_compute. reflexivity.
Defined.

Example vwap_file_sample :
  map VwapOut.rowLine Sample.vwapSeries =
  ["2025-08-05,0.00066644,1500.500000,1.000000";
   "2025-08-06,0.00066644,0.000000,0.000000";
   "2025-08-07,0.00083333,3000.000000,2.500000"]%string.
Proof. vm_compute. reflexivity. Qed.
